(** * Room state machine of the multi-user lottery server (src/server.js)

    The development embeds class [Room] and the socket handlers of
    [server.js] and checks the behavioural claims made about them.

    Modelling conventions.
    - A JavaScript number is a rational, [NaN] or an infinity ([jsnum]);
      zero has no sign.  [+] and [-] round their result to the nearest
      double ([nearest_double]) unless it is an integer: sums of integers
      are kept exact, as doubles keep them below [2^53]: with numbers
      of at most [n] from [n] members, a total reaches that bound only in
      a round of more than 94 million members.
    - The value a client sends with [submitNumber] is any primitive
      value ([jsval]): a number, a string, a boolean, [null] or
      [undefined].  The comparisons, [+] and [%] convert as the language
      does ([ToNumber], [ToString]); strings are read as UTF-8.  Arrays
      and objects are left out: one stored under [__proto__] would
      become the prototype of [submissions], and the names inherited
      from it depend on the runtime.
    - Room and user names are strings.
    - Participant objects live in a store ([heap]); the arrays
      [participants] and [frozenOrder] hold references into it, so the
      sharing created by [[...this.participants]] is visible.
    - The object [submissions] is the finite map of its own properties
      together with the order in which its keys were created
      ([submissionKeys]), which [Object.values] follows.  The properties
      it inherits from [Object.prototype] are listed in
      [Object_prototype]: they count for [in], and an assignment to
      [__proto__] stores nothing.  The same names are found, as inherited
      values, when [rooms] is read.
    - [Date.now()] is an argument of [addParticipant].
    - Outbound messages are not modelled: a handler is the change it makes
      to the registry and to the per-connection variables.  No handler
      catches exceptions: one that throws ends the process, which the
      server state records in [running]. *)

From Stdlib Require Import QArith Qabs Qround Lqa Ascii.
From stdpp Require Import gmap strings list fin_maps.
Close Scope Q_scope.

(** ** JavaScript numbers *)

Inductive jsnum : Type :=
  | Num (q : Q)
  | NaN
  | Inf (negative : bool).

Definition num_of_nat (n : nat) : jsnum := Num (inject_Z (Z.of_nat n)).
Definition num_of_Z (z : Z) : jsnum := Num (inject_Z z).

(** The integer a rational denotes, when it denotes one. *)
Definition Qint (q : Q) : option Z :=
  if (Qnum q mod Zpos (Qden q) =? 0)%Z
  then Some (Qnum q / Zpos (Qden q))%Z
  else None.

(** [b^e] for any integer [e]. *)
Definition Qpow (b : positive) (e : Z) : Q :=
  if (0 <=? e)%Z then inject_Z (Zpos b ^ e) else 1 # Z.to_pos (Zpos b ^ (- e)).

(** The [e] with [2^e <= q < 2^(e+1)], for a positive [q]. *)
Definition Qlog2 (q : Q) : Z :=
  let e := (Z.log2 (Qnum q) - Z.log2 (Zpos (Qden q)))%Z in
  if Qle_bool (Qpow 2 e) q then e else (e - 1)%Z.

(** Rounding to the nearest integer, a tie going to the even one. *)
Definition round_half_even (x : Q) : Z :=
  let f := Qfloor x in
  match (x - inject_Z f ?= 1 # 2)%Q with
  | Lt => f
  | Gt => (f + 1)%Z
  | Eq => if Z.even f then f else (f + 1)%Z
  end.

(** The double nearest to [q]: 53 significant bits, ties to even,
    subnormals below [2^-1022]; the exponent is not bounded above. *)
Definition nearest_double (q : Q) : Q :=
  if Qeq_bool q 0 then 0%Q
  else
    let a := Qabs q in
    let e := Z.max (Qlog2 a) (-1022) in
    let ulp := Qpow 2 (e - 52) in
    let m := round_half_even (a / ulp) in
    Qred (if Qle_bool 0 q then inject_Z m * ulp else - (inject_Z m * ulp)).

(** The number a literal denotes: the nearest double, an infinity from
    [2^1024] on. *)
Definition double_of (q : Q) : jsnum :=
  let r := nearest_double q in
  if Qle_bool (Qpow 2 1024) (Qabs r) then Inf (negb (Qle_bool 0 q))
  else Num r.

(** The result of [+] and [-] on two numbers, from its exact value: an
    integer is kept, any other value is rounded to the nearest double. *)
Definition js_round (q : Q) : Q :=
  match Qint q with
  | Some z => inject_Z z
  | None => nearest_double q
  end.

(** [a + b] on numbers *)
Definition js_add (a b : jsnum) : jsnum :=
  match a, b with
  | Num x, Num y => Num (js_round (x + y))
  | NaN, _ | _, NaN => NaN
  | Inf s, Inf s' => if Bool.eqb s s' then Inf s else NaN
  | Inf s, Num _ | Num _, Inf s => Inf s
  end.

(** [a - b] *)
Definition js_sub (a b : jsnum) : jsnum :=
  match a, b with
  | Num x, Num y => Num (js_round (x - y))
  | NaN, _ | _, NaN => NaN
  | Inf s, Inf s' => if Bool.eqb s s' then NaN else Inf s
  | Inf s, Num _ => Inf s
  | Num _, Inf s => Inf (negb s)
  end.

(** [a < b]: false as soon as one side is [NaN]. *)
Definition js_lt (a b : jsnum) : bool :=
  match a, b with
  | Num x, Num y => negb (Qle_bool y x)
  | Inf true, Num _ | Num _, Inf false | Inf true, Inf false => true
  | _, _ => false
  end.

(** [a > b] *)
Definition js_gt (a b : jsnum) : bool := js_lt b a.

(** [a === b] on numbers: [NaN] equals nothing. *)
Definition js_seq (a b : jsnum) : bool :=
  match a, b with
  | Num x, Num y => Qeq_bool x y
  | Inf s, Inf s' => Bool.eqb s s'
  | _, _ => false
  end.

(** Rounding towards zero. *)
Definition Qtrunc (q : Q) : Z :=
  if Qle_bool 0 q then Qfloor q else Qceiling q.

(** [a % b]: the remainder is exact and has the sign of the dividend; a
    zero divisor or an infinite dividend gives [NaN]. *)
Definition js_rem (a b : jsnum) : jsnum :=
  match a, b with
  | Num x, Num y =>
      if Qeq_bool y 0 then NaN
      else Num (x - y * inject_Z (Qtrunc (x / y)))%Q
  | Num x, Inf _ => Num x
  | _, _ => NaN
  end.

(** [arr[x]] for a number [x]: an element when [x] is an integer within
    the array, [undefined] ([None]) otherwise. *)
Definition js_index {A : Type} (arr : list A) (x : jsnum) : option A :=
  match x with
  | Num q =>
      match Qint q with
      | Some z => if (0 <=? z)%Z then arr !! Z.to_nat z else None
      | None => None
      end
  | NaN | Inf _ => None
  end.

(** ** Numbers as strings, strings as numbers *)

Definition digit_char (d : Z) : ascii := ascii_of_nat (48 + Z.to_nat d).

Fixpoint decimal_digits (fuel : nat) (z : Z) (acc : string) : string :=
  match fuel with
  | O => acc
  | S fuel' =>
      let acc' := String (digit_char (z mod 10)) acc in
      if (z / 10 =? 0)%Z then acc' else decimal_digits fuel' (z / 10) acc'
  end.

(** The decimal digits of a natural number. *)
Definition decimal (z : Z) : string :=
  decimal_digits (S (Z.to_nat (Z.log2 z))) z "".

(** The [d] with [10^d <= a < 10^(d+1)], for a positive [a], searched
    from an estimate. *)
Fixpoint log10_from (fuel : nat) (a : Q) (d : Z) : Z :=
  match fuel with
  | O => d
  | S fuel' =>
      if Qle_bool (Qpow 10 (d + 1)) a then log10_from fuel' a (d + 1)
      else if Qle_bool (Qpow 10 d) a then d
      else log10_from fuel' a (d - 1)
  end.

Definition Qlog10 (a : Q) : Z :=
  log10_from 4 a (Qlog2 a * 30103 / 100000).

(** The decimals [s * 10^(n-k)] of [k] digits that denote the double [x],
    as pairs [(s, n)]. *)
Definition digit_candidates (x : Q) (k : Z) : list (Z * Z) :=
  let d := Qlog10 x in
  n ← [(d + 1)%Z; (d + 2)%Z];
  let scale := Qpow 10 (n - k) in
  let s0 := Qfloor (x / scale) in
  s ← [s0; (s0 + 1)%Z];
  if (10 ^ (k - 1) <=? s)%Z && (s <? 10 ^ k)%Z
     && Qeq_bool (nearest_double (inject_Z s * scale)) x
  then [(s, n)] else [].

(** The better of two candidates: the closer to [x], the even one on a
    tie. *)
Definition closer (x : Q) (k : Z) (c1 c2 : Z * Z) : Z * Z :=
  let dist c := Qabs (inject_Z c.1 * Qpow 10 (c.2 - k) - x) in
  match (dist c1 ?= dist c2)%Q with
  | Lt => c1
  | Gt => c2
  | Eq => if Z.even c1.1 then c1 else c2
  end.

(** The shortest decimal that denotes the double [x]: [(s, n, k)]. *)
Fixpoint shortest_digits (fuel : nat) (x : Q) (k : Z) : Z * Z * Z :=
  match fuel with
  | O => (0, 1, 1)%Z
  | S fuel' =>
      match digit_candidates x k with
      | c :: cs => let b := foldl (closer x k) c cs in (b.1, b.2, k)
      | [] => shortest_digits fuel' x (k + 1)
      end
  end.

Definition zeros (n : Z) : string :=
  String.string_of_list_ascii (replicate (Z.to_nat n) "0"%char).
Definition take_string (n : Z) (s : string) : string :=
  String.string_of_list_ascii (take (Z.to_nat n) (String.list_ascii_of_string s)).
Definition drop_string (n : Z) (s : string) : string :=
  String.string_of_list_ascii (drop (Z.to_nat n) (String.list_ascii_of_string s)).

(** [Number::toString] of a positive double. *)
Definition positive_to_string (x : Q) : string :=
  let '(s, n, k) := shortest_digits 17 x 1 in
  let ds := decimal s in
  if (k <=? n)%Z && (n <=? 21)%Z then ds +:+ zeros (n - k)
  else if (0 <? n)%Z && (n <=? 21)%Z then
    take_string n ds +:+ "." +:+ drop_string n ds
  else if (-6 <? n)%Z && (n <=? 0)%Z then "0." +:+ zeros (- n) +:+ ds
  else
    let e := (n - 1)%Z in
    let exponent := (if (0 <=? e)%Z then "e+" else "e-") +:+ decimal (Z.abs e) in
    if (k =? 1)%Z then ds +:+ exponent
    else take_string 1 ds +:+ "." +:+ drop_string 1 ds +:+ exponent.

(** [Number::toString] in radix 10. *)
Definition NumberToString (x : jsnum) : string :=
  match x with
  | NaN => "NaN"
  | Inf false => "Infinity"
  | Inf true => "-Infinity"
  | Num q =>
      let d := nearest_double q in
      if Qeq_bool d 0 then "0"
      else if Qle_bool 0 d then positive_to_string d
      else "-" +:+ positive_to_string (- d)
  end.

(** The white space and line terminators of the language, in UTF-8. *)
Definition white_space : list (list nat) :=
  [ [9]; [10]; [11]; [12]; [13]; [32]; [194; 160]; [225; 154; 128];
    [226; 128; 128]; [226; 128; 129]; [226; 128; 130]; [226; 128; 131];
    [226; 128; 132]; [226; 128; 133]; [226; 128; 134]; [226; 128; 135];
    [226; 128; 136]; [226; 128; 137]; [226; 128; 138]; [226; 128; 168];
    [226; 128; 169]; [226; 128; 175]; [226; 129; 159]; [227; 128; 128];
    [239; 187; 191] ]%nat.

(** [l] without the prefix [p], when it starts with it. *)
Fixpoint strip_prefix (p l : list nat) : option (list nat) :=
  match p, l with
  | [], _ => Some l
  | a :: p', b :: l' => if Nat.eqb a b then strip_prefix p' l' else None
  | _ :: _, [] => None
  end.

Definition strip_one (ws : list (list nat)) (l : list nat) : option (list nat) :=
  match omap (λ p, strip_prefix p l) ws with
  | l' :: _ => Some l'
  | [] => None
  end.

Fixpoint trim_start (fuel : nat) (ws : list (list nat)) (l : list nat) : list nat :=
  match fuel with
  | O => l
  | S fuel' =>
      match strip_one ws l with
      | Some l' => trim_start fuel' ws l'
      | None => l
      end
  end.

Definition trim (l : list nat) : list nat :=
  let l1 := trim_start (length l) white_space l in
  reverse (trim_start (length l1) (reverse <$> white_space) (reverse l1)).

(** The value of a digit in a radix up to 16. *)
Definition digit_value (radix : nat) (c : nat) : option Z :=
  let v :=
    if (48 <=? c)%nat && (c <=? 57)%nat then Some (c - 48)%nat
    else if (97 <=? c)%nat && (c <=? 102)%nat then Some (c - 87)%nat
    else if (65 <=? c)%nat && (c <=? 70)%nat then Some (c - 55)%nat
    else None in
  match v with
  | Some d => if (d <? radix)%nat then Some (Z.of_nat d) else None
  | None => None
  end.

(** The leading digits of [l]: the number they write, their count, and
    what follows them. *)
Fixpoint read_digits (radix : nat) (l : list nat) (acc : Z) (count : nat)
    : Z * nat * list nat :=
  match l with
  | c :: l' =>
      match digit_value radix c with
      | Some d => read_digits radix l' (acc * Z.of_nat radix + d)%Z (S count)
      | None => (acc, count, l)
      end
  | [] => (acc, count, l)
  end.

(** A literal in radix 2, 8 or 16, after its prefix. *)
Definition non_decimal (radix : nat) (l : list nat) : jsnum :=
  match read_digits radix l 0 0 with
  | (v, S _, []) => double_of (inject_Z v)
  | _ => NaN
  end.

(** An exponent part: [e] or [E], a sign or none, digits; or nothing. *)
Definition read_exponent (l : list nat) : option Z :=
  match l with
  | [] => Some 0%Z
  | c :: l' =>
      if Nat.eqb c 101 || Nat.eqb c 69 then
        let '(neg, l'') :=
          match l' with
          | 43 :: r => (false, r)
          | 45 :: r => (true, r)
          | _ => (false, l')
          end%nat in
        match read_digits 10 l'' 0 0 with
        | (v, S _, []) => Some (if neg then - v else v)%Z
        | _ => None
        end
      else None
  end.

Definition Infinity_bytes : list nat :=
  [73; 110; 102; 105; 110; 105; 116; 121]%nat.

(** A decimal literal after its sign. *)
Definition unsigned_decimal (negative : bool) (l : list nat) : jsnum :=
  if bool_decide (l = Infinity_bytes) then Inf negative
  else
    let '(i, ni, l1) := read_digits 10 l 0 0 in
    let '(f, nf, l2) :=
      match l1 with
      | 46 :: r => read_digits 10 r i 0
      | _ => (i, 0, l1)
      end%nat in
    if Nat.eqb (ni + nf) 0 then NaN
    else
      match read_exponent l2 with
      | Some e =>
          let v := (inject_Z f * Qpow 10 (e - Z.of_nat nf))%Q in
          double_of (if negative then - v else v)%Q
      | None => NaN
      end.

(** [StringToNumber]: the number a string reads as, [NaN] when it is not
    a numeric literal between white space. *)
Definition StringToNumber (s : string) : jsnum :=
  let l := trim (nat_of_ascii <$> String.list_ascii_of_string s) in
  match l with
  | [] => num_of_nat 0
  | 48 :: 120 :: r | 48 :: 88 :: r => non_decimal 16 r
  | 48 :: 111 :: r | 48 :: 79 :: r => non_decimal 8 r
  | 48 :: 98 :: r | 48 :: 66 :: r => non_decimal 2 r
  | 43 :: r => unsigned_decimal false r
  | 45 :: r => unsigned_decimal true r
  | _ => unsigned_decimal false l
  end%nat.

(** ** Values *)

(** What a client can send as the number of [submitNumber], and what the
    summing loop of [reveal] can produce. *)
Inductive jsval : Type :=
  | VUndefined
  | VNull
  | VBool (b : bool)
  | VNum (x : jsnum)
  | VStr (s : string).

Coercion VNum : jsnum >-> jsval.

Definition ToNumber (v : jsval) : jsnum :=
  match v with
  | VUndefined => NaN
  | VNull => num_of_nat 0
  | VBool b => num_of_nat (if b then 1 else 0)
  | VNum x => x
  | VStr s => StringToNumber s
  end.

Definition ToString (v : jsval) : string :=
  match v with
  | VUndefined => "undefined"
  | VNull => "null"
  | VBool b => if b then "true" else "false"
  | VNum x => NumberToString x
  | VStr s => s
  end.

(** [a + b]: concatenation as soon as one side is a string, addition of
    numbers otherwise. *)
Definition js_plus (a b : jsval) : jsval :=
  match a, b with
  | VStr _, _ | _, VStr _ => VStr (ToString a +:+ ToString b)
  | _, _ => VNum (js_add (ToNumber a) (ToNumber b))
  end.

(** ** Participants and the object store *)

Record Participant : Type := mkParticipant {
  name : string;
  socketId : string;
  isHost : bool;
  online : bool;
  joinTime : Z
}.

Definition set_socketId (s : string) (p : Participant) : Participant :=
  mkParticipant (name p) s (isHost p) (online p) (joinTime p).
Definition set_isHost (b : bool) (p : Participant) : Participant :=
  mkParticipant (name p) (socketId p) b (online p) (joinTime p).
Definition set_online (b : bool) (p : Participant) : Participant :=
  mkParticipant (name p) (socketId p) (isHost p) b (joinTime p).

(** A reference to a participant object: its position in the store. *)
Abbreviation ref := nat (only parsing).

(** A predicate on the object behind a reference. *)
Definition holds (h : list Participant) (f : Participant → bool) (i : ref) : bool :=
  match h !! i with
  | Some p => f p
  | None => false
  end.

(** [arr.find(p => f(p))] over an array of references. *)
Definition find_ref (h : list Participant) (f : Participant → bool)
    (arr : list ref) : option ref :=
  List.find (holds h f) arr.

(** [arr.findIndex(p => f(p))]: the position in the array. *)
Fixpoint findIndex (h : list Participant) (f : Participant → bool)
    (arr : list ref) : option nat :=
  match arr with
  | [] => None
  | i :: arr' =>
      if holds h f i then Some 0
      else S <$> findIndex h f arr'
  end.

(** The time a reference's object joined (the sort key). *)
Definition time_of (h : list Participant) (i : ref) : Z :=
  match h !! i with
  | Some p => joinTime p
  | None => 0%Z
  end.

(** [arr.sort((a, b) => a.joinTime - b.joinTime)]: a stable sort, written
    as an insertion sort that keeps equal keys in their order. *)
Fixpoint insert_by {A : Type} (key : A → Z) (x : A) (l : list A) : list A :=
  match l with
  | [] => [x]
  | y :: l' =>
      if (key x <=? key y)%Z then x :: y :: l'
      else y :: insert_by key x l'
  end.

Definition sort_by {A : Type} (key : A → Z) (l : list A) : list A :=
  foldr (insert_by key) [] l.

(** ** Rooms *)

Inductive Phase : Type := lobby | input | revealed.

Global Instance Phase_eq_dec : EqDecision Phase.
Proof. solve_decision. Defined.

Record Result : Type := mkResult {
  total : jsval;
  participantCount : nat;
  index : jsnum;               (* the remainder *)
  actualWinnerIndex : jsnum;   (* the array index *)
  res_submissions : gmap string jsval
}.

(** The object [submissions] is held in two fields: its own properties
    as a map, and its keys in the order of their creation. *)
Record Room : Type := mkRoom {
  roomName : string;
  heap : list Participant;
  participants : list ref;
  phase : Phase;
  submissions : gmap string jsval;
  submissionKeys : list string;
  frozenOrder : list ref;
  result : option Result;
  winner : option string
}.

Definition newRoom (nm : string) : Room :=
  mkRoom nm [] [] lobby ∅ [] [] None None.

Definition with_heap (h : list Participant) (r : Room) : Room :=
  mkRoom (roomName r) h (participants r) (phase r) (submissions r)
         (submissionKeys r) (frozenOrder r) (result r) (winner r).
Definition with_participants (ps : list ref) (r : Room) : Room :=
  mkRoom (roomName r) (heap r) ps (phase r) (submissions r)
         (submissionKeys r) (frozenOrder r) (result r) (winner r).
Definition with_submissions (s : gmap string jsval) (r : Room) : Room :=
  mkRoom (roomName r) (heap r) (participants r) (phase r) s
         (submissionKeys r) (frozenOrder r) (result r) (winner r).

(** The property names every object inherits from [Object.prototype]. *)
Definition Object_prototype : list string :=
  ["constructor"; "__defineGetter__"; "__defineSetter__"; "hasOwnProperty";
   "__lookupGetter__"; "__lookupSetter__"; "isPrototypeOf";
   "propertyIsEnumerable"; "toString"; "valueOf"; "__proto__";
   "toLocaleString"].

(** [this.submissions[key] = value].  An assignment to [__proto__]
    reaches the setter inherited from [Object.prototype], which ignores
    every primitive value but [null], and [null] is never assigned: it
    does not pass the comparisons of [submitNumber].  Any other key
    becomes an own property, last in the order of keys when it is new. *)
Definition assign (key : string) (value : jsval) (r : Room) : Room :=
  if String.eqb key "__proto__" then r
  else
    mkRoom (roomName r) (heap r) (participants r) (phase r)
           (<[key := value]> (submissions r))
           (if bool_decide (is_Some (submissions r !! key))
            then submissionKeys r
            else submissionKeys r ++ [key])
           (frozenOrder r) (result r) (winner r).

(** [key in this.submissions]: an own property, or an inherited one. *)
Definition has_property (r : Room) (key : string) : bool :=
  bool_decide (is_Some (submissions r !! key))
  || bool_decide (key ∈ Object_prototype).

(** The array index a key is, when it is one: a decimal numeral without
    leading zero, below [2^32 - 1]. *)
Definition array_index (key : string) : option Z :=
  match read_digits 10 (nat_of_ascii <$> String.list_ascii_of_string key) 0 0 with
  | (v, S _, []) =>
      if String.eqb (decimal v) key && (v <? 2 ^ 32 - 1)%Z then Some v else None
  | _ => None
  end.

(** [Object.keys(this.submissions)]: the keys that are array indices in
    ascending order, then the other keys in the order of their creation. *)
Definition Object_keys (r : Room) : list string :=
  sort_by (λ k, default 0%Z (array_index k))
          (List.filter (λ k, bool_decide (is_Some (array_index k))) (submissionKeys r))
  ++ List.filter (λ k, negb (bool_decide (is_Some (array_index k)))) (submissionKeys r).

(** [Object.values(this.submissions)] *)
Definition Object_values (r : Room) : list jsval :=
  omap (λ k, submissions r !! k) (Object_keys r).


(** The names behind an array of references. *)
Definition names_of (h : list Participant) (arr : list ref) : list string :=
  omap (λ i, name <$> h !! i) arr.

Definition frozenNames (r : Room) : list string :=
  names_of (heap r) (frozenOrder r).

Definition rosterNames (r : Room) : list string :=
  names_of (heap r) (participants r).

(** *** Roster management *)

Definition addParticipant (userName sock : string) (now : Z) (r : Room)
    : Room * bool :=
  match find_ref (heap r) (λ p, String.eqb (name p) userName) (participants r) with
  | Some i =>
      (with_heap (alter (λ p, set_online true (set_socketId sock p)) i (heap r)) r,
       false)
  | None =>
      let isHost := Nat.eqb (length (participants r)) 0 in
      let p := mkParticipant userName sock isHost true now in
      (with_participants (participants r ++ [length (heap r)])
         (with_heap (heap r ++ [p]) r),
       true)
  end.

Definition checkAndTransferHost (r : Room) : Room :=
  let currentHost := find_ref (heap r) isHost (participants r) in
  let alive :=
    match currentHost with
    | Some i => holds (heap r) online i
    | None => false
    end in
  if alive then r
  else
    let h1 := foldl (λ h i, alter (set_isHost false) i h) (heap r) (participants r) in
    let onlineParticipants := List.filter (holds h1 online) (participants r) in
    if (0 <? length onlineParticipants)%nat then
      match sort_by (time_of h1) onlineParticipants with
      | i :: _ => with_heap (alter (set_isHost true) i h1) r
      | [] => with_heap h1 r
      end
    else if (0 <? length (participants r))%nat then
      let ps := sort_by (time_of h1) (participants r) in
      match ps with
      | i :: _ => with_participants ps (with_heap (alter (set_isHost true) i h1) r)
      | [] => with_participants ps (with_heap h1 r)
      end
    else with_heap h1 r.

Definition removeParticipant (sock : string) (r : Room) : Room :=
  match find_ref (heap r) (λ p, String.eqb (socketId p) sock) (participants r) with
  | Some i => checkAndTransferHost (with_heap (alter (set_online false) i (heap r)) r)
  | None => r
  end.

Definition kickParticipant (userName : string) (r : Room) : Room * option string :=
  match findIndex (heap r) (λ p, String.eqb (name p) userName) (participants r) with
  | Some k =>
      let kicked := participants r !! k ≫= (heap r !!.) in
      (checkAndTransferHost (with_participants (delete k (participants r)) r),
       socketId <$> kicked)
  | None => (r, None)
  end.

Definition isEmpty (r : Room) : bool :=
  Nat.eqb (length (List.filter (holds (heap r) online) (participants r))) 0.

(** *** Round lifecycle *)

Definition startRound (r : Room) : Room * bool :=
  if negb (bool_decide (phase r = lobby)) || (length (participants r) <? 2)%nat
  then (r, false)
  else
    (mkRoom (roomName r) (heap r) (participants r) input ∅ []
            (participants r) None None,
     true).

(** [number < 1] and [number > n] compare [ToNumber(number)]. *)
Definition submitNumber (userName : string) (number : jsval) (r : Room)
    : Room * bool :=
  if negb (bool_decide (phase r = input)) then (r, false)
  else
    match find_ref (heap r) (λ p, String.eqb (name p) userName) (frozenOrder r) with
    | None => (r, false)
    | Some _ =>
        let n := length (frozenOrder r) in
        if js_lt (ToNumber number) (num_of_nat 1)
           || js_gt (ToNumber number) (num_of_nat n)
        then (r, false)
        else (assign userName number r, true)
    end.

Definition canReveal (r : Room) : bool :=
  let totalParticipants := length (frozenOrder r) in
  let submittedCount := size (submissions r) in
  Nat.eqb submittedCount totalParticipants.

(** The loop of a forced reveal: every frozen member whose name is not a
    property of [submissions] gets the value 1. *)
Definition fill_from (h : list Participant) (arr : list ref) (r : Room) : Room :=
  foldl (λ r' i,
           match h !! i with
           | Some p =>
               if has_property r' (name p) then r'
               else assign (name p) (num_of_nat 1) r'
           | None => r'
           end) r arr.

Definition fill_missing (r : Room) : Room :=
  fill_from (heap r) (frozenOrder r) r.

(** The room a reveal computes with: filled in when forced. *)
Definition revealed_submissions (force : bool) (r : Room) : Room :=
  if force then fill_missing r else r.

(** The loop adding up [Object.values(this.submissions)], from 0. *)
Definition sum_values (values : list jsval) : jsval :=
  foldl js_plus (VNum (num_of_nat 0)) values.

(** How a call ends: with a returned value, or with an exception.  Both
    carry the room as the call leaves it. *)
Inductive outcome (A : Type) : Type :=
  | Return (a : A) (r : Room)
  | Throw (r : Room).
Arguments Return {A} a r.
Arguments Throw {A} r.

Definition final {A : Type} (o : outcome A) : Room :=
  match o with
  | Return _ r => r
  | Throw r => r
  end.

Definition winnerIndex_of (remainder : jsnum) (n : nat) : jsnum :=
  if js_seq remainder (num_of_nat 0)
  then js_sub (num_of_nat n) (num_of_nat 1)
  else js_sub remainder (num_of_nat 1).

(** [reveal]: reading [.name] of [frozenOrder[winnerIndex]] throws a
    TypeError when that element is [undefined]; nothing after the read
    has happened by then. *)
Definition reveal (force : bool) (r : Room) : outcome bool :=
  if negb (bool_decide (phase r = input)) then Return false r
  else if negb force && negb (canReveal r) then Return false r
  else
    let r1 := revealed_submissions force r in
    let total := sum_values (Object_values r1) in
    let n := length (frozenOrder r) in
    let remainder := js_rem (ToNumber total) (num_of_nat n) in
    let winnerIndex := winnerIndex_of remainder n in
    match js_index (frozenOrder r) winnerIndex ≫= (heap r !!.) with
    | None => Throw r1
    | Some p =>
        Return true
          (mkRoom (roomName r) (heap r) (participants r) revealed
                  (submissions r1) (submissionKeys r1) (frozenOrder r)
                  (Some (mkResult total n remainder winnerIndex (submissions r1)))
                  (Some (name p)))
    end.

Definition backToLobby (r : Room) : Room * bool :=
  (mkRoom (roomName r) (heap r) (participants r) lobby ∅ [] [] None None, true).

(** *** Snapshot sent to clients *)

Record ParticipantView : Type := mkView {
  v_name : string;
  v_isHost : bool;
  v_online : bool
}.

Record RoomState : Type := mkState {
  s_name : string;
  s_participants : list ParticipantView;
  s_phase : Phase;
  s_submissions : option (gmap string bool);
  s_result : option Result;
  s_winner : option string
}.

Definition getState (r : Room) : RoomState :=
  mkState (roomName r)
    (omap (λ i, (λ p, mkView (name p) (isHost p) (online p)) <$> heap r !! i)
          (participants r))
    (phase r)
    (if bool_decide (phase r = input)
     then Some ((λ _, true) <$> submissions r)
     else None)
    (result r)
    (winner r).

(** ** Calls on a room, and the rooms they reach *)

Inductive op : Type :=
  | OpAdd (userName sock : string) (now : Z)
  | OpRemove (sock : string)
  | OpKick (userName : string)
  | OpCheckHost
  | OpStart
  | OpSubmit (userName : string) (number : jsval)
  | OpReveal (force : bool)
  | OpBack.

(** The room a call leaves behind, whether it returned or threw. *)
Definition exec (o : op) (r : Room) : Room :=
  match o with
  | OpAdd u s t => (addParticipant u s t r).1
  | OpRemove s => removeParticipant s r
  | OpKick u => (kickParticipant u r).1
  | OpCheckHost => checkAndTransferHost r
  | OpStart => (startRound r).1
  | OpSubmit u x => (submitNumber u x r).1
  | OpReveal f => final (reveal f r)
  | OpBack => (backToLobby r).1
  end.

Definition run (os : list op) (r : Room) : Room :=
  foldl (λ r o, exec o r) r os.

Inductive reachable : Room → Prop :=
  | reach_new nm : reachable (newRoom nm)
  | reach_step o r : reachable r → reachable (exec o r).

(** ** The registry and the socket handlers *)

(** The two variables each connection keeps. *)
Record Session : Type := mkSession {
  currentRoom : option string;
  currentUser : option string
}.

(** [rooms] holds the own properties of the registry object; [running]
    is false once an exception has ended the process. *)
Record Server : Type := mkServer {
  rooms : gmap string Room;
  sessions : gmap string Session;   (* by socket id *)
  running : bool
}.

Definition initServer : Server := mkServer ∅ ∅ true.

(** What is left when a handler has thrown: nothing catches the
    exception, the process exits, registry and connections are gone. *)
Definition crashed : Server := mkServer ∅ ∅ false.

Definition session_of (s : Server) (sid : string) : Session :=
  default (mkSession None None) (sessions s !! sid).

(** Truthiness of a string-or-null. *)
Definition truthy (o : option string) : bool :=
  match o with
  | Some x => negb (String.eqb x "")
  | None => false
  end.

(** The room and user of a connection, when both variables are set and the
    room is still registered (the common prologue of the handlers).
    [currentRoom] is set by a join that went through, hence never to a
    name that [rooms] inherits ([plain_server]): [rooms[currentRoom]] is
    a room or [undefined]. *)
Definition resolve (s : Server) (sid : string) : option (string * string * Room) :=
  match currentRoom (session_of s sid), currentUser (session_of s sid) with
  | Some cr, Some cu =>
      if truthy (Some cr) && truthy (Some cu)
      then (λ room, (cr, cu, room)) <$> rooms s !! cr
      else None
  | _, _ => None
  end.

(** [participant && participant.isHost] for the caller. *)
Definition callerIsHost (room : Room) (cu : string) : bool :=
  match find_ref (heap room) (λ p, String.eqb (name p) cu) (participants room) with
  | Some i => holds (heap room) isHost i
  | None => false
  end.

Definition put_room (cr : string) (room : Room) (s : Server) : Server :=
  mkServer (<[cr := room]> (rooms s)) (sessions s) (running s).

(** [rooms[roomName]] is an own property (a room), or else a value
    inherited from [Object.prototype] (a function or an object, truthy),
    or else [undefined].  Only in the last case is a room created.  An
    inherited value has neither [phase] nor [participants]:
    [room.phase !== 'lobby'] holds and [room.participants.find] throws. *)
Definition on_joinRoom (sid roomName userName : string) (now : Z) (s : Server)
    : Server :=
  if String.eqb roomName "" || String.eqb userName "" then s
  else
    let rooms1 :=
      match rooms s !! roomName with
      | Some _ => rooms s
      | None =>
          if bool_decide (roomName ∈ Object_prototype) then rooms s
          else <[roomName := newRoom roomName]> (rooms s)
      end in
    match rooms1 !! roomName with
    | None => crashed
    | Some room =>
        if negb (bool_decide (phase room = lobby))
           && negb (bool_decide (is_Some
                (find_ref (heap room) (λ p, String.eqb (name p) userName)
                          (participants room))))
        then mkServer rooms1 (sessions s) (running s)
        else
          let room' := (addParticipant userName sid now room).1 in
          mkServer (<[roomName := room']> rooms1)
                   (<[sid := mkSession (Some roomName) (Some userName)]> (sessions s))
                   (running s)
    end.

Definition on_startRound (sid : string) (s : Server) : Server :=
  match resolve s sid with
  | Some (cr, cu, room) =>
      if callerIsHost room cu then put_room cr (startRound room).1 s else s
  | None => s
  end.

Definition on_submitNumber (sid : string) (number : jsval) (s : Server) : Server :=
  match resolve s sid with
  | Some (cr, cu, room) => put_room cr (submitNumber cu number room).1 s
  | None => s
  end.

(** The state after [room.reveal(force)] called from a handler: the
    room as the call left it when it returned, the end of the process
    when it threw. *)
Definition after_reveal (cr : string) (o : outcome bool) (s : Server) : Server :=
  match o with
  | Return _ room' => put_room cr room' s
  | Throw _ => crashed
  end.

Definition on_revealResult (sid : string) (s : Server) : Server :=
  match resolve s sid with
  | Some (cr, cu, room) =>
      if callerIsHost room cu then after_reveal cr (reveal false room) s else s
  | None => s
  end.

Definition on_forceReveal (sid : string) (s : Server) : Server :=
  match resolve s sid with
  | Some (cr, cu, room) =>
      if callerIsHost room cu then after_reveal cr (reveal true room) s else s
  | None => s
  end.

Definition on_backToLobby (sid : string) (s : Server) : Server :=
  match resolve s sid with
  | Some (cr, cu, room) =>
      if callerIsHost room cu then put_room cr (backToLobby room).1 s else s
  | None => s
  end.

Definition on_kickUser (sid userName : string) (s : Server) : Server :=
  match resolve s sid with
  | Some (cr, cu, room) =>
      if callerIsHost room cu then
        if negb (bool_decide (phase room = lobby)) then s
        else put_room cr (kickParticipant userName room).1 s
      else s
  | None => s
  end.

(** [handleDisconnect], behind both [leaveRoom] and [disconnect]. *)
Definition handleDisconnect (sid : string) (s : Server) : Server :=
  match resolve s sid with
  | Some (cr, cu, room) =>
      let room' := removeParticipant sid room in
      mkServer
        (if isEmpty room' then delete cr (rooms s) else <[cr := room']> (rooms s))
        (<[sid := mkSession None None]> (sessions s))
        (running s)
  | None => s
  end.

Inductive event : Type :=
  | EvJoin (sid roomName userName : string) (now : Z)
  | EvStart (sid : string)
  | EvSubmit (sid : string) (number : jsval)
  | EvReveal (sid : string)
  | EvForceReveal (sid : string)
  | EvBack (sid : string)
  | EvKick (sid userName : string)
  | EvLeave (sid : string)
  | EvDisconnect (sid : string).

(** The handler of an event; a process that has ended handles none. *)
Definition handle (e : event) (s : Server) : Server :=
  if negb (running s) then s
  else
    match e with
    | EvJoin sid rn un now => on_joinRoom sid rn un now s
    | EvStart sid => on_startRound sid s
    | EvSubmit sid x => on_submitNumber sid x s
    | EvReveal sid => on_revealResult sid s
    | EvForceReveal sid => on_forceReveal sid s
    | EvBack sid => on_backToLobby sid s
    | EvKick sid un => on_kickUser sid un s
    | EvLeave sid => handleDisconnect sid s
    | EvDisconnect sid => handleDisconnect sid s
    end.

Definition serve (es : list event) (s : Server) : Server :=
  foldl (λ s e, handle e s) s es.

Inductive server_reachable : Server → Prop :=
  | sreach_init : server_reachable initServer
  | sreach_step e s : server_reachable s → server_reachable (handle e s).

(** No registered room is without an online participant. *)
Definition no_empty_room (s : Server) : Prop :=
  ∀ k room, rooms s !! k = Some room → isEmpty room = false.

(** ** Vocabulary of the statements *)

(** Every reference of the array points into the store. *)
Definition wf_refs (h : list Participant) (arr : list ref) : Prop :=
  ∀ i, i ∈ arr → i < length h.

(** The store [h'] still holds every object of [h], with the name and
    join time it had: objects are created and their flags and socket ids
    rewritten, but no object is dropped or renamed. *)
Definition heap_ext (h h' : list Participant) : Prop :=
  ∀ i p, h !! i = Some p →
    ∃ p', h' !! i = Some p' ∧ name p' = name p ∧ joinTime p' = joinTime p.

(** What holds of every room the methods can produce. *)
Record room_inv (r : Room) : Prop := mkInv {
  inv_roster_wf : wf_refs (heap r) (participants r);
  inv_frozen_wf : wf_refs (heap r) (frozenOrder r);
  inv_roster_nodup : NoDup (rosterNames r);
  inv_frozen_nodup : NoDup (frozenNames r);
  inv_frozen_size : phase r ≠ lobby → 2 ≤ length (frozenOrder r);
  inv_subs_dom : ∀ k, is_Some (submissions r !! k) → k ∈ frozenNames r;
  inv_result : phase r ≠ revealed → result r = None ∧ winner r = None
}.

(** A call that edits the roster only: the round data are untouched and
    the store keeps its objects. *)
Definition same_round (r r' : Room) : Prop :=
  roomName r' = roomName r
  ∧ phase r' = phase r
  ∧ submissions r' = submissions r
  ∧ submissionKeys r' = submissionKeys r
  ∧ frozenOrder r' = frozenOrder r
  ∧ result r' = result r
  ∧ winner r' = winner r
  ∧ heap_ext (heap r) (heap r').

(** [x] is a number, and an integer between [lo] and [hi]. *)
Definition int_between (lo hi : Z) (x : jsval) : Prop :=
  ∃ (q : Q) (z : Z), x = Num q ∧ (q == inject_Z z)%Q ∧ (lo ≤ z ≤ hi)%Z.

(** [v] is a number, the integer [z]. *)
Definition is_integer (v : jsval) (z : Z) : Prop :=
  ∃ q : Q, v = Num q ∧ (q == inject_Z z)%Q.

(** The sum of a list of integers. *)
Definition Zsum (zs : list Z) : Z := foldr Z.add 0%Z zs.

(** [x] is a number that is not an integer. *)
Definition non_integer (x : jsnum) : Prop :=
  ∃ q : Q, x = Num q ∧ ∀ z : Z, ¬ (q == inject_Z z)%Q.

(** The two comparisons of [submitNumber] both fail to reject [x]. *)
Definition passes_range_check (x : jsval) (n : nat) : Prop :=
  js_lt (ToNumber x) (num_of_nat 1) = false
  ∧ js_gt (ToNumber x) (num_of_nat n) = false.

(** Every stored submission is an integer of the round's range. *)
Definition integral_submissions (r : Room) : Prop :=
  ∀ k v, submissions r !! k = Some v →
    int_between 1 (Z.of_nat (length (frozenOrder r))) v.

(** Every frozen member has a submission. *)
Definition all_submitted (r : Room) : Prop :=
  ∀ u, u ∈ frozenNames r → is_Some (submissions r !! u).

(** Calls whose submitted number, if any, is an integer. *)
Definition integral_op (o : op) : Prop :=
  match o with
  | OpSubmit _ x => ∃ (q : Q) (z : Z), x = Num q ∧ (q == inject_Z z)%Q
  | _ => True
  end.

(** Rooms reached by calls that only ever submit integers. *)
Inductive reachable_int : Room → Prop :=
  | reach_int_new nm : reachable_int (newRoom nm)
  | reach_int_step o r :
      reachable_int r → integral_op o → reachable_int (exec o r).

(** The three moves of the cycle lobby → input → revealed → lobby. *)
Definition cycle_edge (p q : Phase) : Prop :=
  (p = lobby ∧ q = input) ∨ (p = input ∧ q = revealed) ∨ (p = revealed ∧ q = lobby).

(** "Every call on a room the methods produced keeps the phase or moves
    it along the cycle." *)
Definition phase_follows_cycle : Prop :=
  ∀ (r : Room) (o : op), reachable r →
    phase (exec o r) = phase r ∨ cycle_edge (phase r) (phase (exec o r)).

(** Events other than [kickUser]. *)
Definition not_a_kick (e : event) : Prop :=
  match e with
  | EvKick _ _ => False
  | _ => True
  end.

(** ** Vocabulary of host re-election *)

(** The host found first in the roster is absent, or is offline. *)
Definition host_missing_or_offline (r : Room) : Prop :=
  match find_ref (heap r) isHost (participants r) with
  | Some i => holds (heap r) online i = false
  | None => True
  end.

(** No two members of the roster joined at the same time. *)
Definition distinct_joinTimes (r : Room) : Prop :=
  ∀ i j, i ∈ participants r → j ∈ participants r →
    time_of (heap r) i = time_of (heap r) j → i = j.

(** [i] is an online member of the roster and no online member joined
    before it. *)
Definition earliest_online (r : Room) (i : ref) : Prop :=
  i ∈ participants r
  ∧ holds (heap r) online i = true
  ∧ ∀ j, j ∈ participants r → holds (heap r) online j = true →
      (time_of (heap r) i ≤ time_of (heap r) j)%Z.

(** [i] is a member of the roster and no member joined before it. *)
Definition earliest_overall (r : Room) (i : ref) : Prop :=
  i ∈ participants r
  ∧ ∀ j, j ∈ participants r → (time_of (heap r) i ≤ time_of (heap r) j)%Z.

(** No member of the roster is online. *)
Definition nobody_online (r : Room) : Prop :=
  ∀ j, j ∈ participants r → holds (heap r) online j = false.

(** In [r'], the member [i] carries [isHost] and no other member does. *)
Definition sole_host (r' : Room) (i : ref) : Prop :=
  i ∈ participants r'
  ∧ ∀ j, j ∈ participants r' → (holds (heap r') isHost j = true ↔ j = i).

(** What the re-election must achieve, from the room [r] it starts in to
    the room [r'] it leaves. *)
Definition elects (r r' : Room) : Prop :=
  (∀ i, earliest_online r i → sole_host r' i)
  ∧ (nobody_online r → ∀ i, earliest_overall r i → sole_host r' i)
  ∧ ((∃ j, j ∈ participants r ∧ holds (heap r) online j = true) →
       ∃ i, earliest_online r i)
  ∧ (participants r ≠ [] → ∃ i, earliest_overall r i).

(** The names of the members that carry [isHost]. *)
Definition host_names (r : Room) : list string :=
  names_of (heap r) (List.filter (holds (heap r) isHost) (participants r)).

(** ** Example rooms and runs *)

(** Two players A and B in the lobby. *)
Definition lobby2 : Room :=
  run [OpAdd "A" "s1" 1; OpAdd "B" "s2" 2] (newRoom "R").

(** Two players A and B in a started round, nothing submitted yet. *)
Definition room2 : Room :=
  run [OpAdd "A" "s1" 1; OpAdd "B" "s2" 2; OpStart] (newRoom "R").

(** The round of [room2] after A sent 1.5 and B sent 1. *)
Definition room2_fraction : Room :=
  run [OpSubmit "A" (Num (3 # 2)); OpSubmit "B" (Num 1)] room2.

(** The round of [room2] after A sent the string ['1'] and B the string
    ['2']. *)
Definition room2_strings : Room :=
  run [OpSubmit "A" (VStr "1"); OpSubmit "B" (VStr "2")] room2.

(** The same two strings, sent by B first and by A second. *)
Definition room2_strings_swapped : Room :=
  run [OpSubmit "B" (VStr "2"); OpSubmit "A" (VStr "1")] room2.

(** Two players named 10 and 9 in a started round; 10 has sent the
    string ['1'], then 9 the string ['2']. *)
Definition room_numeric_names : Room :=
  run [OpAdd "10" "s1" 1; OpAdd "9" "s2" 2; OpStart;
       OpSubmit "10" (VStr "1"); OpSubmit "9" (VStr "2")] (newRoom "R").

(** Three players A, B, C in a started round. *)
Definition room3 : Room :=
  run [OpAdd "A" "s1" 1; OpAdd "B" "s2" 2; OpAdd "C" "s3" 3; OpStart]
      (newRoom "R").

(** The double that follows 1: [1 + 2^-52]. *)
Definition next_after_one : jsnum :=
  Num (4503599627370497 # 4503599627370496).

(** The round of [room3] after A and B sent [1 + 2^-52] and C sent 1, A
    being first and C sending before B or after. *)
Definition room3_doubles (c_before_b : bool) : Room :=
  run (if c_before_b
       then [OpSubmit "A" next_after_one; OpSubmit "C" (num_of_Z 1);
             OpSubmit "B" next_after_one]
       else [OpSubmit "A" next_after_one; OpSubmit "B" next_after_one;
             OpSubmit "C" (num_of_Z 1)])
      room3.

(** Two players named toString and B in a started round, nothing
    submitted. *)
Definition room_toString : Room :=
  run [OpAdd "toString" "s1" 1; OpAdd "B" "s2" 2; OpStart] (newRoom "R").

(** Four players A, B, C, D in a started round. *)
Definition room4 : Room :=
  run [OpAdd "A" "s1" 1; OpAdd "B" "s2" 2; OpAdd "C" "s3" 3;
       OpAdd "D" "s4" 4; OpStart] (newRoom "R").

(** The round of [room4] once the four numbers [a b c d] are in. *)
Definition room4_with (a b c d : Z) : Room :=
  run [OpSubmit "A" (num_of_Z a); OpSubmit "B" (num_of_Z b);
       OpSubmit "C" (num_of_Z c); OpSubmit "D" (num_of_Z d)] room4.

(** A, B and C joined in this order; A dropped out, which made B the host,
    and came back if [a_on]; C dropped out unless [c_on]. *)
Definition room_abc (a_on c_on : bool) : Room :=
  run ([OpAdd "A" "s1" 1; OpAdd "B" "s2" 2; OpAdd "C" "s3" 3; OpRemove "s1"]
       ++ (if a_on then [OpAdd "A" "s1" 9] else [])
       ++ (if c_on then [] else [OpRemove "s3"]))
      (newRoom "R").

(** A joined and dropped out, then B joined: A still carries [isHost]
    while offline, B is online. *)
Definition room_host_away : Room :=
  run [OpAdd "A" "s1" 1; OpRemove "s1"; OpAdd "B" "s2" 2] (newRoom "R").

(** One connection joins room R as A, then kicks A. *)
Definition self_kick : list event :=
  [EvJoin "s1" "R" "A" 1; EvKick "s1" "A"].

(** ** Vocabulary of the further properties *)

(** The members of the roster that carry [isHost]. *)
Definition hosts (r : Room) : list nat :=
  List.filter (holds (heap r) isHost) (participants r).

(** The object behind [i] has this name, socket id and online flag. *)
Definition member_is (r : Room) (i : nat) (u s : string) (on : bool) : Prop :=
  i ∈ participants r
  ∧ ∃ p, heap r !! i = Some p ∧ name p = u ∧ socketId p = s ∧ online p = on.

(** The calls of the round lifecycle. *)
Definition round_op (o : op) : Prop :=
  match o with
  | OpStart | OpSubmit _ _ | OpReveal _ | OpBack => True
  | _ => False
  end.

(** What holds of the round data of every room the methods can produce. *)
Record round_inv (r : Room) : Prop := mkRoundInv {
  rinv_lobby : phase r = lobby →
    frozenOrder r = [] ∧ submissions r = ∅ ∧ submissionKeys r = [];
  rinv_range : ∀ k v, submissions r !! k = Some v →
    passes_range_check v (length (frozenOrder r));
  rinv_keys : NoDup (submissionKeys r)
    ∧ ∀ k, k ∈ submissionKeys r ↔ is_Some (submissions r !! k);
  rinv_revealed : phase r = revealed →
    (∀ u, u ∈ frozenNames r → has_property r u = true)
    ∧ ∃ res w, result r = Some res ∧ winner r = Some w
               ∧ w ∈ frozenNames r
               ∧ res_submissions res = submissions r
               ∧ participantCount res = length (frozenOrder r)
               ∧ total res = sum_values (Object_values r)
               ∧ index res = js_rem (ToNumber (total res))
                                    (num_of_nat (length (frozenOrder r)))
               ∧ actualWinnerIndex res
                 = winnerIndex_of (index res) (length (frozenOrder r))
               ∧ ∃ i p, js_index (frozenOrder r) (actualWinnerIndex res) = Some i
                        ∧ heap r !! i = Some p ∧ w = name p
}.

(** The connection an event comes from. *)
Definition sender (e : event) : string :=
  match e with
  | EvJoin sid _ _ _ | EvStart sid | EvSubmit sid _ | EvReveal sid
  | EvForceReveal sid | EvBack sid | EvKick sid _ | EvLeave sid
  | EvDisconnect sid => sid
  end.

(** The room an event is about: the one named in a join, otherwise the
    sender's current room. *)
Definition target_room (e : event) (s : Server) : option string :=
  match e with
  | EvJoin _ rn _ _ => Some rn
  | _ => currentRoom (session_of s (sender e))
  end.

(** The events reserved to the host. *)
Definition host_only (e : event) : Prop :=
  match e with
  | EvStart _ | EvReveal _ | EvForceReveal _ | EvBack _ | EvKick _ _ => True
  | _ => False
  end.


(** Reading [rooms[rn]] finds no room but an inherited value. *)
Definition inherited_room (s : Server) (rn : string) : Prop :=
  rooms s !! rn = None ∧ rn ∈ Object_prototype.

(** No room is registered under a name that [rooms] inherits, and no
    connection has such a name for current room. *)
Definition plain_server (s : Server) : Prop :=
  (∀ k, is_Some (rooms s !! k) → k ∉ Object_prototype)
  ∧ (∀ sid ses k, sessions s !! sid = Some ses → currentRoom ses = Some k →
       k ∉ Object_prototype).

(** The events at which a handler throws: a join that reads an inherited
    value for a room, and a reveal by the host in which [reveal] throws. *)
Definition crashes (e : event) (s : Server) : Prop :=
  match e with
  | EvJoin _ rn un _ => rn ≠ ""%string ∧ un ≠ ""%string ∧ inherited_room s rn
  | EvReveal sid =>
      ∃ cr cu room r', resolve s sid = Some (cr, cu, room)
                       ∧ callerIsHost room cu = true
                       ∧ reveal false room = Throw r'
  | EvForceReveal sid =>
      ∃ cr cu room r', resolve s sid = Some (cr, cu, room)
                       ∧ callerIsHost room cu = true
                       ∧ reveal true room = Throw r'
  | _ => False
  end.

(** The same objects but for their [isHost] flags. *)
Definition same_but_isHost (h h' : list Participant) : Prop :=
  length h' = length h
  ∧ ∀ j p, h !! j = Some p →
      ∃ p', h' !! j = Some p' ∧ name p' = name p ∧ socketId p' = socketId p
            ∧ online p' = online p ∧ joinTime p' = joinTime p.


(** Two connections: s1 made room R as A, s2 joined it as B. *)
Definition server_ab : Server :=
  serve [EvJoin "s1" "R" "A" 1; EvJoin "s2" "R" "B" 2] initServer.



(** * Properties *)

(** ** Numbers *)

Section Numbers.
Local Open Scope Q_scope.

Lemma Qint_spec (q : Q) (z : Z) : Qint q = Some z ↔ q == inject_Z z.
Proof.
  destruct q as [a b]. unfold Qint, Qeq, inject_Z. cbn [Qnum Qden].
  split.
  - destruct (Z.eqb_spec (a mod Z.pos b) 0) as [Hm|]; [|done].
    intros [= <-].
    pose proof (Z.div_mod a (Z.pos b)) as Hd. lia.
  - intros Hz. rewrite Z.mul_1_r in Hz. subst a.
    rewrite Z.mod_mul by lia. rewrite Z.eqb_refl.
    rewrite Z.div_mul by lia. done.
Qed.

Lemma js_index_Some {A} (arr : list A) (x : jsnum) (a : A) :
  js_index arr x = Some a ↔
  ∃ (q : Q) (j : nat), x = Num q ∧ q == inject_Z (Z.of_nat j) ∧ arr !! j = Some a.
Proof.
  split.
  - destruct x as [q| |?]; [|done..]. cbn.
    destruct (Qint q) as [z|] eqn:Hz; [|done].
    destruct (Z.leb_spec 0 z); [|done]. intros Ha.
    exists q, (Z.to_nat z). split; [done|]. split; [|done].
    rewrite Z2Nat.id by done. by apply Qint_spec.
  - intros (q & j & -> & Hq & Ha). cbn.
    apply Qint_spec in Hq. rewrite Hq.
    destruct (Z.leb_spec 0 (Z.of_nat j)); [|lia].
    by rewrite Nat2Z.id.
Qed.

(** An integer result is not rounded. *)
Lemma js_round_int (q : Q) (z : Z) : q == inject_Z z → js_round q = inject_Z z.
Proof. intros H. unfold js_round. apply Qint_spec in H. by rewrite H. Qed.

Lemma Qtrunc_comp (p q : Q) : p == q → Qtrunc p = Qtrunc q.
Proof.
  intros H. unfold Qtrunc.
  assert (Qle_bool 0 p = Qle_bool 0 q) as ->.
  { apply eq_true_iff_eq. rewrite !Qle_bool_iff. by rewrite H. }
  destruct (Qle_bool 0 q); [by apply Qfloor_comp | by apply Qceiling_comp].
Qed.

(** Rounding towards zero moves a number by less than one. *)
Lemma Qtrunc_bound (q : Q) :
  -1 < q - inject_Z (Qtrunc q) ∧ q - inject_Z (Qtrunc q) < 1.
Proof.
  unfold Qtrunc. destruct (Qle_bool 0 q).
  - pose proof (Qfloor_le q) as H1. pose proof (Qlt_floor q) as H2.
    rewrite inject_Z_plus in H2. change (inject_Z 1) with 1 in H2.
    split; lra.
  - pose proof (Qle_ceiling q) as H1. pose proof (Qceiling_lt q) as H2.
    replace (Qceiling q - 1)%Z with (Qceiling q + -1)%Z in H2 by ring.
    rewrite inject_Z_plus in H2. change (inject_Z (-1)) with (-1) in H2.
    split; lra.
Qed.

(** On a non-negative integer quotient, rounding towards zero is
    integer division. *)
Lemma Qtrunc_div (t n : Z) :
  (0 ≤ t)%Z → (0 < n)%Z → Qtrunc (inject_Z t / inject_Z n) = (t / n)%Z.
Proof.
  intros Ht Hn.
  assert (inject_Z t / inject_Z n == t # Z.to_pos n) as Hq.
  { unfold Qdiv, Qinv, Qmult, Qeq, inject_Z. cbn [Qnum Qden].
    destruct n as [|n|n]; try lia. cbn. lia. }
  rewrite (Qtrunc_comp _ _ Hq). unfold Qtrunc.
  assert (Qle_bool 0 (t # Z.to_pos n) = true) as ->.
  { apply Qle_bool_iff. unfold Qle. cbn. lia. }
  unfold Qfloor. by rewrite Z2Pos.id.
Qed.
End Numbers.

(** ** The remainder and the winner index *)

Section WinnerIndex.
Local Open Scope Q_scope.

Lemma num_of_nat_nonzero (n : nat) :
  (0 < n)%nat → Qeq_bool (inject_Z (Z.of_nat n)) 0 = false.
Proof.
  intros Hn. apply not_true_is_false. rewrite Qeq_bool_iff.
  unfold Qeq, inject_Z. cbn. lia.
Qed.

(** The remainder of a non-negative integer is [Z.modulo]. *)
Lemma js_rem_int (a : Q) (t : Z) (n : nat) :
  a == inject_Z t → (0 ≤ t)%Z → (0 < n)%nat →
  ∃ r, js_rem (Num a) (num_of_nat n) = Num r
       ∧ r == inject_Z (t mod Z.of_nat n).
Proof.
  intros Ha Ht Hn. unfold js_rem, num_of_nat.
  rewrite num_of_nat_nonzero by done.
  eexists. split; [reflexivity|].
  assert (a / inject_Z (Z.of_nat n) == inject_Z t / inject_Z (Z.of_nat n)) as Hq
    by (by rewrite Ha).
  rewrite (Qtrunc_comp _ _ Hq), Qtrunc_div by lia.
  rewrite Ha, <- inject_Z_mult, Z.mod_eq by lia.
  unfold Z.sub. rewrite inject_Z_plus, inject_Z_opp. reflexivity.
Qed.

(** The winner index computed from an integer remainder. *)
Lemma winnerIndex_of_int (r : Q) (z : Z) (n : nat) :
  r == inject_Z z →
  winnerIndex_of (Num r) n
  = Num (inject_Z (if (z =? 0)%Z then Z.of_nat n - 1 else z - 1)%Z).
Proof.
  intros Hr. unfold winnerIndex_of, js_seq, js_sub, num_of_nat.
  change (inject_Z (Z.of_nat 0)) with 0. change (inject_Z (Z.of_nat 1)) with 1.
  assert (Qeq_bool r 0 = (z =? 0)%Z) as ->.
  { apply eq_true_iff_eq. rewrite Qeq_bool_iff, Z.eqb_eq, Hr.
    change 0 with (inject_Z 0). split; [apply inject_Z_injective|by intros ->]. }
  destruct (z =? 0)%Z; f_equal; apply js_round_int.
  - unfold Z.sub. rewrite inject_Z_plus. reflexivity.
  - rewrite Hr. unfold Z.sub. rewrite inject_Z_plus. reflexivity.
Qed.
End WinnerIndex.

(** ** Reveal: the result of a successful call *)

Section RevealResult.
Local Open Scope Q_scope.

(** A reveal that returns true ran in phase [input] and read an element
    of [frozenOrder]: the winner index is a natural number below
    [|frozenOrder|].  [result] holds the total of the summing loop, [n],
    the remainder, the winner index and a copy of the submissions, the
    winner is the name read, the phase is [revealed] and nothing else
    changed. *)
Lemma reveal_success_result (force : bool) (r r' : Room) :
  reveal force r = Return true r' →
  let n := length (frozenOrder r) in
  let r1 := revealed_submissions force r in
  let total := sum_values (Object_values r1) in
  let rm := js_rem (ToNumber total) (num_of_nat n) in
  ∃ (wq : Q) (w i : nat) (p : Participant),
    winnerIndex_of rm n = Num wq
    ∧ wq == inject_Z (Z.of_nat w)
    ∧ (w < n)%nat
    ∧ frozenOrder r !! w = Some i
    ∧ heap r !! i = Some p
    ∧ r' = mkRoom (roomName r) (heap r) (participants r) revealed
                  (submissions r1) (submissionKeys r1) (frozenOrder r)
                  (Some (mkResult total n rm (Num wq) (submissions r1)))
                  (Some (name p))
    ∧ phase r = input.
Proof.
  unfold reveal.
  case_bool_decide as Hph; [|done]. cbn [negb].
  destruct (negb force && negb (canReveal r)); [done|].
  cbv zeta.
  destruct (js_index _ _) as [i|] eqn:Hi; [|done].
  cbn [mbind option_bind].
  destruct (heap r !! i) as [p|] eqn:Hp; [|done].
  intros [= <-].
  apply js_index_Some in Hi as (wq & w & Hwi & Hwq & Hlk).
  exists wq, w, i, p. rewrite Hwi.
  split_and!; try done. by apply lookup_lt_Some in Hlk.
Qed.
End RevealResult.

(** ** Starting a round *)

Section StartRound.

(** C4. [startRound] returns false, leaving the room as it was, exactly
    when the phase is not [lobby] or the roster (online or not) has
    fewer than two members; otherwise it returns true, the phase is
    [input], [submissions], [result] and [winner] are cleared and
    [frozenOrder] holds the references of the whole roster. *)
Theorem startRound_spec (r : Room) :
  ((startRound r).2 = false ↔ phase r ≠ lobby ∨ length (participants r) < 2)
  ∧ ((startRound r).2 = false → (startRound r).1 = r)
  ∧ ((startRound r).2 = true →
       (startRound r).1
       = mkRoom (roomName r) (heap r) (participants r) input ∅ []
                (participants r) None None
       ∧ frozenNames (startRound r).1 = rosterNames r).
Proof.
  unfold startRound.
  case_bool_decide as Hph; cbn [negb orb].
  - destruct (Nat.ltb_spec (length (participants r)) 2); cbn [fst snd].
    + split_and!; [|done|done]. split; [by right|done].
    + split_and!; [|done|done]. split; [done|]. intros [|]; [done|lia].
  - split_and!; [|done|done]. split; [by left|done].
Qed.

Lemma startRound_spec_witness :
  (startRound lobby2).2 = true
  ∧ phase (startRound lobby2).1 = input
  ∧ (startRound room2).2 = false
  ∧ (startRound room2).1 = room2.
Proof.
  destruct (startRound_spec lobby2) as (_ & _ & Hok).
  destruct (startRound_spec room2) as (_ & Hfail & _).
  assert ((startRound lobby2).2 = true) as H1 by reflexivity.
  assert ((startRound room2).2 = false) as H2 by reflexivity.
  split; [exact H1|]. split; [|split; [exact H2 | exact (Hfail H2)]].
  destruct (Hok H1) as [-> _]. reflexivity.
Defined.
End StartRound.

(** ** Submitting a number *)

Section SubmitNumber.
Local Open Scope Q_scope.

Lemma holds_name_eqb (h : list Participant) (u : string) (i : nat) :
  holds h (λ p, String.eqb (name p) u) i = true ↔ name <$> h !! i = Some u.
Proof.
  unfold holds. destruct (h !! i) as [p|]; cbn; [|done].
  rewrite String.eqb_eq. split; [by intros -> | by intros [= ->]].
Qed.

Lemma find_ref_name_Some h u arr i :
  find_ref h (λ p, String.eqb (name p) u) arr = Some i →
  i ∈ arr ∧ name <$> h !! i = Some u.
Proof.
  unfold find_ref. intros [Hin Hh]%find_some.
  split; [by apply list_elem_of_In | by apply holds_name_eqb].
Qed.

Lemma find_ref_name_None h u arr :
  find_ref h (λ p, String.eqb (name p) u) arr = None ↔ u ∉ names_of h arr.
Proof.
  unfold find_ref, names_of. split.
  - intros Hnone (i & Hi & Hu)%list_elem_of_omap.
    apply list_elem_of_In in Hi.
    pose proof (find_none _ _ Hnone _ Hi) as Hf.
    apply holds_name_eqb in Hu. congruence.
  - intros Hnot. destruct (find _ _) as [i|] eqn:Hf; [|done].
    exfalso. apply Hnot. apply find_ref_name_Some in Hf as [Hi Hu].
    apply list_elem_of_omap. eauto.
Qed.

Lemma find_ref_name_is_Some h u arr :
  is_Some (find_ref h (λ p, String.eqb (name p) u) arr) ↔ u ∈ names_of h arr.
Proof.
  rewrite <- not_eq_None_Some, find_ref_name_None.
  split; [apply dec_stable | by intros ? ?].
Qed.

(** On integers the two comparisons are the test [1 ≤ z ≤ n]. *)
Lemma range_check_int (z : Z) (n : nat) :
  passes_range_check (num_of_Z z) n ↔ (1 ≤ z ≤ Z.of_nat n)%Z.
Proof.
  unfold passes_range_check, js_gt, js_lt, num_of_Z, num_of_nat. cbn [ToNumber].
  rewrite !negb_false_iff, !Qle_bool_iff, <- !Zle_Qle. done.
Qed.

Lemma range_check_Qeq (q q' : Q) (n : nat) :
  q == q' → passes_range_check (Num q) n ↔ passes_range_check (Num q') n.
Proof.
  intros E. unfold passes_range_check, js_gt, js_lt, num_of_nat. cbn [ToNumber].
  rewrite !negb_false_iff, !Qle_bool_iff. by rewrite E.
Qed.

(** The own properties after an assignment. *)
Lemma assign_submissions (u : string) (x : jsval) (r : Room) :
  submissions (assign u x r)
  = if String.eqb u "__proto__" then submissions r
    else <[u := x]> (submissions r).
Proof. unfold assign. by destruct (String.eqb u "__proto__"). Qed.

(** An assignment touches nothing but [submissions] and its keys. *)
Lemma assign_frame (u : string) (x : jsval) (r : Room) :
  roomName (assign u x r) = roomName r
  ∧ heap (assign u x r) = heap r
  ∧ participants (assign u x r) = participants r
  ∧ phase (assign u x r) = phase r
  ∧ frozenOrder (assign u x r) = frozenOrder r
  ∧ result (assign u x r) = result r
  ∧ winner (assign u x r) = winner r.
Proof. unfold assign. by destruct (String.eqb u "__proto__"). Qed.

(** What [submitNumber] does, for every room, name and value: it accepts
    exactly in phase [input], for the name of a frozen member, when
    neither [number < 1] nor [number > n] holds; on acceptance only the
    assignment [submissions[name] = number] is made, on rejection nothing
    changes. *)
Lemma submitNumber_spec (u : string) (x : jsval) (r : Room) :
  ((submitNumber u x r).2 = true ↔
     phase r = input ∧ u ∈ frozenNames r
     ∧ passes_range_check x (length (frozenOrder r)))
  ∧ ((submitNumber u x r).2 = true → (submitNumber u x r).1 = assign u x r)
  ∧ ((submitNumber u x r).2 = false → (submitNumber u x r).1 = r).
Proof.
  unfold submitNumber, frozenNames, passes_range_check.
  case_bool_decide as Hph; cbn [negb].
  2:{ split_and!; [|done|done]. split; [done|]. by intros [? _]. }
  destruct (find_ref _ _ _) as [i|] eqn:Hf.
  2:{ apply find_ref_name_None in Hf.
      split_and!; [|done|done]. split; [done|]. by intros (_ & ? & _). }
  assert (u ∈ names_of (heap r) (frozenOrder r)) as Hin.
  { apply find_ref_name_is_Some. by rewrite Hf. }
  destruct (js_lt (ToNumber x) (num_of_nat 1)) eqn:H1; cbn [orb].
  { split_and!; [|done|done]. split; [done|]. by intros (_ & _ & ? & _). }
  destruct (js_gt (ToNumber x) _) eqn:H2; cbn [fst snd].
  { split_and!; [|done|done]. split; [done|]. by intros (_ & _ & _ & ?). }
  split_and!; done.
Qed.

(** When the number is an integer [z], the acceptance test is the one
    the claim describes. *)
Lemma submitNumber_integer (u : string) (q : Q) (z : Z) (r : Room) :
  q == inject_Z z →
  (submitNumber u (Num q) r).2 = true ↔
  phase r = input ∧ u ∈ frozenNames r
  ∧ (1 ≤ z ≤ Z.of_nat (length (frozenOrder r)))%Z.
Proof.
  intros Hq. destruct (submitNumber_spec u (Num q) r) as (-> & _ & _).
  by rewrite (range_check_Qeq _ _ _ Hq), <- range_check_int.
Qed.

(** C2, at the failing input: in a round of two, the number 1.5 is not
    an integer, yet [submitNumber] returns true and stores it. *)
Theorem submitNumber_accepts_non_integer :
  non_integer (Num (3 # 2))
  ∧ phase room2 = input
  ∧ "A"%string ∈ frozenNames room2
  ∧ (submitNumber "A" (Num (3 # 2)) room2).2 = true
  ∧ submissions (submitNumber "A" (Num (3 # 2)) room2).1 !! "A"%string
    = Some (VNum (Num (3 # 2))).
Proof.
  split_and!; try (vm_compute; reflexivity).
  - exists (3 # 2). split; [done|]. intros z Hz.
    apply Qint_spec in Hz. vm_compute in Hz. done.
  - vm_compute. apply list_elem_of_here.
Qed.
End SubmitNumber.

(** ** The object store under updates *)

Section Heap.
Implicit Types (h : list Participant) (arr : list nat).

Lemma heap_ext_refl h : heap_ext h h.
Proof. intros i p Hp. eauto. Qed.

Lemma heap_ext_trans h1 h2 h3 : heap_ext h1 h2 → heap_ext h2 h3 → heap_ext h1 h3.
Proof.
  intros H12 H23 i p Hp.
  destruct (H12 _ _ Hp) as (p2 & Hp2 & Hn2 & Ht2).
  destruct (H23 _ _ Hp2) as (p3 & Hp3 & Hn3 & Ht3).
  exists p3. split_and!; [done|congruence|congruence].
Qed.

Lemma heap_ext_alter h (f : Participant → Participant) k :
  (∀ p, name (f p) = name p ∧ joinTime (f p) = joinTime p) →
  heap_ext h (alter f k h).
Proof.
  intros Hf i p Hp. destruct (decide (k = i)) as [->|Hne].
  - exists (f p). rewrite list_lookup_alter_eq, Hp. cbn.
    destruct (Hf p). done.
  - exists p. by rewrite list_lookup_alter_ne.
Qed.

Lemma heap_ext_app h l : heap_ext h (h ++ l).
Proof.
  intros i p Hp. exists p. split; [|done].
  rewrite lookup_app_l; [done|]. by eapply lookup_lt_Some.
Qed.

Lemma heap_ext_foldl_alter (f : Participant → Participant) arr h :
  (∀ p, name (f p) = name p ∧ joinTime (f p) = joinTime p) →
  heap_ext h (foldl (λ h i, alter f i h) h arr).
Proof.
  intros Hf. revert h. induction arr as [|k arr IH]; intros h; cbn.
  - apply heap_ext_refl.
  - eapply heap_ext_trans; [by apply heap_ext_alter | apply IH].
Qed.

Lemma heap_ext_length h h' : heap_ext h h' → length h ≤ length h'.
Proof.
  intros He. destruct (decide (length h = 0)) as [|Hne]; [lia|].
  destruct (lookup_lt_is_Some_2 h (length h - 1)) as [p Hp]; [lia|].
  destruct (He _ _ Hp) as (p' & Hp' & _).
  apply lookup_lt_Some in Hp'. lia.
Qed.

Lemma wf_refs_ext h h' arr : heap_ext h h' → wf_refs h arr → wf_refs h' arr.
Proof.
  intros He Hwf i Hi. specialize (Hwf i Hi).
  apply heap_ext_length in He. lia.
Qed.

Lemma heap_ext_name h h' i :
  heap_ext h h' → i < length h → name <$> h' !! i = name <$> h !! i.
Proof.
  intros He Hi. destruct (lookup_lt_is_Some_2 h i Hi) as [p Hp].
  destruct (He _ _ Hp) as (p' & Hp' & Hn & _).
  rewrite Hp, Hp'. cbn. by rewrite Hn.
Qed.

Lemma omap_ext_in {A B} (f g : A → option B) (l : list A) :
  (∀ x, x ∈ l → f x = g x) → omap f l = omap g l.
Proof.
  induction l as [|x l IH]; intros H; cbn; [done|].
  rewrite (H x) by apply list_elem_of_here.
  rewrite IH; [done|]. intros y Hy. apply H. by apply list_elem_of_further.
Qed.

(** Names seen through valid references survive store updates. *)
Lemma names_of_ext h h' arr :
  heap_ext h h' → wf_refs h arr → names_of h' arr = names_of h arr.
Proof.
  intros He Hwf. unfold names_of. apply omap_ext_in.
  intros i Hi. apply heap_ext_name; [done | by apply Hwf].
Qed.

Lemma names_of_length h arr : wf_refs h arr → length (names_of h arr) = length arr.
Proof.
  unfold names_of. induction arr as [|i arr IH]; intros Hwf; cbn; [done|].
  destruct (lookup_lt_is_Some_2 h i) as [p Hp].
  { apply Hwf, list_elem_of_here. }
  rewrite Hp. cbn. rewrite IH; [done|].
  intros j Hj. apply Hwf. by apply list_elem_of_further.
Qed.

Lemma names_of_sublist h arr arr' :
  sublist arr' arr → sublist (names_of h arr') (names_of h arr).
Proof.
  unfold names_of. induction 1 as [|i l1 l2 _ IH|i l1 l2 _ IH]; cbn.
  - constructor.
  - destruct (name <$> h !! i); [by constructor | done].
  - destruct (name <$> h !! i); [by constructor | done].
Qed.

Lemma names_of_perm h arr arr' :
  arr ≡ₚ arr' → names_of h arr ≡ₚ names_of h arr'.
Proof. intros Hp. unfold names_of. by apply omap_Permutation. Qed.

Lemma wf_refs_perm h arr arr' : arr ≡ₚ arr' → wf_refs h arr → wf_refs h arr'.
Proof. intros Hp Hwf i Hi. apply Hwf. by rewrite Hp. Qed.

Lemma wf_refs_sublist h arr arr' : sublist arr' arr → wf_refs h arr → wf_refs h arr'.
Proof. intros Hs Hwf i Hi. apply Hwf. by eapply elem_of_sublist. Qed.

End Heap.

(** ** Roster calls leave the round alone *)

Section RosterFrame.

Lemma set_isHost_id b p :
  name (set_isHost b p) = name p ∧ joinTime (set_isHost b p) = joinTime p.
Proof. done. Qed.

Lemma set_online_id b p :
  name (set_online b p) = name p ∧ joinTime (set_online b p) = joinTime p.
Proof. done. Qed.

Lemma insert_by_perm {A} (key : A → Z) x l : insert_by key x l ≡ₚ x :: l.
Proof.
  induction l as [|y l IH]; cbn; [done|].
  destruct (key x <=? key y)%Z; [done|].
  rewrite IH. apply Permutation_swap.
Qed.

Lemma sort_by_perm {A} (key : A → Z) l : sort_by key l ≡ₚ l.
Proof.
  unfold sort_by. induction l as [|x l IH]; cbn; [done|].
  by rewrite insert_by_perm, IH.
Qed.

Lemma same_round_refl r : same_round r r.
Proof. unfold same_round. split_and!; try done. apply heap_ext_refl. Qed.

Lemma same_round_trans r1 r2 r3 :
  same_round r1 r2 → same_round r2 r3 → same_round r1 r3.
Proof.
  unfold same_round.
  intros (?&?&?&?&?&?&?&?) (?&?&?&?&?&?&?&?).
  split_and!; try congruence. by eapply heap_ext_trans.
Qed.

Lemma same_round_with_heap r h :
  heap_ext (heap r) h → same_round r (with_heap h r).
Proof. intros He. unfold same_round. by split_and!. Qed.

Lemma same_round_with_participants r ps : same_round r (with_participants ps r).
Proof. unfold same_round. split_and!; try done. apply heap_ext_refl. Qed.

Lemma check_same_round r : same_round r (checkAndTransferHost r).
Proof.
  unfold checkAndTransferHost.
  set (h1 := foldl _ _ _).
  assert (heap_ext (heap r) h1) as H1
    by apply heap_ext_foldl_alter, set_isHost_id.
  assert (∀ i, heap_ext (heap r) (alter (set_isHost true) i h1)) as H2.
  { intros i. eapply heap_ext_trans; [exact H1|].
    apply heap_ext_alter, set_isHost_id. }
  destruct (match find_ref _ _ _ with Some _ => _ | None => _ end).
  { apply same_round_refl. }
  destruct (0 <? length (List.filter _ _)).
  { destruct (sort_by _ _); by apply same_round_with_heap. }
  destruct (0 <? length (participants r)).
  - destruct (sort_by _ _) eqn:Hs.
    + eapply same_round_trans; [by apply same_round_with_heap, H1|].
      apply same_round_with_participants.
    + eapply same_round_trans; [by apply same_round_with_heap, H2|].
      apply same_round_with_participants.
  - by apply same_round_with_heap.
Qed.

Lemma check_participants_perm r :
  participants (checkAndTransferHost r) ≡ₚ participants r.
Proof.
  unfold checkAndTransferHost.
  set (h1 := foldl _ _ _).
  destruct (match find_ref _ _ _ with Some _ => _ | None => _ end); [done|].
  destruct (0 <? length (List.filter _ _)).
  { by destruct (sort_by _ _). }
  destruct (0 <? length (participants r)); [|done].
  destruct (sort_by _ (participants r)) eqn:Hs; cbn.
  - by rewrite <- Hs, sort_by_perm.
  - by rewrite <- Hs, sort_by_perm.
Qed.

Lemma add_same_round u s t r : same_round r (addParticipant u s t r).1.
Proof.
  unfold addParticipant. destruct (find_ref _ _ _); cbn [fst].
  - apply same_round_with_heap, heap_ext_alter. done.
  - eapply same_round_trans; [apply same_round_with_heap, heap_ext_app|].
    apply same_round_with_participants.
Qed.

Lemma remove_same_round s r : same_round r (removeParticipant s r).
Proof.
  unfold removeParticipant. destruct (find_ref _ _ _).
  - eapply same_round_trans; [|apply check_same_round].
    apply same_round_with_heap, heap_ext_alter, set_online_id.
  - apply same_round_refl.
Qed.

Lemma kick_same_round u r : same_round r (kickParticipant u r).1.
Proof.
  unfold kickParticipant. destruct (findIndex _ _ _); cbn [fst].
  - eapply same_round_trans; [|apply check_same_round].
    apply same_round_with_participants.
  - apply same_round_refl.
Qed.

(** The frozen names read the same after a roster call. *)
Lemma same_round_frozenNames r r' :
  wf_refs (heap r) (frozenOrder r) → same_round r r' →
  frozenNames r' = frozenNames r.
Proof.
  intros Hwf (_&_&_&_&Hfo&_&_&He). unfold frozenNames. rewrite Hfo.
  by apply names_of_ext.
Qed.
End RosterFrame.

(** ** Forced reveal: filling in the missing submissions *)

Section FillMissing.
Implicit Types (h : list Participant) (arr : list nat) (r : Room).

Lemma proto_inherited : "__proto__"%string ∈ Object_prototype.
Proof. unfold Object_prototype. rewrite !elem_of_cons. tauto. Qed.

Lemma inherited_name (k : string) :
  bool_decide (k ∈ Object_prototype) = true → k ∈ Object_prototype.
Proof. apply bool_decide_eq_true_1. Qed.

Lemma plain_name (k : string) :
  bool_decide (k ∈ Object_prototype) = false → k ∉ Object_prototype.
Proof. apply bool_decide_eq_false_1. Qed.

(** Under a name that is not inherited, an assignment is an insertion. *)
Lemma assign_plain (u : string) (x : jsval) r :
  u ≠ "__proto__"%string →
  assign u x r
  = mkRoom (roomName r) (heap r) (participants r) (phase r)
           (<[u := x]> (submissions r))
           (if bool_decide (is_Some (submissions r !! u))
            then submissionKeys r else submissionKeys r ++ [u])
           (frozenOrder r) (result r) (winner r).
Proof. intros Hu. unfold assign. by destruct (String.eqb_spec u "__proto__"). Qed.

Lemma assign_proto (x : jsval) r : assign "__proto__" x r = r.
Proof. done. Qed.

(** What an assignment leaves under each key. *)
Lemma assign_lookup (u k : string) (x v : jsval) r :
  submissions (assign u x r) !! k = Some v →
  submissions r !! k = Some v ∨ (k = u ∧ v = x ∧ u ≠ "__proto__"%string).
Proof.
  rewrite assign_submissions. destruct (String.eqb_spec u "__proto__") as [->|Hu].
  { by left. }
  destruct (decide (u = k)) as [<-|Hne].
  - rewrite lookup_insert_eq. intros [= <-]. by right.
  - rewrite lookup_insert_ne by done. by left.
Qed.

Lemma assign_keeps (u k : string) (x : jsval) r :
  is_Some (submissions r !! k) → is_Some (submissions (assign u x r) !! k).
Proof.
  rewrite assign_submissions. destruct (String.eqb u "__proto__"); [done|].
  destruct (decide (u = k)) as [<-|Hne].
  - by rewrite lookup_insert_eq.
  - by rewrite lookup_insert_ne.
Qed.

Lemma has_property_own r k :
  is_Some (submissions r !! k) → has_property r k = true.
Proof. intros H. unfold has_property. by rewrite bool_decide_eq_true_2. Qed.

Lemma has_property_spec r k :
  has_property r k = true ↔ is_Some (submissions r !! k) ∨ k ∈ Object_prototype.
Proof.
  unfold has_property. rewrite orb_true_iff, !bool_decide_eq_true. done.
Qed.

Lemma fill_from_snoc h arr i r :
  fill_from h (arr ++ [i]) r
  = match h !! i with
    | Some p =>
        if has_property (fill_from h arr r) (name p) then fill_from h arr r
        else assign (name p) (num_of_nat 1) (fill_from h arr r)
    | None => fill_from h arr r
    end.
Proof. unfold fill_from. by rewrite foldl_app. Qed.

(** The loop touches nothing but [submissions] and its keys. *)
Lemma fill_from_frame h arr r :
  roomName (fill_from h arr r) = roomName r
  ∧ heap (fill_from h arr r) = heap r
  ∧ participants (fill_from h arr r) = participants r
  ∧ phase (fill_from h arr r) = phase r
  ∧ frozenOrder (fill_from h arr r) = frozenOrder r
  ∧ result (fill_from h arr r) = result r
  ∧ winner (fill_from h arr r) = winner r.
Proof.
  induction arr as [|i arr IH] using rev_ind; [done|].
  rewrite fill_from_snoc. destruct (h !! i) as [p|]; [|done].
  destruct (has_property _ _); [done|].
  destruct (assign_frame (name p) (num_of_nat 1) (fill_from h arr r))
    as (-> & -> & -> & -> & -> & -> & ->). done.
Qed.

(** An own property of the filled object was one before, with the same
    value, or belongs to a member whose name was no property: its value
    is 1. *)
Lemma fill_from_lookup h arr r k v :
  submissions (fill_from h arr r) !! k = Some v →
  submissions r !! k = Some v
  ∨ (has_property r k = false ∧ k ∈ names_of h arr ∧ v = VNum (num_of_nat 1)).
Proof.
  revert v. induction arr as [|i arr IH] using rev_ind; intros v.
  { cbn. by left. }
  rewrite fill_from_snoc. unfold names_of. rewrite omap_app.
  setoid_rewrite elem_of_app.
  destruct (h !! i) as [p|] eqn:Hp; cbn.
  2:{ intros Hv. destruct (IH _ Hv) as [|(?&?&?)]; [by left|]. right. auto. }
  destruct (has_property (fill_from h arr r) (name p)) eqn:Hw.
  { intros Hv. destruct (IH _ Hv) as [|(?&?&?)]; [by left|]. right. auto. }
  intros [Hv|(-> & -> & Hne)]%assign_lookup.
  { destruct (IH _ Hv) as [|(?&?&?)]; [by left|]. right. auto. }
  destruct (has_property r (name p)) eqn:Hr.
  - exfalso. apply has_property_spec in Hr as [[w Hr]|Hr].
    + assert (∀ arr', is_Some (submissions (fill_from h arr' r) !! name p)) as Hkeep.
      { induction arr' as [|j arr' IH'] using rev_ind; [by cbn; rewrite Hr|].
        rewrite fill_from_snoc. destruct (h !! j) as [pj|]; [|done].
        destruct (has_property (fill_from h arr' r) (name pj)); [done|].
        by apply assign_keeps. }
      rewrite (has_property_own _ _ (Hkeep arr)) in Hw. done.
    + assert (has_property (fill_from h arr r) (name p) = true); [|congruence].
      apply has_property_spec. by right.
  - right. split_and!; [done| |done]. right. rewrite Hp. cbn. apply list_elem_of_here.
Qed.

(** An own property stays, with its value. *)
Lemma fill_from_keeps h arr r k v :
  submissions r !! k = Some v → submissions (fill_from h arr r) !! k = Some v.
Proof.
  intros Hk. induction arr as [|i arr IH] using rev_ind; [done|].
  rewrite fill_from_snoc. destruct (h !! i) as [p|]; [|done].
  destruct (has_property _ (name p)) eqn:Hw; [done|].
  rewrite assign_submissions. destruct (String.eqb (name p) "__proto__"); [done|].
  rewrite lookup_insert_ne; [done|]. intros E.
  rewrite has_property_own in Hw; [done|]. rewrite E. by rewrite IH.
Qed.

(** Every frozen name is a property afterwards: an own one, unless the
    name is inherited. *)
Lemma fill_from_covers h arr r k :
  k ∈ names_of h arr → has_property (fill_from h arr r) k = true.
Proof.
  induction arr as [|i arr IH] using rev_ind.
  { unfold names_of. cbn. by intros ?%elem_of_nil. }
  unfold names_of. rewrite omap_app, elem_of_app, fill_from_snoc.
  fold (names_of h arr).
  assert (∀ r0 u, has_property r0 k = true →
            has_property (assign u (num_of_nat 1) r0) k = true) as Hmono.
  { intros r0 u [Hm|Hm]%has_property_spec; apply has_property_spec;
      [left; by apply assign_keeps | by right]. }
  intros [Hin|Hin].
  { destruct (h !! i) as [p|]; [|by apply IH].
    destruct (has_property _ (name p)); [by apply IH|]. by apply Hmono, IH. }
  cbn in Hin. destruct (h !! i) as [p|] eqn:Hp; cbn in Hin;
    [|by apply elem_of_nil in Hin].
  apply list_elem_of_singleton in Hin as ->.
  destruct (has_property _ (name p)) eqn:Hw; [done|].
  apply has_property_spec. left.
  rewrite assign_submissions.
  destruct (String.eqb_spec (name p) "__proto__") as [E|_].
  - exfalso. assert (has_property (fill_from h arr r) (name p) = true); [|congruence].
    apply has_property_spec. right. rewrite E. apply proto_inherited.
  - by rewrite lookup_insert_eq.
Qed.

(** The keys stay without repetition and in step with the own
    properties. *)
Lemma assign_keys (u : string) (x : jsval) r :
  (NoDup (submissionKeys r)
   ∧ ∀ k, k ∈ submissionKeys r ↔ is_Some (submissions r !! k)) →
  NoDup (submissionKeys (assign u x r))
  ∧ ∀ k, k ∈ submissionKeys (assign u x r)
         ↔ is_Some (submissions (assign u x r) !! k).
Proof.
  intros [Hnd Hk]. unfold assign.
  destruct (String.eqb u "__proto__"); [done|]. cbn.
  case_bool_decide as Hown.
  - split; [done|]. intros k. rewrite Hk.
    destruct (decide (u = k)) as [<-|Hne].
    + rewrite lookup_insert_eq. split; [by eauto|done].
    + by rewrite lookup_insert_ne.
  - split.
    + apply NoDup_app. split_and!; [done| |apply NoDup_singleton].
      intros k Hin ->%list_elem_of_singleton. by apply Hown, Hk.
    + intros k. rewrite elem_of_app, list_elem_of_singleton, Hk.
      destruct (decide (u = k)) as [<-|Hne].
      * rewrite lookup_insert_eq. split; [by eauto|by right].
      * rewrite lookup_insert_ne by done. split; [|by left].
        by intros [?|?].
Qed.

Lemma fill_from_keys h arr r :
  (NoDup (submissionKeys r)
   ∧ ∀ k, k ∈ submissionKeys r ↔ is_Some (submissions r !! k)) →
  NoDup (submissionKeys (fill_from h arr r))
  ∧ ∀ k, k ∈ submissionKeys (fill_from h arr r)
         ↔ is_Some (submissions (fill_from h arr r) !! k).
Proof.
  intros H. induction arr as [|i arr IH] using rev_ind; [done|].
  rewrite fill_from_snoc. destruct (h !! i) as [p|]; [|done].
  destruct (has_property _ _); [done|]. by apply assign_keys.
Qed.

(** The room a reveal computes with differs from the room at most in
    [submissions] and its keys. *)
Lemma revealed_frame (f : bool) r :
  roomName (revealed_submissions f r) = roomName r
  ∧ heap (revealed_submissions f r) = heap r
  ∧ participants (revealed_submissions f r) = participants r
  ∧ phase (revealed_submissions f r) = phase r
  ∧ frozenOrder (revealed_submissions f r) = frozenOrder r
  ∧ result (revealed_submissions f r) = result r
  ∧ winner (revealed_submissions f r) = winner r.
Proof. destruct f; [apply fill_from_frame|done]. Qed.
End FillMissing.

(** ** Rooms the methods can produce *)

Section Invariant.

Lemma reveal_cases (f : bool) (r : Room) :
  reveal f r = Return false r
  ∨ (phase r = input ∧ reveal f r = Throw (revealed_submissions f r))
  ∨ (phase r = input
     ∧ ∃ res w,
         reveal f r
         = Return true
             (mkRoom (roomName r) (heap r) (participants r) revealed
                     (submissions (revealed_submissions f r))
                     (submissionKeys (revealed_submissions f r))
                     (frozenOrder r) (Some res) (Some w))).
Proof.
  unfold reveal.
  case_bool_decide as Hph; cbn [negb]; [|by left].
  destruct (negb f && negb (canReveal r)); [by left|].
  right. cbv zeta. destruct (_ ≫= _) as [p|]; [right | left]; eauto.
Qed.

Lemma revealed_submissions_dom (f : bool) (r : Room) (k : string) :
  (∀ k, is_Some (submissions r !! k) → k ∈ frozenNames r) →
  is_Some (submissions (revealed_submissions f r) !! k) → k ∈ frozenNames r.
Proof.
  intros Hdom [v Hv]. unfold revealed_submissions in Hv.
  destruct f; [|by apply Hdom].
  apply fill_from_lookup in Hv as [Hv|(_ & Hin & _)]; [|done].
  apply Hdom. by rewrite Hv.
Qed.

(** The invariant looks at [submissions] only through its own
    properties, and at nothing else a reveal's filling changes. *)
Lemma inv_revealed (f : bool) (r : Room) :
  room_inv r → room_inv (revealed_submissions f r).
Proof.
  intros [Hrw Hfw Hrn Hfn Hfs Hsd Hres].
  pose proof (revealed_submissions_dom f r) as Hdom.
  destruct (revealed_frame f r) as (Hn & Hh & Hp & Hph & Hfo & Hr & Hw).
  split; unfold rosterNames, frozenNames; rewrite ?Hh, ?Hp, ?Hph, ?Hfo, ?Hr, ?Hw;
    try done.
  intros k. by apply Hdom.
Qed.

(** [submitNumber] and [reveal] leave the roster, the participant objects
    and the room name alone. *)
Lemma submit_roster (u : string) (x : jsval) (r : Room) :
  heap (submitNumber u x r).1 = heap r
  ∧ participants (submitNumber u x r).1 = participants r
  ∧ roomName (submitNumber u x r).1 = roomName r.
Proof.
  destruct (submitNumber_spec u x r) as (_ & Hok & Hfail).
  destruct (submitNumber u x r).2; [|by rewrite Hfail].
  rewrite Hok by done.
  by destruct (assign_frame u x r) as (-> & -> & -> & _).
Qed.

Lemma reveal_roster (f : bool) (r : Room) :
  heap (final (reveal f r)) = heap r
  ∧ participants (final (reveal f r)) = participants r
  ∧ roomName (final (reveal f r)) = roomName r.
Proof.
  destruct (reveal_cases f r) as [->|[[_ ->]|(_ & res & w & ->)]]; cbn [final];
    [done| |done].
  by destruct (revealed_frame f r) as (-> & -> & -> & _).
Qed.

Lemma inv_new nm : room_inv (newRoom nm).
Proof.
  split; cbn; try done.
  - by intros i ?%elem_of_nil.
  - by intros i ?%elem_of_nil.
  - constructor.
  - constructor.
  - intros k. rewrite lookup_empty. by intros [? ?].
Qed.

(** A roster call keeps the invariant once its new roster is checked. *)
Lemma inv_same_round (r r' : Room) :
  room_inv r → same_round r r' →
  wf_refs (heap r') (participants r') → NoDup (rosterNames r') →
  room_inv r'.
Proof.
  intros [Hrw Hfw Hrn Hfn Hfs Hsd Hres] Hsame Hwf' Hnd'.
  pose proof (same_round_frozenNames _ _ Hfw Hsame) as Hnames.
  destruct Hsame as (_ & Hph & Hsub & _ & Hfo & Hr & Hw & He).
  split; try done.
  - rewrite Hfo. by eapply wf_refs_ext.
  - by rewrite Hnames.
  - by rewrite Hph, Hfo.
  - by rewrite Hsub, Hnames.
  - by rewrite Hph, Hr, Hw.
Qed.

(** ... in particular when the new roster is a rearranged part of the
    old one. *)
Lemma inv_roster_shrink (r r' : Room) (l : list nat) :
  room_inv r → same_round r r' →
  participants r' ≡ₚ l → sublist l (participants r) →
  room_inv r'.
Proof.
  intros Hinv Hsame Hperm Hsub.
  pose proof (inv_roster_wf _ Hinv) as Hrw.
  pose proof (inv_roster_nodup _ Hinv) as Hrn.
  assert (heap_ext (heap r) (heap r')) as He by apply Hsame.
  assert (wf_refs (heap r) (participants r')) as Hwf0.
  { eapply wf_refs_perm; [symmetry; exact Hperm|].
    by eapply wf_refs_sublist. }
  apply (inv_same_round r); [done|done|by eapply wf_refs_ext|].
  unfold rosterNames. rewrite (names_of_ext _ _ _ He Hwf0).
  rewrite (names_of_perm _ _ _ Hperm).
  eapply sublist_NoDup; [exact Hrn|]. by apply names_of_sublist.
Qed.

Lemma inv_add u s t r : room_inv r → room_inv (addParticipant u s t r).1.
Proof.
  intros Hinv. pose proof (add_same_round u s t r) as Hsame.
  revert Hsame. unfold addParticipant.
  destruct (find_ref _ _ _) as [i|] eqn:Hf; cbn [fst]; intros Hsame.
  - eapply (inv_roster_shrink r _ (participants r)); done.
  - apply find_ref_name_None in Hf.
    pose proof (inv_roster_wf _ Hinv) as Hrw.
    apply (inv_same_round r); [done|done|..]; cbn.
    + intros i [Hi| ->%list_elem_of_singleton]%elem_of_app.
      * rewrite length_app. specialize (Hrw i Hi). lia.
      * rewrite length_app. cbn. lia.
    + unfold rosterNames, names_of. cbn. rewrite omap_app.
      fold (names_of (heap r ++ [mkParticipant u s (length (participants r) =? 0) true t])
                     (participants r)).
      rewrite (names_of_ext (heap r)); [|apply heap_ext_app|done].
      cbn. rewrite lookup_app_r, Nat.sub_diag by lia. cbn.
      apply NoDup_app. split_and!.
      * apply Hinv.
      * intros x Hx ->%list_elem_of_singleton. done.
      * apply NoDup_singleton.
Qed.

Lemma inv_check r : room_inv r → room_inv (checkAndTransferHost r).
Proof.
  intros Hinv. eapply inv_roster_shrink;
    [done | apply check_same_round | apply check_participants_perm | done].
Qed.

Lemma inv_remove s r : room_inv r → room_inv (removeParticipant s r).
Proof.
  intros Hinv. eapply (inv_roster_shrink r _ (participants r));
    [done | apply remove_same_round | | done].
  unfold removeParticipant. destruct (find_ref _ _ _); [|done].
  apply (check_participants_perm (with_heap _ r)).
Qed.

Lemma inv_kick u r : room_inv r → room_inv (kickParticipant u r).1.
Proof.
  intros Hinv. pose proof (kick_same_round u r) as Hsame. revert Hsame.
  unfold kickParticipant. destruct (findIndex _ _ _) as [k|]; cbn [fst]; [|done].
  intros Hsame.
  eapply (inv_roster_shrink r _ (delete k (participants r)));
    [done | done | | apply sublist_delete].
  apply (check_participants_perm (with_participants _ r)).
Qed.

Lemma inv_start r : room_inv r → room_inv (startRound r).1.
Proof.
  intros Hinv. unfold startRound.
  case_bool_decide as Hph; cbn [negb orb]; [|done].
  destruct (Nat.ltb_spec (length (participants r)) 2); cbn [fst]; [done|].
  split; cbn; try apply Hinv; try done.
  intros k. rewrite lookup_empty. by intros [? ?].
Qed.

Lemma inv_submit u x r : room_inv r → room_inv (submitNumber u x r).1.
Proof.
  intros Hinv. destruct (submitNumber_spec u x r) as (Hiff & Hok & Hfail).
  destruct (submitNumber u x r).2 eqn:Hb.
  - rewrite Hok by done. destruct Hiff as [Hiff _].
    destruct (Hiff eq_refl) as (_ & Hin & _).
    destruct Hinv as [Hrw Hfw Hrn Hfn Hfs Hsd Hres].
    destruct (assign_frame u x r) as (Hn & Hh & Hp & Hph & Hfo & Hr & Hw).
    split; unfold rosterNames, frozenNames; rewrite ?Hh, ?Hp, ?Hph, ?Hfo, ?Hr, ?Hw;
      try done.
    intros k [v [Hv|(-> & _)]%assign_lookup]; [|done].
    apply Hsd. by rewrite Hv.
  - by rewrite Hfail.
Qed.

Lemma inv_reveal f r : room_inv r → room_inv (final (reveal f r)).
Proof.
  intros Hinv.
  destruct (reveal_cases f r) as [->|[[Hph ->]|(Hph & res & w & ->)]]; cbn [final].
  - done.
  - by apply inv_revealed.
  - split; cbn; try apply Hinv; try done.
    + intros _. apply (inv_frozen_size _ Hinv). by rewrite Hph.
    + intros k. apply revealed_submissions_dom, Hinv.
Qed.

Lemma inv_back r : room_inv r → room_inv (backToLobby r).1.
Proof.
  intros Hinv. split; cbn; try apply Hinv; try done.
  - by intros i ?%elem_of_nil.
  - constructor.
  - intros k. rewrite lookup_empty. by intros [? ?].
Qed.

Lemma inv_exec o r : room_inv r → room_inv (exec o r).
Proof.
  destruct o; cbn [exec].
  - apply inv_add.
  - apply inv_remove.
  - apply inv_kick.
  - apply inv_check.
  - apply inv_start.
  - apply inv_submit.
  - apply inv_reveal.
  - apply inv_back.
Qed.

Lemma reachable_inv r : reachable r → room_inv r.
Proof. induction 1; [apply inv_new | by apply inv_exec]. Qed.

Lemma reachable_run os r : reachable r → reachable (run os r).
Proof.
  revert r. induction os as [|o os IH]; intros r Hr; cbn; [done|].
  apply IH. by constructor.
Qed.
End Invariant.

(** ** The frozen roster under roster edits *)

Section FrozenOrder.

(** C9. In a room whose phase is not [lobby], [addParticipant],
    [removeParticipant] and [kickParticipant] leave [frozenOrder] as it
    is, reference by reference, and the names read through it are the
    same before and after. *)
Theorem roster_edits_keep_frozenOrder (r : Room) :
  reachable r → phase r ≠ lobby →
  ∀ (u s : string) (t : Z),
    (frozenOrder (addParticipant u s t r).1 = frozenOrder r
     ∧ frozenNames (addParticipant u s t r).1 = frozenNames r)
    ∧ (frozenOrder (removeParticipant s r) = frozenOrder r
       ∧ frozenNames (removeParticipant s r) = frozenNames r)
    ∧ (frozenOrder (kickParticipant u r).1 = frozenOrder r
       ∧ frozenNames (kickParticipant u r).1 = frozenNames r).
Proof.
  intros Hr _ u s t.
  pose proof (inv_frozen_wf _ (reachable_inv _ Hr)) as Hwf.
  split_and!.
  - apply add_same_round.
  - apply same_round_frozenNames, add_same_round; done.
  - apply remove_same_round.
  - apply same_round_frozenNames, remove_same_round; done.
  - apply kick_same_round.
  - apply same_round_frozenNames, kick_same_round; done.
Qed.

Lemma roster_edits_keep_frozenOrder_witness :
  frozenNames (addParticipant "C" "s3" 3 room2).1 = ["A"; "B"]%string
  ∧ frozenNames (removeParticipant "s1" room2) = ["A"; "B"]%string
  ∧ frozenNames (kickParticipant "A" room2).1 = ["A"; "B"]%string.
Proof.
  assert (reachable room2) as Hr by apply reachable_run, reach_new.
  assert (phase room2 ≠ lobby) as Hph by (vm_compute; discriminate).
  destruct (roster_edits_keep_frozenOrder room2 Hr Hph "C" "s3" 3)
    as ((_ & Ha) & _).
  destruct (roster_edits_keep_frozenOrder room2 Hr Hph "C" "s1" 3)
    as (_ & (_ & Hb) & _).
  destruct (roster_edits_keep_frozenOrder room2 Hr Hph "A" "s1" 3)
    as (_ & _ & (_ & Hc)).
  rewrite Ha, Hb, Hc. vm_compute. done.
Defined.

(** The objects behind [frozenOrder] are the roster's own: marking a
    player offline shows through the frozen reference. *)
Example frozen_members_are_shared :
  holds (heap room2) online <$> frozenOrder room2 = [true; true]
  ∧ holds (heap (removeParticipant "s2" room2)) online
      <$> frozenOrder (removeParticipant "s2" room2) = [true; false].
Proof. split; vm_compute; reflexivity. Qed.
End FrozenOrder.

(** ** Reveal: when it is allowed, and when it returns *)

Section RevealGuard.
Local Open Scope Q_scope.

(** In a room the methods produced, the count test of [canReveal] says
    that every frozen member has submitted. *)
Lemma canReveal_iff (r : Room) :
  room_inv r → canReveal r = true ↔ all_submitted r.
Proof.
  intros Hinv. unfold canReveal, all_submitted.
  pose proof (inv_frozen_nodup _ Hinv) as Hnd.
  pose proof (names_of_length _ _ (inv_frozen_wf _ Hinv)) as Hlen.
  fold (frozenNames r) in Hlen.
  assert (dom (submissions r) ⊆ (list_to_set (frozenNames r) : gset string)) as Hsub.
  { intros k Hk%elem_of_dom. apply elem_of_list_to_set. by apply Hinv. }
  assert (size (list_to_set (frozenNames r) : gset string)
          = length (frozenOrder r)) as Hsz.
  { by rewrite size_list_to_set, Hlen. }
  rewrite Nat.eqb_eq, <- size_dom, <- Hsz. split.
  - intros Heq u Hu. apply elem_of_dom.
    assert (dom (submissions r) ≡ list_to_set (frozenNames r)) as ->.
    { apply set_subseteq_size_equiv; [done|]. by rewrite Heq. }
    by apply elem_of_list_to_set.
  - intros Hall. f_equal. apply set_eq. intros k.
    split; [apply Hsub|].
    intros Hk%elem_of_list_to_set. by apply elem_of_dom, Hall.
Qed.

(** Every value the loop adds is an own property of [submissions]. *)
Lemma Object_values_elem (r : Room) (v : jsval) :
  v ∈ Object_values r → ∃ k, submissions r !! k = Some v.
Proof.
  unfold Object_values. intros (k & _ & Hk)%list_elem_of_omap. eauto.
Qed.

Lemma Zsum_foldl (zs : list Z) (a : Z) : foldl Z.add a zs = (a + Zsum zs)%Z.
Proof.
  revert a. induction zs as [|z zs IH]; intros a; unfold Zsum in *; cbn; [lia|].
  rewrite IH. lia.
Qed.

(** On integers the loop computes their sum, as an integer. *)
Lemma sum_values_integers (vs : list jsval) (zs : list Z) :
  Forall2 is_integer vs zs → sum_values vs = VNum (num_of_Z (Zsum zs)).
Proof.
  unfold sum_values. change (num_of_nat 0) with (num_of_Z 0).
  rewrite <- (Z.add_0_l (Zsum zs)), <- Zsum_foldl. generalize 0%Z.
  intros a H. revert a.
  induction H as [|v z vs zs (q & -> & Hq) _ IH]; intros a; [done|].
  cbn [foldl]. rewrite <- IH. f_equal.
  unfold js_plus, num_of_Z. cbn [ToNumber js_add]. do 2 f_equal.
  apply js_round_int. by rewrite inject_Z_plus, Hq.
Qed.

(** The sum of integer submissions is a non-negative integer. *)
Lemma sum_values_int (vs : list jsval) (hi : Z) :
  Forall (int_between 1 hi) vs →
  ∃ t : Z, sum_values vs = VNum (num_of_Z t) ∧ (0 ≤ t)%Z.
Proof.
  intros H.
  assert (∃ zs, Forall2 is_integer vs zs ∧ (0 ≤ Zsum zs)%Z) as (zs & Hzs & Hpos).
  { induction H as [|v vs (q & z & -> & Hq & Hz) _ (zs & IH & Hpos)].
    - by exists [].
    - exists (z :: zs). split; [|unfold Zsum in *; cbn; lia].
      constructor; [by exists q|done]. }
  exists (Zsum zs). split; [by apply sum_values_integers|done].
Qed.

(** The remainder and the winner index of a non-negative integer total:
    the index is [n - 1] when [n] divides the total and the remainder
    less one otherwise, and it is an index of the array. *)
Lemma winner_index_int {A} (arr : list A) (a : Q) (t : Z) :
  let n := length arr in
  let w := Z.to_nat (if (t mod Z.of_nat n =? 0)%Z
                     then Z.of_nat n - 1 else t mod Z.of_nat n - 1) in
  a == inject_Z t → (0 ≤ t)%Z → (0 < n)%nat →
  ∃ rm, js_rem (Num a) (num_of_nat n) = Num rm
        ∧ rm == inject_Z (t mod Z.of_nat n)
        ∧ winnerIndex_of (Num rm) n = num_of_nat w
        ∧ (w < n)%nat
        ∧ js_index arr (num_of_nat w) = arr !! w.
Proof.
  intros n w Ha Ht Hn.
  destruct (js_rem_int a t n Ha Ht Hn) as (rm & Hrem & Hrm).
  pose proof (Z.mod_pos_bound t (Z.of_nat n)) as Hb.
  exists rm. split_and!; [done|done| | |].
  - rewrite (winnerIndex_of_int rm _ n Hrm). unfold num_of_nat, w.
    do 2 f_equal. destruct (_ =? 0)%Z eqn:E; rewrite Z2Nat.id; lia.
  - unfold w. destruct (Z.eqb_spec (t mod Z.of_nat n) 0); lia.
  - unfold js_index, num_of_nat.
    assert (Qint (inject_Z (Z.of_nat w)) = Some (Z.of_nat w)) as ->
      by (by apply Qint_spec).
    destruct (Z.leb_spec 0 (Z.of_nat w)); [|lia]. by rewrite Nat2Z.id.
Qed.

(** The winner index of a non-negative integer total is an index of the
    array. *)
Lemma winner_index_in_bounds {A} (arr : list A) (a : Q) (t : Z) :
  a == inject_Z t → (0 ≤ t)%Z → (0 < length arr)%nat →
  is_Some (js_index arr
             (winnerIndex_of (js_rem (Num a) (num_of_nat (length arr)))
                             (length arr))).
Proof.
  intros Ha Ht Hn.
  destruct (winner_index_int arr a t Ha Ht Hn) as (rm & -> & _ & -> & Hw & ->).
  by apply lookup_lt_is_Some_2.
Qed.

(** A forced reveal adds integers of the range to integers of the
    range. *)
Lemma revealed_integral (force : bool) (r : Room) :
  (1 ≤ length (frozenOrder r))%nat →
  integral_submissions r → integral_submissions (revealed_submissions force r).
Proof.
  intros Hn Hint k v Hv.
  destruct (revealed_frame force r) as (_ & _ & _ & _ & -> & _).
  unfold revealed_submissions in Hv.
  destruct force; [|by eapply Hint].
  apply fill_from_lookup in Hv as [Hv|(_ & _ & ->)]; [by eapply Hint|].
  exists 1, 1%Z. split_and!; [done|done|lia|lia].
Qed.

(** With integer submissions, a reveal that passes its guards returns
    true. *)
Lemma reveal_returns_int (force : bool) (r : Room) :
  room_inv r → phase r = input → integral_submissions r →
  force = true ∨ canReveal r = true →
  ∃ r', reveal force r = Return true r'.
Proof.
  intros Hinv Hph Hint Hguard.
  assert (2 ≤ length (frozenOrder r))%nat as Hn2.
  { apply Hinv. by rewrite Hph. }
  assert (Forall (int_between 1 (Z.of_nat (length (frozenOrder r))))
                 (Object_values (revealed_submissions force r))) as Hint'.
  { apply Forall_forall. intros v [k Hk]%Object_values_elem.
    pose proof (revealed_integral force r ltac:(lia) Hint k v Hk) as Hv.
    by destruct (revealed_frame force r) as (_ & _ & _ & _ & <- & _). }
  destruct (sum_values_int _ _ Hint') as (t & Hsum & Ht).
  destruct (winner_index_in_bounds (frozenOrder r) (inject_Z t) t) as [i Hi];
    [done|done|lia|].
  destruct (lookup_lt_is_Some_2 (heap r) i) as [p Hp].
  { apply js_index_Some in Hi as (q & j & _ & _ & Hj).
    apply (inv_frozen_wf _ Hinv). by eapply list_elem_of_lookup_2. }
  unfold reveal.
  rewrite Hph, bool_decide_eq_true_2 by done. cbn [negb].
  assert (negb force && negb (canReveal r) = false) as ->.
  { destruct Hguard as [-> | ->]; [done | by rewrite andb_false_r]. }
  cbv zeta. rewrite Hsum. cbn [ToNumber]. unfold num_of_Z at 1.
  rewrite Hi. cbn. rewrite Hp. eauto.
Qed.

(** On integer submissions the claim about [reveal] holds: without
    force it returns true exactly when everybody has submitted, with
    force it always returns true and every frozen member whose name is
    not inherited from [Object.prototype] then has a value, 1 where none
    was given. *)
Lemma reveal_spec_integral (r : Room) :
  reachable r → phase r = input → integral_submissions r →
  ((∃ r', reveal false r = Return true r') ↔ all_submitted r)
  ∧ (¬ all_submitted r → reveal false r = Return false r)
  ∧ (∃ r', reveal true r = Return true r'
           ∧ (∀ u, u ∈ frozenNames r → u ∉ Object_prototype →
                submissions r' !! u
                = Some (default (VNum (num_of_nat 1)) (submissions r !! u)))).
Proof.
  intros Hr Hph Hint. pose proof (reachable_inv _ Hr) as Hinv.
  pose proof (canReveal_iff r Hinv) as Hcan.
  split_and!.
  - split.
    + intros [r' Hrev]. apply Hcan. revert Hrev. unfold reveal.
      rewrite Hph, bool_decide_eq_true_2 by done. cbn [negb andb].
      by destruct (canReveal r).
    + intros Hall. apply reveal_returns_int; try done. right. by apply Hcan.
  - intros Hnot. unfold reveal.
    rewrite Hph, bool_decide_eq_true_2 by done. cbn [negb andb].
    destruct (canReveal r); [|done]. exfalso. by apply Hnot, Hcan.
  - destruct (reveal_returns_int true r) as [r' Hr']; try done; [by left|].
    exists r'. split; [done|].
    destruct (reveal_cases true r)
      as [E|[[_ E]|(_ & res & w & E)]]; rewrite Hr' in E; try done.
    injection E as ->. cbn. intros u Hu Hplain.
    pose proof (fill_from_covers (heap r) (frozenOrder r) r u Hu) as Hcov.
    apply has_property_spec in Hcov as [[v Hv]|Hcov]; [|done].
    unfold fill_missing. rewrite Hv.
    apply fill_from_lookup in Hv as [-> | (Hno & _ & ->)]; [done|].
    destruct (submissions r !! u) eqn:Hu'; [|done].
    rewrite has_property_own in Hno; [done|by rewrite Hu'].
Qed.
End RevealGuard.

(** ** Reveal on rounds with and without fractional submissions *)

Section RevealRuns.
Local Open Scope Q_scope.

Lemma reachable_int_reachable r : reachable_int r → reachable r.
Proof. induction 1; by constructor. Qed.

Lemma integral_same_round r r' :
  same_round r r' → integral_submissions r → integral_submissions r'.
Proof.
  intros (_ & _ & Hs & _ & Hf & _) Hint k v. rewrite Hs, Hf. apply Hint.
Qed.

Lemma integral_empty r :
  submissions r = ∅ → integral_submissions r.
Proof. intros E k v. by rewrite E, lookup_empty. Qed.

(** Integer submissions stay integers of the range, whatever is called
    in between. *)
Lemma reachable_int_integral r : reachable_int r → integral_submissions r.
Proof.
  induction 1 as [nm | o r Hr IH Ho]; [by apply integral_empty|].
  pose proof (reachable_inv _ (reachable_int_reachable _ Hr)) as Hinv.
  destruct o as [u s t|s|u| | |u x|f| ]; cbn [exec].
  - eapply integral_same_round; [apply add_same_round|done].
  - eapply integral_same_round; [apply remove_same_round|done].
  - eapply integral_same_round; [apply kick_same_round|done].
  - eapply integral_same_round; [apply check_same_round|done].
  - unfold startRound. destruct (_ || _); [done|]. by apply integral_empty.
  - destruct Ho as (q & z & -> & Hq).
    destruct (submitNumber_spec u (Num q) r) as (_ & Hok & Hfail).
    pose proof (submitNumber_integer u q z r Hq) as Hacc.
    destruct (submitNumber u (Num q) r).2; [|by rewrite Hfail].
    rewrite Hok by done. destruct Hacc as [Hacc _].
    destruct (Hacc eq_refl) as (_ & _ & Hz).
    intros k v.
    destruct (assign_frame u (Num q) r) as (_ & _ & _ & _ & -> & _).
    intros [Hv|(-> & -> & _)]%assign_lookup; [by eapply IH|].
    exists q, z. done.
  - assert (phase r = input →
            integral_submissions (revealed_submissions f r)) as Hfill.
    { intros Hph. apply revealed_integral; [|done].
      assert (2 ≤ length (frozenOrder r))%nat by (apply Hinv; by rewrite Hph).
      lia. }
    destruct (reveal_cases f r) as [->|[[Hph ->]|(Hph & res & w & ->)]];
      cbn [final]; [done|exact (Hfill Hph)|].
    intros k v Hv. cbn in Hv |- *.
    pose proof (Hfill Hph k v Hv) as Hz.
    by destruct (revealed_frame f r) as (_ & _ & _ & _ & <- & _).
  - by apply integral_empty.
Qed.

(** As long as only integers are submitted, [reveal] behaves as
    claimed. *)
Lemma reveal_spec_integer_runs (r : Room) :
  reachable_int r → phase r = input →
  ((∃ r', reveal false r = Return true r') ↔ all_submitted r)
  ∧ (¬ all_submitted r → reveal false r = Return false r)
  ∧ (∃ r', reveal true r = Return true r').
Proof.
  intros Hr Hph.
  destruct (reveal_spec_integral r) as (H1 & H2 & r' & H3 & _);
    [by apply reachable_int_reachable | done | by apply reachable_int_integral |].
  eauto.
Qed.


(** In a round, the frozen roster has at least two members. *)
Lemma frozen_at_least_two (r : Room) :
  reachable r → phase r = input → (2 ≤ length (frozenOrder r))%nat.
Proof.
  intros Hr Hph. apply (inv_frozen_size _ (reachable_inv _ Hr)). by rewrite Hph.
Qed.

Lemma room2_fraction_reachable : reachable room2_fraction.
Proof. unfold room2_fraction, room2. do 2 apply reachable_run. constructor. Qed.

(** C3, at the failing input: A and B play, A has sent 1.5 and B has
    sent 1.  The room is reachable and in phase [input] and everybody
    has submitted, yet neither [reveal(false)] nor [reveal(true)]
    returns true: both end in the TypeError of reading [.name] of
    [undefined]. *)
Theorem reveal_throws_after_fraction :
  reachable room2_fraction
  ∧ phase room2_fraction = input
  ∧ all_submitted room2_fraction
  ∧ reveal false room2_fraction = Throw room2_fraction
  ∧ reveal true room2_fraction = Throw room2_fraction.
Proof.
  split_and!.
  - apply room2_fraction_reachable.
  - vm_compute. reflexivity.
  - apply canReveal_iff; [apply reachable_inv, room2_fraction_reachable|].
    vm_compute. reflexivity.
  - vm_compute. reflexivity.
  - vm_compute. reflexivity.
Qed.

Lemma room2_strings_reachable : reachable room2_strings.
Proof. unfold room2_strings, room2. do 2 apply reachable_run. constructor. Qed.

(** C1, at the failing input: A and B play, A has sent the string ['1']
    and B the string ['2'], which [submitNumber] accepts since they read
    as the numbers 1 and 2.  [reveal(false)] returns true, but the total
    it records is the string ['012'], the loop having concatenated; the
    remainder of 12 by 2 is 0 and the winner is B, the last member.  The
    submissions sum to 3, whose remainder 1 designates [frozenOrder[0]],
    A. *)
Theorem reveal_concatenates_strings :
  reachable room2_strings
  ∧ phase room2_strings = input
  ∧ frozenNames room2_strings = ["A"; "B"]%string
  ∧ (submitNumber "A" (VStr "1") room2).2 = true
  ∧ (submitNumber "B" (VStr "2") (submitNumber "A" (VStr "1") room2).1).2 = true
  ∧ Object_values room2_strings = [VStr "1"; VStr "2"]
  ∧ ToNumber (VStr "1") = num_of_Z 1
  ∧ ToNumber (VStr "2") = num_of_Z 2
  ∧ (∃ r' res,
       reveal false room2_strings = Return true r'
       ∧ phase r' = revealed
       ∧ result r' = Some res
       ∧ total res = VStr "012"
       ∧ participantCount res = 2%nat
       ∧ index res = num_of_Z 0
       ∧ actualWinnerIndex res = num_of_Z 1
       ∧ winner r' = Some "B"%string)
  ∧ ((1 + 2) mod 2 = 1)%Z
  ∧ frozenNames room2_strings !! (1 - 1)%nat = Some "A"%string.
Proof.
  split_and!.
  - apply room2_strings_reachable.
  - vm_compute. reflexivity.
  - vm_compute. reflexivity.
  - vm_compute. reflexivity.
  - vm_compute. reflexivity.
  - vm_compute. reflexivity.
  - vm_compute. reflexivity.
  - vm_compute. reflexivity.
  - do 2 eexists. split_and!; (vm_compute; reflexivity).
  - vm_compute. reflexivity.
  - vm_compute. reflexivity.
Qed.

(** C10, at the failing input: in the same reachable round of two the
    total is 2.5, the remainder 0.5 and the winner index -0.5, at which
    [frozenOrder] has no element. *)
Theorem winner_index_not_an_index :
  reachable room2_fraction
  ∧ phase room2_fraction = input
  ∧ length (frozenOrder room2_fraction) = 2%nat
  ∧ canReveal room2_fraction = true
  ∧ ∃ total rm wi : Q,
      sum_values (Object_values room2_fraction) = Num total
      ∧ total == 5 # 2
      ∧ js_rem (Num total) (num_of_nat 2) = Num rm
      ∧ rm == 1 # 2
      ∧ winnerIndex_of (Num rm) 2 = Num wi
      ∧ wi == - (1 # 2)
      ∧ js_index (frozenOrder room2_fraction) (Num wi) = None.
Proof.
  split_and!.
  - apply room2_fraction_reachable.
  - vm_compute. reflexivity.
  - vm_compute. reflexivity.
  - vm_compute. reflexivity.
  - exists (5 # 2), (1 # 2), (- (1 # 2)). split_and!; (vm_compute; reflexivity).
Qed.
End RevealRuns.

(** ** The snapshot *)

Section Snapshot.

Lemma fmap_const_dom (m1 m2 : gmap string jsval) :
  dom m1 = dom m2 →
  ((λ _, true) <$> m1 : gmap string bool) = (λ _, true) <$> m2.
Proof.
  intros Hd. apply map_eq. intros k. rewrite !lookup_fmap.
  assert (is_Some (m1 !! k) ↔ is_Some (m2 !! k)) as Hk.
  { by rewrite <- !elem_of_dom, Hd. }
  destruct (m1 !! k) as [v1|] eqn:H1, (m2 !! k) as [v2|] eqn:H2; cbn; try done.
  - destruct Hk as [Hk _]. destruct Hk as [? ?]; done.
  - destruct Hk as [_ Hk]. destruct Hk as [? ?]; done.
Qed.

(** C8. In phase [input] the snapshot does not depend on the submitted
    values: replacing [submissions] by any map with the same keys gives
    the same snapshot; its [submissions] field maps exactly the
    submitted names to [true]; and in every room the methods produce,
    [result] and [winner] of the snapshot are null unless the phase is
    [revealed]. *)
Theorem getState_hides_submitted_values :
  (∀ (r : Room) (subs' : gmap string jsval),
      phase r = input → dom subs' = dom (submissions r) →
      getState (with_submissions subs' r) = getState r)
  ∧ (∀ r : Room, phase r = input →
       ∃ m : gmap string bool,
         s_submissions (getState r) = Some m
         ∧ ∀ k, m !! k = match submissions r !! k with
                         | Some _ => Some true
                         | None => None
                         end)
  ∧ (∀ r : Room, reachable r → phase r ≠ revealed →
       s_result (getState r) = None ∧ s_winner (getState r) = None).
Proof.
  split_and!.
  - intros r subs' Hph Hd. unfold getState. cbn.
    rewrite Hph, bool_decide_eq_true_2 by done.
    by rewrite (fmap_const_dom _ _ Hd).
  - intros r Hph. unfold getState. cbn.
    rewrite Hph, bool_decide_eq_true_2 by done.
    eexists. split; [done|]. intros k. rewrite lookup_fmap.
    by destruct (submissions r !! k).
  - intros r Hr Hph. cbn. by apply (inv_result _ (reachable_inv _ Hr)).
Qed.

Lemma getState_hides_submitted_values_witness :
  getState (submitNumber "A" (num_of_Z 1) room2).1
  = getState (submitNumber "A" (num_of_Z 2) room2).1
  ∧ s_result (getState room2) = None.
Proof.
  destruct getState_hides_submitted_values as (Hsame & _ & Hnull).
  split.
  - apply (Hsame (submitNumber "A" (num_of_Z 2) room2).1
                 (submissions (submitNumber "A" (num_of_Z 1) room2).1)).
    + vm_compute. reflexivity.
    + vm_compute. reflexivity.
  - apply Hnull.
    + apply reachable_run, reach_new.
    + vm_compute. discriminate.
Defined.
End Snapshot.

(** ** Phase transitions *)

Section PhaseTransitions.

(** C6 as stated fails: [room2] is reachable and in phase [input], and
    [backToLobby] takes it straight to [lobby], which is neither staying
    nor a move of the cycle. *)
Lemma phase_cycle_counterexample :
  reachable room2
  ∧ phase room2 = input
  ∧ phase (exec OpBack room2) = lobby
  ∧ ¬ cycle_edge input lobby
  ∧ ¬ phase_follows_cycle.
Proof.
  assert (reachable room2) as Hr by apply reachable_run, reach_new.
  assert (¬ cycle_edge input lobby) as Hedge.
  { intros [[E _]|[[_ E]|[E _]]]; discriminate. }
  split_and!; [done|done|done|done|].
  intros H. destruct (H room2 OpBack Hr) as [E|E].
  - vm_compute in E. discriminate.
  - by apply Hedge.
Qed.

(** C6, amended.  A call leaves the phase alone or makes one of four
    moves: lobby → input (a [startRound] that returns true),
    input → revealed (a [reveal] that returns true), and revealed → lobby
    or input → lobby (a [backToLobby]). *)
Theorem phase_transitions (r : Room) (o : op) :
  phase (exec o r) = phase r
  ∨ (phase r = lobby ∧ phase (exec o r) = input
     ∧ o = OpStart ∧ (startRound r).2 = true)
  ∨ (phase r = input ∧ phase (exec o r) = revealed
     ∧ ∃ f, o = OpReveal f ∧ reveal f r = Return true (exec o r))
  ∨ ((phase r = revealed ∨ phase r = input) ∧ phase (exec o r) = lobby
     ∧ o = OpBack).
Proof.
  destruct o as [u s t|s|u| | |u x|f| ]; cbn [exec].
  - left. apply add_same_round.
  - left. apply remove_same_round.
  - left. apply kick_same_round.
  - left. apply check_same_round.
  - unfold startRound. case_bool_decide as Hph; cbn [negb orb].
    + destruct (length (participants r) <? 2)%nat; cbn; [by left|].
      right. left. done.
    + by left.
  - left. destruct (submitNumber_spec u x r) as (_ & Hok & Hfail).
    destruct (submitNumber u x r).2; [|by rewrite Hfail].
    rewrite Hok by done. apply assign_frame.
  - destruct (reveal_cases f r) as [E|[[Hph E]|(Hph & res & w & E)]];
      rewrite E; cbn [final]; [by left|left; apply revealed_frame|].
    right. right. left. split_and!; [done|done|]. by exists f.
  - destruct (phase r) eqn:Hph; cbn.
    + by left.
    + right. right. right. split_and!; [by right|done|done].
    + right. right. right. split_and!; [by left|done|done].
Qed.
End PhaseTransitions.

(** ** The registry: rooms without online participants *)

Section Registry.

Lemma not_empty_intro (r : Room) (i : nat) :
  i ∈ participants r → holds (heap r) online i = true → isEmpty r = false.
Proof.
  intros Hi Ho. unfold isEmpty. apply Nat.eqb_neq.
  assert (In i (List.filter (holds (heap r) online) (participants r))) as Hin.
  { apply filter_In. split; [by apply list_elem_of_In | done]. }
  destruct (List.filter _ _); [done | cbn; lia].
Qed.

Lemma add_not_empty u s t r : isEmpty (addParticipant u s t r).1 = false.
Proof.
  unfold addParticipant.
  destruct (find_ref _ _ _) as [i|] eqn:Hf; cbn [fst].
  - apply find_ref_name_Some in Hf as [Hi Hn].
    apply (not_empty_intro _ i); [done|]. cbn. unfold holds.
    rewrite list_lookup_alter_eq. by destruct (heap r !! i).
  - apply (not_empty_intro _ (length (heap r))); cbn.
    + apply elem_of_app. right. apply list_elem_of_here.
    + unfold holds. by rewrite lookup_app_r, Nat.sub_diag.
Qed.

Lemma isEmpty_start r : isEmpty (startRound r).1 = isEmpty r.
Proof. unfold startRound. by destruct (_ || _). Qed.

Lemma isEmpty_submit u x r : isEmpty (submitNumber u x r).1 = isEmpty r.
Proof.
  unfold isEmpty. by destruct (submit_roster u x r) as (-> & -> & _).
Qed.

Lemma isEmpty_reveal f r : isEmpty (final (reveal f r)) = isEmpty r.
Proof.
  unfold isEmpty. by destruct (reveal_roster f r) as (-> & -> & _).
Qed.

Lemma isEmpty_back r : isEmpty (backToLobby r).1 = isEmpty r.
Proof. done. Qed.

Lemma resolve_Some s sid cr cu room :
  resolve s sid = Some (cr, cu, room) → rooms s !! cr = Some room.
Proof.
  unfold resolve.
  destruct (currentRoom _) as [cr'|]; [|done].
  destruct (currentUser _) as [cu'|]; [|done].
  destruct (_ && _); [|done].
  destruct (rooms s !! cr') eqn:E; [|done]. cbn. by intros [= <- <- <-].
Qed.

Lemma no_empty_put s cr room :
  no_empty_room s → isEmpty room = false → no_empty_room (put_room cr room s).
Proof.
  intros Hs Hr k room'. cbn. destruct (decide (cr = k)) as [<-|Hne].
  - rewrite lookup_insert_eq. by intros [= <-].
  - rewrite lookup_insert_ne by done. apply Hs.
Qed.

Lemma no_empty_crashed : no_empty_room crashed.
Proof. intros k room. cbn. by rewrite lookup_empty. Qed.

(** [handleDisconnect] deletes the room it has just emptied. *)
Lemma no_empty_disconnect sid s :
  no_empty_room s → no_empty_room (handleDisconnect sid s).
Proof.
  intros Hs. unfold handleDisconnect.
  destruct (resolve s sid) as [[[cr cu] room]|] eqn:Hres; [|done].
  intros k room'. cbn.
  destruct (isEmpty (removeParticipant sid room)) eqn:Hem.
  - intros [_ Hk]%lookup_delete_Some. by eapply Hs.
  - destruct (decide (cr = k)) as [<-|Hne].
    + rewrite lookup_insert_eq. by intros [= <-].
    + rewrite lookup_insert_ne by done. apply Hs.
Qed.

(** Every handler but [kickUser] keeps the registry free of rooms
    without an online participant; [handleDisconnect] does so by
    deleting the room it has just emptied. *)
Lemma no_empty_room_preserved (e : event) (s : Server) :
  not_a_kick e → no_empty_room s → no_empty_room (handle e s).
Proof.
  intros He Hs.
  assert (∀ sid (f : Room → Room) (g : string → Room → bool),
            (∀ r, isEmpty (f r) = isEmpty r) →
            no_empty_room
              match resolve s sid with
              | Some (cr, cu, room) =>
                  if g cu room then put_room cr (f room) s else s
              | None => s
              end) as Hframe.
  { intros sid f g Hf. destruct (resolve s sid) as [[[cr cu] room]|] eqn:Hres; [|done].
    destruct (g cu room); [|done]. apply resolve_Some in Hres.
    apply no_empty_put; [done|]. rewrite Hf. by eapply Hs. }
  assert (∀ sid (f : bool),
            no_empty_room
              match resolve s sid with
              | Some (cr, cu, room) =>
                  if callerIsHost room cu then after_reveal cr (reveal f room) s
                  else s
              | None => s
              end) as Hreveal.
  { intros sid f. destruct (resolve s sid) as [[[cr cu] room]|] eqn:Hres; [|done].
    destruct (callerIsHost room cu); [|done]. apply resolve_Some in Hres.
    pose proof (isEmpty_reveal f room) as Hem.
    destruct (reveal f room) as [b room'|room']; cbn [after_reveal final] in *.
    - apply no_empty_put; [done|]. rewrite Hem. by eapply Hs.
    - apply no_empty_crashed. }
  unfold handle. destruct (running s); cbn [negb]; [|done].
  destruct e as [sid rn un now|sid|sid x|sid|sid|sid|sid un|sid|sid]; try done.
  - unfold on_joinRoom. destruct (_ || _); [done|]. cbv zeta.
    destruct (rooms s !! rn) as [room|] eqn:Hroom.
    + rewrite Hroom. destruct (_ && _); [by destruct s|].
      intros k room'. cbn. destruct (decide (rn = k)) as [<-|Hne].
      * rewrite lookup_insert_eq. intros [= <-]. apply add_not_empty.
      * rewrite lookup_insert_ne by done. apply Hs.
    + case_bool_decide as Hin.
      { rewrite Hroom. apply no_empty_crashed. }
      assert (<[rn := newRoom rn]> (rooms s) !! rn = Some (newRoom rn)) as ->
        by apply lookup_insert_eq.
      cbn. rewrite bool_decide_eq_true_2 by done. cbn.
      intros k room'. cbn. rewrite insert_insert_eq.
      destruct (decide (rn = k)) as [<-|Hne].
      * rewrite lookup_insert_eq. by intros [= <-].
      * rewrite lookup_insert_ne by done. apply Hs.
  - apply (Hframe sid (λ r, (startRound r).1) (λ cu room, callerIsHost room cu)).
    apply isEmpty_start.
  - unfold on_submitNumber.
    destruct (resolve s sid) as [[[cr cu] room]|] eqn:Hres; [|done].
    apply resolve_Some in Hres. apply no_empty_put; [done|].
    rewrite isEmpty_submit. by eapply Hs.
  - apply Hreveal.
  - apply Hreveal.
  - apply (Hframe sid (λ r, (backToLobby r).1) (λ cu room, callerIsHost room cu)).
    apply isEmpty_back.
  - by apply no_empty_disconnect.
  - by apply no_empty_disconnect.
Qed.

Lemma self_kick_reachable : server_reachable (serve self_kick initServer).
Proof. unfold self_kick. cbn [serve foldl]. do 2 constructor. constructor. Qed.

(** C5, at the failing input: a connection joins room R as A, which
    makes A the host, and then kicks A.  The state is reachable and room
    R is still registered, with an empty roster and nobody online. *)
Theorem self_kick_leaves_empty_room :
  server_reachable (serve self_kick initServer)
  ∧ ∃ room, rooms (serve self_kick initServer) !! "R"%string = Some room
            ∧ participants room = []
            ∧ isEmpty room = true.
Proof.
  split; [apply self_kick_reachable|].
  eexists. split_and!; [vm_compute; reflexivity | reflexivity | reflexivity].
Qed.

(** The same room is removed once the connection closes. *)
Example self_kick_then_disconnect :
  rooms (handle (EvDisconnect "s1") (serve self_kick initServer)) !! "R"%string
  = None.
Proof. vm_compute. reflexivity. Qed.
End Registry.

(** ** Host re-election *)

Section HostElection.
Implicit Types (h : list Participant) (ps : list nat).

(** The head of the sorted array is an element with the least key. *)
Lemma sort_by_head key ps :
  ps ≠ [] →
  ∃ x rest, sort_by key ps = x :: rest
            ∧ x ∈ ps ∧ ∀ y, y ∈ ps → (key x ≤ key y)%Z.
Proof.
  induction ps as [|a ps IH]; [done|]. intros _.
  destruct ps as [|b ps].
  { exists a, []. split_and!; [done|apply list_elem_of_here|].
    intros y ->%list_elem_of_singleton. lia. }
  destruct IH as (m & rest & Hs & Hm & Hmin); [done|].
  change (sort_by key (a :: b :: ps)) with (insert_by key a (sort_by key (b :: ps))).
  rewrite Hs. cbn [insert_by].
  destruct (Z.leb_spec (key a) (key m)) as [Hle|Hgt].
  - exists a, (m :: rest). split_and!; [done|apply list_elem_of_here|].
    intros y [->|Hy]%elem_of_cons; [lia|]. specialize (Hmin y Hy). lia.
  - exists m, (insert_by key a rest).
    split_and!; [done|by apply list_elem_of_further|].
    intros y [->|Hy]%elem_of_cons; [lia|]. by apply Hmin.
Qed.

(** The store after [forEach(p => p.isHost = false)]. *)
Lemma clear_hosts_lookup ps h j :
  foldl (λ h i, alter (set_isHost false) i h) h ps !! j
  = (if bool_decide (j ∈ ps) then set_isHost false else id) <$> h !! j.
Proof.
  revert h. induction ps as [|i ps IH]; intros h; cbn [foldl].
  { rewrite bool_decide_eq_false_2 by apply not_elem_of_nil.
    by destruct (h !! j). }
  rewrite IH, list_lookup_alter.
  destruct (decide (i = j)) as [->|Hne].
  - rewrite (bool_decide_eq_true_2 (j ∈ j :: ps)) by apply list_elem_of_here.
    destruct (h !! j); [|done]. cbn. by destruct (bool_decide _).
  - destruct (bool_decide (j ∈ ps)) eqn:Hj.
    + apply bool_decide_eq_true_1 in Hj.
      by rewrite bool_decide_eq_true_2 by by apply list_elem_of_further.
    + apply bool_decide_eq_false_1 in Hj.
      rewrite bool_decide_eq_false_2; [done|].
      by intros [?|?]%elem_of_cons.
Qed.

Lemma clear_hosts_length ps h :
  length (foldl (λ h i, alter (set_isHost false) i h) h ps) = length h.
Proof.
  revert h. induction ps as [|i ps IH]; intros h; [done|].
  cbn [foldl]. by rewrite IH, length_alter.
Qed.

Lemma clear_hosts_online ps h j :
  holds (foldl (λ h i, alter (set_isHost false) i h) h ps) online j
  = holds h online j.
Proof.
  unfold holds. rewrite clear_hosts_lookup.
  destruct (h !! j); [|done]. by destruct (bool_decide _).
Qed.

Lemma clear_hosts_time ps h j :
  time_of (foldl (λ h i, alter (set_isHost false) i h) h ps) j = time_of h j.
Proof.
  unfold time_of. rewrite clear_hosts_lookup.
  destruct (h !! j); [|done]. by destruct (bool_decide _).
Qed.

Lemma clear_hosts_cleared ps h j :
  j ∈ ps → holds (foldl (λ h i, alter (set_isHost false) i h) h ps) isHost j = false.
Proof.
  intros Hj. unfold holds. rewrite clear_hosts_lookup.
  rewrite bool_decide_eq_true_2 by done. by destruct (h !! j).
Qed.

(** Marking [i] in a store where the roster has no host makes [i] the
    sole host among any rearrangement [ps'] of the roster. *)
Lemma mark_sole_host r0 h1 ps ps' i :
  (∀ j, j ∈ ps → holds h1 isHost j = false) →
  i ∈ ps → i < length h1 → ps' ≡ₚ ps →
  participants r0 = ps' → heap r0 = alter (set_isHost true) i h1 →
  sole_host r0 i.
Proof.
  intros Hclr Hi Hlt Hperm Hps Hh. unfold sole_host. rewrite Hps, Hh.
  split; [by rewrite Hperm|].
  intros j Hj. rewrite Hperm in Hj. unfold holds.
  destruct (decide (j = i)) as [->|Hne].
  - rewrite list_lookup_alter_eq.
    destruct (lookup_lt_is_Some_2 h1 i Hlt) as [p ->]. done.
  - rewrite list_lookup_alter_ne by done.
    specialize (Hclr j Hj). unfold holds in Hclr. rewrite Hclr.
    split; [done | by intros ?].
Qed.

(** The re-election proper. *)
Lemma check_elects (r : Room) :
  wf_refs (heap r) (participants r) → distinct_joinTimes r →
  host_missing_or_offline r → elects r (checkAndTransferHost r).
Proof.
  intros Hwf Hdist Hmiss. unfold checkAndTransferHost.
  assert (match find_ref (heap r) isHost (participants r) with
          | Some i => holds (heap r) online i
          | None => false
          end = false) as ->.
  { unfold host_missing_or_offline in Hmiss.
    by destruct (find_ref _ _ _). }
  set (h1 := foldl _ (heap r) (participants r)).
  assert (length h1 = length (heap r)) as Hlen by apply clear_hosts_length.
  assert (List.filter (holds h1 online) (participants r)
          = List.filter (holds (heap r) online) (participants r)) as Hflt.
  { apply filter_ext_in. intros j _. apply clear_hosts_online. }
  assert (∀ j, time_of h1 j = time_of (heap r) j) as Htime
    by (intros j; apply clear_hosts_time).
  assert (∀ j, j ∈ participants r → holds h1 isHost j = false) as Hclr
    by (intros j; apply clear_hosts_cleared).
  assert (∀ j, j ∈ participants r → holds (heap r) online j = true ↔
            j ∈ List.filter (holds (heap r) online) (participants r)) as Hin.
  { intros j Hj. rewrite list_elem_of_In, filter_In, <- list_elem_of_In. tauto. }
  rewrite Hflt.
  destruct (Nat.ltb_spec 0 (length (List.filter (holds (heap r) online)
                                                (participants r)))) as [Hpos|Hzero].
  - (* somebody is online *)
    destruct (sort_by_head (time_of h1)
                (List.filter (holds (heap r) online) (participants r)))
      as (m & rest & Hs & Hm & Hmin).
    { intros E. rewrite E in Hpos. cbn in Hpos. lia. }
    rewrite Hs.
    assert (m ∈ participants r ∧ holds (heap r) online m = true) as [Hmp Hmon].
    { apply list_elem_of_In, filter_In in Hm as [Hm ?].
      by apply list_elem_of_In in Hm. }
    assert (earliest_online r m) as Hearly.
    { split_and!; [done|done|]. intros j Hj Hjon. rewrite <- !Htime.
      by apply Hmin, Hin. }
    split_and!.
    + intros i (Hi & Hon & Hmin').
      assert (i = m) as ->.
      { apply Hdist; [done|done|]. destruct Hearly as (_ & _ & Hm').
        specialize (Hm' i Hi Hon). specialize (Hmin' m Hmp Hmon). lia. }
      apply (mark_sole_host _ h1 (participants r) (participants r)); try done.
      rewrite Hlen. by apply Hwf.
    + intros Hnone. rewrite (Hnone m Hmp) in Hmon. done.
    + intros _. by exists m.
    + intros Hne.
      destruct (sort_by_head (time_of (heap r)) (participants r) Hne)
        as (m' & _ & _ & Hm' & Hmin').
      exists m'. by split.
  - (* nobody is online *)
    assert (nobody_online r) as Hoff.
    { intros j Hj. destruct (holds (heap r) online j) eqn:E; [|done].
      apply Hin in E; [|done].
      rewrite (nil_length_inv (List.filter _ _)) in E by lia.
      by apply elem_of_nil in E. }
    destruct (Nat.ltb_spec 0 (length (participants r))) as [Hpos|Hnil].
    + destruct (sort_by_head (time_of h1) (participants r))
        as (m & rest & Hs & Hm & Hmin).
      { intros E. rewrite E in Hpos. cbn in Hpos. lia. }
      rewrite Hs.
      assert (earliest_overall r m) as Hearly.
      { split; [done|]. intros j Hj. rewrite <- !Htime. by apply Hmin. }
      split_and!.
      * intros i (Hi & Hon & _). rewrite Hoff in Hon; done.
      * intros _ i (Hi & Hmin').
        assert (i = m) as ->.
        { apply Hdist; [done|done|]. destruct Hearly as [_ Hm'].
          specialize (Hm' i Hi). specialize (Hmin' m Hm). lia. }
        apply (mark_sole_host _ h1 (participants r) (m :: rest)); try done.
        -- rewrite Hlen. by apply Hwf.
        -- by rewrite <- Hs, sort_by_perm.
      * intros (j & Hj & Hon). rewrite Hoff in Hon; done.
      * intros _. by exists m.
    + assert (participants r = []) as Hps.
      { apply nil_length_inv. lia. }
      split_and!.
      * intros i (Hi & _). rewrite Hps in Hi. by apply elem_of_nil in Hi.
      * intros _ i (Hi & _). rewrite Hps in Hi. by apply elem_of_nil in Hi.
      * intros (j & Hj & _). rewrite Hps in Hj. by apply elem_of_nil in Hj.
      * done.
Qed.
End HostElection.

Section HostElectionClaim.

Lemma time_of_set_online b i h j :
  time_of (alter (set_online b) i h) j = time_of h j.
Proof.
  unfold time_of. rewrite list_lookup_alter.
  destruct (decide (i = j)) as [->|]; [|done]. by destruct (h !! j).
Qed.

(** C7.  Let the roster have pairwise distinct join times.  When
    [checkAndTransferHost] finds the host missing or offline, the online
    member that joined first ends up as the only member with [isHost];
    when nobody is online, the member that joined first does; and such a
    member exists whenever somebody is online, respectively whenever the
    roster is not empty.  [removeParticipant] and [kickParticipant] run
    exactly this on the roster they have just edited.  In the room where
    A, B, C joined in this order and B is the online host, kicking B or
    losing B's connection makes A the host if A is online, else C if C is
    online, else A. *)
Theorem host_reelection :
  (∀ r : Room,
      room_inv r → distinct_joinTimes r → host_missing_or_offline r →
      elects r (checkAndTransferHost r))
  ∧ (∀ (r : Room) (s : string) (i : nat),
       room_inv r → distinct_joinTimes r →
       find_ref (heap r) (λ p, String.eqb (socketId p) s) (participants r) = Some i →
       let r0 := with_heap (alter (set_online false) i (heap r)) r in
       removeParticipant s r = checkAndTransferHost r0
       ∧ (host_missing_or_offline r0 → elects r0 (removeParticipant s r)))
  ∧ (∀ (r : Room) (u : string) (k : nat),
       room_inv r → distinct_joinTimes r →
       findIndex (heap r) (λ p, String.eqb (name p) u) (participants r) = Some k →
       let r0 := with_participants (delete k (participants r)) r in
       (kickParticipant u r).1 = checkAndTransferHost r0
       ∧ (host_missing_or_offline r0 → elects r0 (kickParticipant u r).1))
  ∧ (∀ a_on c_on : bool,
       let next := if a_on then "A" else if c_on then "C" else "A" in
       rosterNames (room_abc a_on c_on) = ["A"; "B"; "C"]
       ∧ host_names (room_abc a_on c_on) = ["B"]
       ∧ host_names (kickParticipant "B" (room_abc a_on c_on)).1 = [next]
       ∧ host_names (removeParticipant "s2" (room_abc a_on c_on)) = [next])%string.
Proof.
  split_and!.
  - intros r Hinv Hd Hm. apply check_elects; [apply Hinv|done|done].
  - intros r s i Hinv Hd Hf r0.
    split; [unfold removeParticipant; by rewrite Hf|].
    intros Hm. unfold removeParticipant. rewrite Hf. fold r0.
    apply check_elects; [| |done].
    + intros j Hj. unfold r0. cbn. rewrite length_alter.
      by apply (inv_roster_wf _ Hinv).
    + intros a b Ha Hb. unfold r0. cbn. rewrite !time_of_set_online.
      by apply Hd.
  - intros r u k Hinv Hd Hf r0.
    split; [unfold kickParticipant; by rewrite Hf|].
    intros Hm. unfold kickParticipant. rewrite Hf. cbn [fst]. fold r0.
    apply check_elects; [| |done].
    + intros j Hj. apply (inv_roster_wf _ Hinv).
      unfold r0 in Hj. cbn in Hj. by eapply list_elem_of_delete_inv.
    + intros a b Ha Hb. unfold r0 in *. cbn in *.
      apply Hd; by eapply list_elem_of_delete_inv.
  - intros [|] [|]; vm_compute; done.
Qed.

Lemma host_reelection_witness :
  host_names room_host_away = ["A"%string]
  ∧ sole_host (checkAndTransferHost room_host_away) 1.
Proof.
  split; [vm_compute; reflexivity|].
  destruct host_reelection as (Hcheck & _).
  assert (room_inv room_host_away) as Hinv
    by apply reachable_inv, reachable_run, reach_new.
  assert (∀ j, j ∈ participants room_host_away → j = 0 ∨ j = 1) as Hps.
  { intros j Hj. change (participants room_host_away) with [0; 1] in Hj.
    apply elem_of_cons in Hj as [->|Hj]; [by left|].
    apply list_elem_of_singleton in Hj as ->. by right. }
  assert (distinct_joinTimes room_host_away) as Hd.
  { intros i j Hi Hj.
    destruct (Hps i Hi) as [-> | ->], (Hps j Hj) as [-> | ->];
      vm_compute; congruence. }
  assert (host_missing_or_offline room_host_away) as Hm
    by (vm_compute; reflexivity).
  destruct (Hcheck room_host_away Hinv Hd Hm) as (Hon & _).
  apply Hon. split_and!.
  - change (participants room_host_away) with [0; 1].
    apply list_elem_of_further, list_elem_of_here.
  - vm_compute. reflexivity.
  - intros j Hj. destruct (Hps j Hj) as [-> | ->]; vm_compute; congruence.
Defined.
End HostElectionClaim.

(** * Further properties of the roster *)

Section RosterCalls.
Implicit Types (h : list Participant) (ps : list nat).

Lemma holds_alter_other h (f : Participant → bool) (g : Participant → Participant) i j :
  (∀ p, f (g p) = f p) → holds (alter g i h) f j = holds h f j.
Proof.
  intros Hfg. unfold holds. rewrite list_lookup_alter.
  destruct (decide (i = j)) as [->|]; [|done].
  destruct (h !! j); cbn; [apply Hfg | done].
Qed.

Lemma filter_length_perm {A} (f : A → bool) (l l' : list A) :
  l ≡ₚ l' → length (List.filter f l) = length (List.filter f l').
Proof.
  induction 1 as [|x l l' _ IH|x y l|l1 l2 l3 _ IH1 _ IH2]; cbn.
  - done.
  - destruct (f x); cbn; by rewrite IH.
  - by destruct (f x), (f y).
  - by rewrite IH1.
Qed.

(** [checkAndTransferHost] never changes who is online. *)
Lemma check_online r j :
  holds (heap (checkAndTransferHost r)) online j = holds (heap r) online j.
Proof.
  unfold checkAndTransferHost.
  set (h1 := foldl _ _ _).
  assert (holds h1 online j = holds (heap r) online j) as H1
    by apply clear_hosts_online.
  assert (∀ i, holds (alter (set_isHost true) i h1) online j
               = holds (heap r) online j) as H2.
  { intros i. by rewrite holds_alter_other. }
  destruct (match find_ref _ _ _ with Some _ => _ | None => _ end); [done|].
  destruct (0 <? length (List.filter _ _)).
  { destruct (sort_by _ _); cbn; [apply H1 | apply H2]. }
  destruct (0 <? length (participants r)); [|apply H1].
  destruct (sort_by _ _); cbn; [apply H1 | apply H2].
Qed.

Lemma check_isEmpty r : isEmpty (checkAndTransferHost r) = isEmpty r.
Proof.
  unfold isEmpty. f_equal.
  rewrite (filter_length_perm _ _ _ (check_participants_perm r)).
  f_equal. apply filter_ext_in. intros j _. apply check_online.
Qed.

Lemma same_but_isHost_refl h : same_but_isHost h h.
Proof. split; [done|]. intros j p Hp. by exists p. Qed.

Lemma same_but_isHost_alter h h' (b : bool) i :
  same_but_isHost h h' → same_but_isHost h (alter (set_isHost b) i h').
Proof.
  intros [Hlen Hobj]. split; [by rewrite length_alter|].
  intros j p Hp. destruct (Hobj j p Hp) as (p' & Hp' & Hsame).
  rewrite list_lookup_alter.
  destruct (decide (i = j)) as [->|]; rewrite Hp'; cbn; eexists; by split.
Qed.

Lemma clear_hosts_same ps h :
  same_but_isHost h (foldl (λ h i, alter (set_isHost false) i h) h ps).
Proof.
  induction ps as [|i ps IH] using rev_ind; [apply same_but_isHost_refl|].
  rewrite foldl_app. cbn [foldl]. by apply same_but_isHost_alter.
Qed.

(** [checkAndTransferHost] writes no property but [isHost]. *)
Lemma check_same_but_isHost r :
  same_but_isHost (heap r) (heap (checkAndTransferHost r)).
Proof.
  unfold checkAndTransferHost.
  set (h1 := foldl _ _ _).
  assert (same_but_isHost (heap r) h1) as H1 by apply clear_hosts_same.
  assert (∀ i, same_but_isHost (heap r) (alter (set_isHost true) i h1)) as H2
    by (intros i; by apply same_but_isHost_alter).
  destruct (match find_ref _ _ _ with Some _ => _ | None => _ end);
    [apply same_but_isHost_refl|].
  destruct (0 <? length (List.filter _ _)).
  { destruct (sort_by _ _); cbn; [apply H1 | apply H2]. }
  destruct (0 <? length (participants r)); [|apply H1].
  destruct (sort_by _ _); cbn; [apply H1 | apply H2].
Qed.

(** X1. [checkAndTransferHost] only moves the host flag: the round data
    are untouched, the roster holds the same references (possibly in
    another order), every participant object keeps its name, its socket
    id, its online flag and its join time, no object is made or dropped,
    and [isEmpty] gives the same answer. *)
Theorem checkAndTransferHost_frame (r : Room) :
  same_round r (checkAndTransferHost r)
  ∧ participants (checkAndTransferHost r) ≡ₚ participants r
  ∧ same_but_isHost (heap r) (heap (checkAndTransferHost r))
  ∧ (∀ j, holds (heap (checkAndTransferHost r)) online j = holds (heap r) online j)
  ∧ isEmpty (checkAndTransferHost r) = isEmpty r.
Proof.
  split_and!.
  - apply check_same_round.
  - apply check_participants_perm.
  - apply check_same_but_isHost.
  - apply check_online.
  - apply check_isEmpty.
Qed.

(** X2. [addParticipant] on a room the methods produced: it returns true
    exactly when the name is new; a new name is appended to the roster,
    a known one leaves the roster as it is; afterwards the name belongs
    to an online member with the given socket id and no other object has
    changed; a new member carries the given join time and is host exactly
    when the roster was empty. *)
Theorem addParticipant_spec (u s : string) (t : Z) (r : Room) :
  reachable r →
  ((addParticipant u s t r).2 = true ↔ u ∉ rosterNames r)
  ∧ rosterNames (addParticipant u s t r).1
    = (if (addParticipant u s t r).2 then rosterNames r ++ [u] else rosterNames r)
  ∧ (∃ i, member_is (addParticipant u s t r).1 i u s true
          ∧ ∀ j, j ≠ i → heap (addParticipant u s t r).1 !! j = heap r !! j)
  ∧ ((addParticipant u s t r).2 = true →
       ∃ i p, participants (addParticipant u s t r).1 = participants r ++ [i]
              ∧ heap (addParticipant u s t r).1 !! i = Some p
              ∧ joinTime p = t
              ∧ (isHost p = true ↔ participants r = []))
  ∧ ((addParticipant u s t r).2 = false →
       participants (addParticipant u s t r).1 = participants r
       ∧ length (heap (addParticipant u s t r).1) = length (heap r)).
Proof.
  intros Hr. pose proof (reachable_inv _ Hr) as Hinv.
  pose proof (inv_roster_wf _ Hinv) as Hwf.
  unfold addParticipant.
  destruct (find_ref _ _ _) as [i|] eqn:Hf; cbn [fst snd].
  - pose proof Hf as Hsome. apply find_ref_name_Some in Hf as [Hi Hn].
    assert (u ∈ rosterNames r) as Hu.
    { apply find_ref_name_is_Some. by rewrite Hsome. }
    destruct (heap r !! i) as [p|] eqn:Hp; [|done]. injection Hn as Hn.
    split_and!.
    + split; [done | by intros ?].
    + unfold rosterNames. cbn.
      apply names_of_ext; [|done]. by apply heap_ext_alter.
    + exists i. split.
      * split; [done|]. cbn. rewrite list_lookup_alter_eq, Hp. cbn. eauto.
      * intros j Hj. cbn. by rewrite list_lookup_alter_ne.
    + done.
    + intros _. cbn. by rewrite length_alter.
  - apply find_ref_name_None in Hf.
    set (p := mkParticipant u s (length (participants r) =? 0) true t).
    assert ((heap r ++ [p]) !! length (heap r) = Some p) as Hnew.
    { by rewrite lookup_app_r, Nat.sub_diag. }
    split_and!.
    + done.
    + unfold rosterNames, names_of. cbn. rewrite omap_app.
      fold (names_of (heap r ++ [p]) (participants r)).
      rewrite (names_of_ext (heap r)); [|apply heap_ext_app|done].
      cbn. by rewrite Hnew.
    + exists (length (heap r)). split.
      * split; cbn; [apply elem_of_app; right; apply list_elem_of_here|].
        rewrite Hnew. eauto.
      * intros j Hj. cbn.
        destruct (decide (j < length (heap r))) as [Hlt|Hge].
        -- by rewrite lookup_app_l.
        -- rewrite !lookup_ge_None_2; [done|lia|].
           rewrite length_app. cbn. lia.
    + intros _. exists (length (heap r)), p. cbn.
      split_and!; [done|done|done|].
      rewrite Nat.eqb_eq. split; [apply nil_length_inv | by intros ->].
    + done.
Qed.

Lemma addParticipant_spec_witness :
  (addParticipant "C" "s3" 3 lobby2).2 = true
  ∧ rosterNames (addParticipant "C" "s3" 3 lobby2).1 = ["A"; "B"; "C"]%string
  ∧ (addParticipant "A" "s9" 3 lobby2).2 = false.
Proof.
  assert (reachable lobby2) as Hr by apply reachable_run, reach_new.
  destruct (addParticipant_spec "C" "s3" 3 lobby2 Hr) as (_ & Hnames & _).
  split; [reflexivity|]. split; [|reflexivity].
  rewrite Hnames. reflexivity.
Defined.

Lemma roster_names_perm (r r' : Room) :
  wf_refs (heap r) (participants r) → heap_ext (heap r) (heap r') →
  participants r' ≡ₚ participants r → rosterNames r' ≡ₚ rosterNames r.
Proof.
  intros Hwf He Hp. unfold rosterNames.
  rewrite (names_of_perm _ _ _ Hp). by rewrite (names_of_ext _ _ _ He Hwf).
Qed.

(** X3. [removeParticipant] on a room the methods produced keeps every
    member in the roster; the first member with the given socket id is
    offline afterwards and nobody else's online flag changes; without
    such a member the room is returned as it is. *)
Theorem removeParticipant_spec (s : string) (r : Room) :
  reachable r →
  rosterNames (removeParticipant s r) ≡ₚ rosterNames r
  ∧ (∀ i, find_ref (heap r) (λ p, String.eqb (socketId p) s) (participants r) = Some i →
       holds (heap (removeParticipant s r)) online i = false
       ∧ ∀ j, j ≠ i →
           holds (heap (removeParticipant s r)) online j = holds (heap r) online j)
  ∧ (find_ref (heap r) (λ p, String.eqb (socketId p) s) (participants r) = None →
       removeParticipant s r = r).
Proof.
  intros Hr. pose proof (reachable_inv _ Hr) as Hinv.
  split_and!.
  - apply roster_names_perm; [apply Hinv|apply remove_same_round|].
    unfold removeParticipant. destruct (find_ref _ _ _); [|done].
    apply (check_participants_perm (with_heap _ r)).
  - intros i Hf. unfold removeParticipant. rewrite Hf.
    split.
    + rewrite check_online. cbn. unfold holds.
      rewrite list_lookup_alter_eq. by destruct (heap r !! i).
    + intros j Hj. rewrite check_online. cbn. unfold holds.
      by rewrite list_lookup_alter_ne.
  - intros Hf. unfold removeParticipant. by rewrite Hf.
Qed.

Lemma removeParticipant_spec_witness :
  rosterNames (removeParticipant "s1" lobby2) ≡ₚ ["A"; "B"]%string
  ∧ holds (heap (removeParticipant "s1" lobby2)) online 0 = false
  ∧ holds (heap (removeParticipant "s1" lobby2)) online 1 = true.
Proof.
  assert (reachable lobby2) as Hr by apply reachable_run, reach_new.
  destruct (removeParticipant_spec "s1" lobby2 Hr) as (Hnames & Hoff & _).
  split; [exact Hnames|].
  destruct (Hoff 0 eq_refl) as [H0 H1].
  split; [exact H0|]. rewrite (H1 1) by lia. reflexivity.
Defined.

Lemma findIndex_Some h (f : Participant → bool) ps k :
  findIndex h f ps = Some k →
  ∃ i, ps !! k = Some i ∧ holds h f i = true.
Proof.
  revert k. induction ps as [|i ps IH]; intros k; cbn; [done|].
  destruct (holds h f i) eqn:Hi.
  - intros [= <-]. eauto.
  - destruct (findIndex h f ps) as [k'|]; cbn; [|done].
    intros [= <-]. by apply IH.
Qed.

Lemma findIndex_None h (f : Participant → bool) ps i :
  findIndex h f ps = None → i ∈ ps → holds h f i = false.
Proof.
  induction ps as [|j ps IH]; cbn; [by intros _ ?%elem_of_nil|].
  destruct (holds h f j) eqn:Hj; [done|].
  destruct (findIndex h f ps); cbn; [done|].
  intros _ [->|Hi]%elem_of_cons; [done | by apply IH].
Qed.

(** X4. [kickParticipant] on a room the methods produced: it returns a
    socket id exactly when the name is in the roster, and then it is the
    socket id of that member; afterwards the name is not in the roster,
    every other name is in the roster exactly if it was, and nobody's
    online flag has changed; an unknown name leaves the room as it is. *)
Theorem kickParticipant_spec (u : string) (r : Room) :
  reachable r →
  (is_Some (kickParticipant u r).2 ↔ u ∈ rosterNames r)
  ∧ (∀ sock, (kickParticipant u r).2 = Some sock →
       ∃ i, member_is r i u sock (holds (heap r) online i))
  ∧ (u ∉ rosterNames (kickParticipant u r).1)
  ∧ (∀ v, v ≠ u →
       (v ∈ rosterNames (kickParticipant u r).1 ↔ v ∈ rosterNames r))
  ∧ (∀ j, holds (heap (kickParticipant u r).1) online j = holds (heap r) online j)
  ∧ (u ∉ rosterNames r → (kickParticipant u r).1 = r).
Proof.
  intros Hr. pose proof (reachable_inv _ Hr) as Hinv.
  pose proof (inv_roster_wf _ Hinv) as Hwf.
  pose proof (inv_roster_nodup _ Hinv) as Hnd.
  unfold kickParticipant.
  destruct (findIndex _ _ _) as [k|] eqn:Hf; cbn [fst snd].
  - destruct (findIndex_Some _ _ _ _ Hf) as (i & Hk & Hi).
    apply holds_name_eqb in Hi.
    destruct (heap r !! i) as [p|] eqn:Hp; [|done].
    assert (name p = u) as Hn by (cbn in Hi; congruence). clear Hi.
    assert (i ∈ participants r) as Hin by by eapply list_elem_of_lookup_2.
    assert (u ∈ rosterNames r) as Hu.
    { apply list_elem_of_omap. exists i. by rewrite Hp, <- Hn. }
    set (r0 := with_participants (delete k (participants r)) r).
    assert (rosterNames (checkAndTransferHost r0)
            ≡ₚ names_of (heap r) (delete k (participants r))) as Hperm.
    { apply (roster_names_perm r0); [|apply check_same_round|apply check_participants_perm].
      eapply wf_refs_sublist; [apply sublist_delete|done]. }
    assert (names_of (heap r) (participants r)
            = names_of (heap r) (take k (participants r)) ++ [u]
              ++ names_of (heap r) (drop (S k) (participants r))) as Hsplit.
    { rewrite <- (take_drop_middle _ _ _ Hk) at 1.
      unfold names_of. rewrite omap_app. cbn. rewrite Hp. cbn. by rewrite Hn. }
    assert (names_of (heap r) (delete k (participants r))
            = names_of (heap r) (take k (participants r))
              ++ names_of (heap r) (drop (S k) (participants r))) as Hdel.
    { rewrite delete_take_drop. unfold names_of. by rewrite omap_app. }
    unfold rosterNames in Hnd. rewrite Hsplit in Hnd.
    apply NoDup_app in Hnd as (_ & Hleft & [Hright _]%NoDup_cons).
    split_and!.
    + rewrite Hk. cbn. rewrite Hp. cbn. split; [done | by eauto].
    + rewrite Hk. cbn. rewrite Hp. cbn. intros sock [= <-].
      exists i. split; [done|]. exists p. split_and!; try done.
      unfold holds. by rewrite Hp.
    + rewrite Hperm, Hdel. intros [H1|H2]%elem_of_app; [|done].
      apply (Hleft u H1). apply list_elem_of_here.
    + intros v Hv. rewrite Hperm, Hdel. unfold rosterNames. rewrite Hsplit.
      rewrite !elem_of_app, list_elem_of_singleton. tauto.
    + intros j. by rewrite check_online.
    + done.
  - assert (u ∉ rosterNames r) as Hu.
    { intros (i & Hi & Hn)%list_elem_of_omap.
      pose proof (findIndex_None _ _ _ i Hf Hi) as Hfalse.
      apply holds_name_eqb in Hn. congruence. }
    split_and!; try done.
Qed.

Lemma kickParticipant_spec_witness :
  is_Some (kickParticipant "B" lobby2).2
  ∧ rosterNames (kickParticipant "B" lobby2).1 = ["A"%string].
Proof.
  assert (reachable lobby2) as Hr by apply reachable_run, reach_new.
  destruct (kickParticipant_spec "B" lobby2 Hr) as (Hsome & _).
  split; [|reflexivity].
  apply Hsome. change (rosterNames lobby2) with ["A"; "B"]%string.
  apply list_elem_of_further, list_elem_of_here.
Defined.
End RosterCalls.

(** * The host flag *)

Section Hosts.
Implicit Types (h : list Participant) (ps : list nat).

Lemma NoDup_refs h ps : wf_refs h ps → NoDup (names_of h ps) → NoDup ps.
Proof.
  induction ps as [|i ps IH]; intros Hwf Hnd; [constructor|].
  destruct (lookup_lt_is_Some_2 h i) as [p Hp]; [apply Hwf, list_elem_of_here|].
  unfold names_of in Hnd. cbn in Hnd. rewrite Hp in Hnd. cbn in Hnd.
  apply NoDup_cons in Hnd as [Hnotin Hnd].
  assert (wf_refs h ps) as Hwf'.
  { intros j Hj. by apply Hwf, list_elem_of_further. }
  constructor; [|by apply IH].
  intros Hi. apply Hnotin. apply list_elem_of_omap. exists i. by rewrite Hp.
Qed.

Lemma List_filter_nil {A} (f : A → bool) (l : list A) :
  (∀ x, x ∈ l → f x = false) → List.filter f l = [].
Proof.
  induction l as [|a l IH]; intros Hf; cbn; [done|].
  rewrite (Hf a) by apply list_elem_of_here.
  apply IH. intros x Hx. by apply Hf, list_elem_of_further.
Qed.

Lemma filter_le_one (f : nat → bool) ps i :
  NoDup ps → (∀ j, j ∈ ps → f j = true → j = i) →
  length (List.filter f ps) ≤ 1.
Proof.
  induction ps as [|a ps IH]; intros Hnd Hf; cbn; [lia|].
  apply NoDup_cons in Hnd as [Ha Hnd].
  assert (∀ j, j ∈ ps → f j = true → j = i) as Hf'.
  { intros j Hj. by apply Hf, list_elem_of_further. }
  destruct (f a) eqn:Hfa; [|by apply IH].
  assert (a = i) as -> by (by apply Hf; [apply list_elem_of_here|]).
  rewrite List_filter_nil; [cbn; lia|].
  intros b Hb. destruct (f b) eqn:Hfb; [|done].
  exfalso. apply Ha. by rewrite <- (Hf' b Hb Hfb).
Qed.

Lemma filter_unique {A} (f : A → bool) (l : list A) (x y : A) :
  length (List.filter f l) ≤ 1 → x ∈ l → y ∈ l →
  f x = true → f y = true → x = y.
Proof.
  intros Hlen Hx Hy Hfx Hfy.
  assert (x ∈ List.filter f l ∧ y ∈ List.filter f l) as [Hx' Hy'].
  { rewrite !list_elem_of_In, !filter_In, <- !list_elem_of_In. tauto. }
  destruct (List.filter f l) as [|a [|b l']]; cbn in Hlen.
  - by apply elem_of_nil in Hx'.
  - apply list_elem_of_singleton in Hx', Hy'. congruence.
  - lia.
Qed.

Lemma filter_sublist_length {A} (f : A → bool) (l l' : list A) :
  sublist l' l → length (List.filter f l') ≤ length (List.filter f l).
Proof.
  induction 1 as [|x l1 l2 _ IH|x l1 l2 _ IH]; cbn; [lia| |].
  - destruct (f x); cbn; lia.
  - destruct (f x); cbn; lia.
Qed.

(** After the flags are cleared and at most [i] is marked, the roster has
    at most one host. *)
Lemma hosts_after_mark h1 (r' : Room) ps i :
  NoDup ps → participants r' ≡ₚ ps →
  (∀ j, j ∈ ps → holds h1 isHost j = false) →
  heap r' = alter (set_isHost true) i h1 ∨ heap r' = h1 →
  length (hosts r') ≤ 1.
Proof.
  intros Hnd Hperm Hclr Hheap. unfold hosts.
  apply (filter_le_one _ _ i); [by rewrite Hperm|].
  intros j Hj Hhost. rewrite Hperm in Hj.
  destruct (decide (j = i)) as [|Hne]; [done|]. exfalso.
  destruct Hheap as [E|E]; rewrite E in Hhost.
  - unfold holds in Hhost. rewrite list_lookup_alter_ne in Hhost by done.
    specialize (Hclr j Hj). unfold holds in Hclr. congruence.
  - specialize (Hclr j Hj). congruence.
Qed.

Lemma check_at_most_one (r : Room) :
  NoDup (participants r) → length (hosts r) ≤ 1 →
  length (hosts (checkAndTransferHost r)) ≤ 1.
Proof.
  intros Hnd Hone. unfold checkAndTransferHost.
  set (h1 := foldl _ _ _).
  assert (∀ j, j ∈ participants r → holds h1 isHost j = false) as Hclr
    by (intros j; apply clear_hosts_cleared).
  destruct (match find_ref _ _ _ with Some _ => _ | None => _ end); [done|].
  destruct (0 <? length (List.filter _ _)).
  { destruct (sort_by _ _) as [|i l] eqn:Hs.
    - apply (hosts_after_mark h1 _ (participants r) 0); auto.
    - apply (hosts_after_mark h1 _ (participants r) i); auto. }
  destruct (0 <? length (participants r)).
  - destruct (sort_by _ (participants r)) as [|i l] eqn:Hs.
    + apply (hosts_after_mark h1 _ (participants r) 0); auto.
      cbn. by rewrite <- Hs, sort_by_perm.
    + apply (hosts_after_mark h1 _ (participants r) i); auto.
      cbn. by rewrite <- Hs, sort_by_perm.
  - apply (hosts_after_mark h1 _ (participants r) 0); auto.
Qed.

(** The calls of the round lifecycle leave the roster and the participant
    objects alone. *)
Lemma round_op_roster (o : op) (r : Room) :
  round_op o →
  heap (exec o r) = heap r ∧ participants (exec o r) = participants r.
Proof.
  destruct o as [u s t|s|u| | |u x|f| ]; cbn [round_op exec]; try done; intros _.
  - unfold startRound. by destruct (_ || _).
  - by destruct (submit_roster u x r) as (-> & -> & _).
  - by destruct (reveal_roster f r) as (-> & -> & _).
Qed.

Lemma hosts_exec (o : op) (r : Room) :
  room_inv r → length (hosts r) ≤ 1 → length (hosts (exec o r)) ≤ 1.
Proof.
  intros Hinv Hone.
  pose proof (inv_roster_wf _ Hinv) as Hwf.
  assert (NoDup (participants r)) as Hnd
    by (eapply NoDup_refs; [exact Hwf | apply Hinv]).
  assert (∀ o, round_op o → length (hosts (exec o r)) ≤ 1) as Hround.
  { intros o' Ho'. destruct (round_op_roster o' r Ho') as [Hh Hp].
    unfold hosts. by rewrite Hh, Hp. }
  destruct o as [u s t|s|u| | |u x|f| ]; try (by apply Hround); cbn [exec].
  - unfold addParticipant.
    destruct (find_ref _ _ _) as [i|] eqn:Hf; cbn [fst].
    + unfold hosts. cbn.
      erewrite filter_ext_in; [exact Hone|].
      intros j _. by apply holds_alter_other.
    + unfold hosts. cbn. rewrite List.filter_app, length_app.
      assert (List.filter (holds (heap r ++ [mkParticipant u s (length (participants r) =? 0) true t]) isHost)
                (participants r)
              = hosts r) as ->.
      { apply filter_ext_in. intros j Hj%list_elem_of_In. unfold holds.
        rewrite lookup_app_l; [done | by apply Hwf]. }
      cbn. unfold holds at 1. rewrite lookup_app_r, Nat.sub_diag by lia. cbn.
      destruct (participants r) as [|a l] eqn:Hps; cbn; [|lia].
      unfold hosts. rewrite Hps. cbn. lia.
  - unfold removeParticipant. destruct (find_ref _ _ _) as [i|]; [|done].
    apply check_at_most_one; [done|].
    unfold hosts. cbn. erewrite filter_ext_in; [exact Hone|].
    intros j _. by apply holds_alter_other.
  - unfold kickParticipant. destruct (findIndex _ _ _) as [k|]; cbn [fst]; [|done].
    apply check_at_most_one.
    + cbn. eapply sublist_NoDup; [exact Hnd | apply sublist_delete].
    + unfold hosts. cbn.
      etransitivity; [apply filter_sublist_length, sublist_delete | exact Hone].
  - by apply check_at_most_one.
Qed.

Lemma reachable_hosts (r : Room) : reachable r → length (hosts r) ≤ 1.
Proof.
  induction 1 as [nm|o r Hr IH]; [cbn; lia|].
  apply hosts_exec; [by apply reachable_inv | done].
Qed.

(** X5. A room the methods produced never has two hosts in its roster:
    at most one member carries [isHost], and any two members that carry
    it are the same. *)
Theorem at_most_one_host (r : Room) :
  reachable r →
  length (hosts r) ≤ 1
  ∧ ∀ i j, i ∈ participants r → j ∈ participants r →
      holds (heap r) isHost i = true → holds (heap r) isHost j = true → i = j.
Proof.
  intros Hr. pose proof (reachable_hosts r Hr) as Hone.
  split; [done|]. intros i j Hi Hj Hhi Hhj.
  by apply (filter_unique _ _ _ _ Hone).
Qed.

Lemma at_most_one_host_witness :
  length (hosts (room_abc true true)) ≤ 1.
Proof.
  apply (at_most_one_host (room_abc true true)). apply reachable_run, reach_new.
Defined.

(** With somebody online, [checkAndTransferHost] leaves exactly one host,
    and that host is online. *)
Lemma check_host_online (r : Room) :
  wf_refs (heap r) (participants r) → length (hosts r) ≤ 1 →
  (∃ j, j ∈ participants r ∧ holds (heap r) online j = true) →
  ∃ i, sole_host (checkAndTransferHost r) i
       ∧ holds (heap (checkAndTransferHost r)) online i = true.
Proof.
  intros Hwf Hone (j & Hj & Hjon). unfold checkAndTransferHost.
  destruct (match find_ref (heap r) isHost (participants r) with
            | Some i => holds (heap r) online i
            | None => false
            end) eqn:Halive.
  - (* the host is there and online *)
    destruct (find_ref (heap r) isHost (participants r)) as [i|] eqn:Hf; [|done].
    exists i. split; [|done].
    apply find_some in Hf as [Hi Hhost]. apply list_elem_of_In in Hi.
    split; [done|]. intros k Hk. split; [|by intros ->].
    intros Hkh. by apply (filter_unique _ _ _ _ Hone).
  - (* a new host is chosen among the online members *)
    clear Halive. set (h1 := foldl _ _ _).
    assert (List.filter (holds h1 online) (participants r)
            = List.filter (holds (heap r) online) (participants r)) as ->.
    { apply filter_ext_in. intros k _. apply clear_hosts_online. }
    assert (j ∈ List.filter (holds (heap r) online) (participants r)) as Hjin.
    { rewrite list_elem_of_In, filter_In, <- list_elem_of_In. done. }
    destruct (sort_by_head (time_of h1)
                (List.filter (holds (heap r) online) (participants r)))
      as (m & rest & Hs & Hm & _).
    { intros E. rewrite E in Hjin. by apply elem_of_nil in Hjin. }
    assert ((0 <? length (List.filter (holds (heap r) online) (participants r)))
            = true) as ->.
    { apply Nat.ltb_lt.
      destruct (List.filter _ _); [by apply elem_of_nil in Hjin | cbn; lia]. }
    rewrite Hs.
    apply list_elem_of_In, filter_In in Hm as [Hm Hmon].
    apply list_elem_of_In in Hm.
    exists m. split.
    + apply (mark_sole_host _ h1 (participants r) (participants r)); try done.
      * intros k. apply clear_hosts_cleared.
      * unfold h1. rewrite clear_hosts_length. by apply Hwf.
    + cbn. rewrite holds_alter_other by done.
      unfold h1. by rewrite clear_hosts_online.
Qed.

(** X6. On a room the methods produced, after [removeParticipant] has
    marked a member offline, after [kickParticipant] has removed one, and
    after [checkAndTransferHost] itself: if some member of the roster is
    still online, exactly one member is host and that member is online. *)
Theorem host_is_online_after_removal (r : Room) :
  reachable r →
  let online_host r' :=
    (∃ j, j ∈ participants r' ∧ holds (heap r') online j = true) →
    ∃ i, sole_host r' i ∧ holds (heap r') online i = true in
  online_host (checkAndTransferHost r)
  ∧ (∀ s, is_Some (find_ref (heap r) (λ p, String.eqb (socketId p) s) (participants r)) →
       online_host (removeParticipant s r))
  ∧ (∀ u, u ∈ rosterNames r → online_host (kickParticipant u r).1).
Proof.
  intros Hr. pose proof (reachable_inv _ Hr) as Hinv.
  pose proof (inv_roster_wf _ Hinv) as Hwf.
  pose proof (reachable_hosts _ Hr) as Hone.
  assert (∀ r0, wf_refs (heap r0) (participants r0) → length (hosts r0) ≤ 1 →
            (∃ j, j ∈ participants (checkAndTransferHost r0)
                  ∧ holds (heap (checkAndTransferHost r0)) online j = true) →
            ∃ i, sole_host (checkAndTransferHost r0) i
                 ∧ holds (heap (checkAndTransferHost r0)) online i = true) as Hgen.
  { intros r0 Hwf0 Hone0 (j & Hj & Hon). apply check_host_online; [done|done|].
    exists j. rewrite check_participants_perm in Hj. rewrite check_online in Hon.
    done. }
  cbv zeta. split_and!.
  - by apply Hgen.
  - intros s [i Hf]. unfold removeParticipant. rewrite Hf.
    apply Hgen.
    + intros j Hj. cbn. rewrite length_alter. by apply Hwf.
    + unfold hosts. cbn. erewrite filter_ext_in; [exact Hone|].
      intros j _. by apply holds_alter_other.
  - intros u Hu. unfold kickParticipant.
    destruct (findIndex _ _ _) as [k|] eqn:Hf; cbn [fst].
    + apply Hgen.
      * eapply wf_refs_sublist; [apply sublist_delete | done].
      * unfold hosts. cbn.
        etransitivity; [apply filter_sublist_length, sublist_delete | exact Hone].
    + exfalso. apply list_elem_of_omap in Hu as (i & Hi & Hn).
      pose proof (findIndex_None _ _ _ i Hf Hi) as Hfalse.
      apply holds_name_eqb in Hn. congruence.
Qed.

Lemma host_is_online_after_removal_witness :
  ∃ i, sole_host (removeParticipant "s2" (room_abc true true)) i
       ∧ holds (heap (removeParticipant "s2" (room_abc true true))) online i = true.
Proof.
  assert (reachable (room_abc true true)) as Hr by apply reachable_run, reach_new.
  destruct (host_is_online_after_removal _ Hr) as (_ & Hrem & _).
  apply (Hrem "s2"%string).
  - vm_compute. eauto.
  - exists 0. split; [|vm_compute; reflexivity].
    change (participants (removeParticipant "s2" (room_abc true true))) with [0; 1; 2].
    apply list_elem_of_here.
Defined.
End Hosts.

(** * The round data of reachable rooms *)

Section RoundData.
Local Open Scope Q_scope.

Lemma js_index_elem {A} (arr : list A) (x : jsnum) (a : A) :
  js_index arr x = Some a → a ∈ arr.
Proof.
  intros (q & j & _ & _ & Hj)%js_index_Some. by eapply list_elem_of_lookup_2.
Qed.

(** What a reveal that returned true went through. *)
Lemma reveal_true_inv (f : bool) (r r' : Room) :
  reveal f r = Return true r' →
  let r1 := revealed_submissions f r in
  let n := length (frozenOrder r) in
  let total := sum_values (Object_values r1) in
  let rm := js_rem (ToNumber total) (num_of_nat n) in
  phase r = input
  ∧ (f = true ∨ canReveal r = true)
  ∧ ∃ i p, js_index (frozenOrder r) (winnerIndex_of rm n) = Some i
      ∧ heap r !! i = Some p
      ∧ r' = mkRoom (roomName r) (heap r) (participants r) revealed
                    (submissions r1) (submissionKeys r1) (frozenOrder r)
                    (Some (mkResult total n rm (winnerIndex_of rm n) (submissions r1)))
                    (Some (name p)).
Proof.
  unfold reveal. case_bool_decide as Hph; [|done]. cbn [negb].
  destruct (negb f && negb (canReveal r)) eqn:Hg; [done|]. cbv zeta.
  destruct (js_index _ _) as [i|] eqn:Hi; [|done]. cbn [mbind option_bind].
  destruct (heap r !! i) as [p|] eqn:Hp; [|done].
  intros [= <-]. split; [done|]. split.
  - destruct f; [by left|]. right. by destruct (canReveal r).
  - exists i, p. done.
Qed.

Lemma one_passes (n : nat) : (1 ≤ n)%nat → passes_range_check (num_of_nat 1) n.
Proof. intros Hn. apply (range_check_int 1 n). lia. Qed.

Lemma round_inv_new nm : round_inv (newRoom nm).
Proof.
  split; cbn; try done. split; [constructor|].
  intros k. rewrite lookup_empty. split; [by intros ?%elem_of_nil|by intros [? ?]].
Qed.

(** The values the loop adds depend on [submissions] and its keys only. *)
Lemma Object_values_ext (r r' : Room) :
  submissions r' = submissions r → submissionKeys r' = submissionKeys r →
  Object_values r' = Object_values r.
Proof. intros Hs Hk. unfold Object_values, Object_keys. by rewrite Hs, Hk. Qed.

Lemma has_property_ext (r r' : Room) (k : string) :
  submissions r' = submissions r → has_property r' k = has_property r k.
Proof. intros Hs. unfold has_property. by rewrite Hs. Qed.

Lemma round_inv_same_round (r r' : Room) :
  room_inv r → same_round r r' → round_inv r → round_inv r'.
Proof.
  intros Hinv Hsame [Hl Hrg Hk Hrv].
  pose proof (same_round_frozenNames _ _ (inv_frozen_wf _ Hinv) Hsame) as Hnames.
  destruct Hsame as (_ & Hph & Hsub & Hkeys & Hfo & Hres & Hw & He).
  split.
  - rewrite Hph, Hfo, Hsub, Hkeys. apply Hl.
  - rewrite Hsub, Hfo. apply Hrg.
  - rewrite Hsub, Hkeys. apply Hk.
  - rewrite Hph, Hnames, Hfo, Hres, Hw,
      (Object_values_ext r r' Hsub Hkeys), Hsub.
    intros Hrev. destruct (Hrv Hrev) as (Hall & res & w & Hr1 & Hw1 & Hin & Hs1
      & Hc & Ht & Hi & Ha & i & p & Hidx & Hp & Hname).
    split.
    { intros u Hu. rewrite (has_property_ext r r' u Hsub). by apply Hall. }
    exists res, w. split_and!; try done.
    destruct (He i p Hp) as (p' & Hp' & Hn' & _).
    exists i, p'. split_and!; [done|done|congruence].
Qed.

Lemma revealed_submissions_range (f : bool) (r : Room) :
  room_inv r → round_inv r → phase r = input →
  ∀ k v, submissions (revealed_submissions f r) !! k = Some v →
    passes_range_check v (length (frozenOrder r)).
Proof.
  intros Hinv Hrinv Hph k v Hv. unfold revealed_submissions in Hv.
  destruct f; [|by eapply rinv_range].
  apply fill_from_lookup in Hv as [Hv|(_ & _ & ->)]; [by eapply rinv_range|].
  apply one_passes.
  assert (2 ≤ length (frozenOrder r))%nat by (apply Hinv; by rewrite Hph). lia.
Qed.

Lemma revealed_submissions_keys (f : bool) (r : Room) :
  round_inv r →
  NoDup (submissionKeys (revealed_submissions f r))
  ∧ ∀ k, k ∈ submissionKeys (revealed_submissions f r)
         ↔ is_Some (submissions (revealed_submissions f r) !! k).
Proof.
  intros Hrinv. destruct f; [|apply Hrinv].
  apply fill_from_keys, Hrinv.
Qed.

(** The room a reveal computes with keeps the round's invariant. *)
Lemma round_inv_revealed (f : bool) (r : Room) :
  room_inv r → round_inv r → phase r = input →
  round_inv (revealed_submissions f r).
Proof.
  intros Hinv Hrinv Hph.
  destruct (revealed_frame f r) as (Hn & Hh & Hp & Hph' & Hfo & Hr & Hw).
  split; rewrite ?Hph', ?Hfo, ?Hph; try done.
  - by apply revealed_submissions_range.
  - by apply revealed_submissions_keys.
Qed.

Lemma round_inv_exec (o : op) (r : Room) :
  room_inv r → round_inv r → round_inv (exec o r).
Proof.
  intros Hinv Hrinv.
  destruct o as [u s t|s|u| | |u x|f| ]; cbn [exec].
  - eapply round_inv_same_round; [done|apply add_same_round|done].
  - eapply round_inv_same_round; [done|apply remove_same_round|done].
  - eapply round_inv_same_round; [done|apply kick_same_round|done].
  - eapply round_inv_same_round; [done|apply check_same_round|done].
  - unfold startRound. destruct (_ || _); [done|]. cbn.
    split; cbn; try done. split; [constructor|].
    intros k. rewrite lookup_empty.
    split; [by intros ?%elem_of_nil|by intros [? ?]].
  - destruct (submitNumber_spec u x r) as (Hiff & Hok & Hfail).
    destruct (submitNumber u x r).2 eqn:Hb; [|by rewrite Hfail].
    rewrite Hok by done. destruct Hiff as [Hiff _].
    destruct (Hiff eq_refl) as (Hph & _ & Hx).
    destruct (assign_frame u x r) as (Hn' & Hh' & Hp' & Hph' & Hfo' & Hr' & Hw').
    split; rewrite ?Hph', ?Hfo', ?Hph; try done.
    + intros k v [Hv|(-> & -> & _)]%assign_lookup; [|done].
      by eapply rinv_range.
    + apply assign_keys, Hrinv.
  - destruct (reveal f r) as [[|] r'|r'] eqn:Hrev; cbn [final].
    + apply reveal_true_inv in Hrev as (Hph & Hguard & i & p & Hi & Hp & ->).
      pose proof (round_inv_revealed f r Hinv Hrinv Hph) as [_ Hrg Hk _].
      destruct (revealed_frame f r) as (_ & _ & _ & _ & Hfo & _).
      rewrite Hfo in Hrg.
      split; cbn; [done|done|done|].
      intros _. split.
      * intros w Hw. unfold frozenNames in Hw. cbn in Hw.
        unfold has_property. cbn. fold (has_property (revealed_submissions f r) w).
        unfold revealed_submissions. destruct Hguard as [-> | Hcan].
        -- by apply fill_from_covers.
        -- destruct f; [by apply fill_from_covers|].
           apply has_property_own. by apply (canReveal_iff r Hinv).
      * do 2 eexists. split_and!; try done.
        -- unfold frozenNames. cbn. apply list_elem_of_omap. exists i.
           rewrite Hp. split; [by eapply js_index_elem|done].
        -- by exists i, p.
    + destruct (reveal_cases f r) as [E|[[_ E]|(_ & ? & ? & E)]];
        rewrite Hrev in E; [|done|done]. by injection E as ->.
    + destruct (reveal_cases f r) as [E|[[Hph E]|(_ & ? & ? & E)]];
        rewrite Hrev in E; [done| |done]. injection E as ->.
      by apply round_inv_revealed.
  - split; cbn; try done. split; [constructor|].
    intros k. rewrite lookup_empty.
    split; [by intros ?%elem_of_nil|by intros [? ?]].
Qed.

Lemma reachable_round_inv (r : Room) : reachable r → round_inv r.
Proof.
  induction 1; [apply round_inv_new|].
  apply round_inv_exec; [by apply reachable_inv | done].
Qed.

(** X7. In a room the methods produced, no two members of the roster
    share a name or an object, and every reference of the roster and of
    the frozen roster points to an object. *)
Theorem roster_names_unique (r : Room) :
  reachable r →
  NoDup (rosterNames r)
  ∧ NoDup (participants r)
  ∧ length (rosterNames r) = length (participants r)
  ∧ length (frozenNames r) = length (frozenOrder r).
Proof.
  intros Hr. pose proof (reachable_inv _ Hr) as Hinv.
  split_and!.
  - apply Hinv.
  - eapply NoDup_refs; apply Hinv.
  - apply names_of_length, Hinv.
  - apply names_of_length, Hinv.
Qed.

Lemma roster_names_unique_witness :
  NoDup (rosterNames (room_abc true true))
  ∧ NoDup (participants (room_abc true true))
  ∧ length (rosterNames (room_abc true true)) = length (participants (room_abc true true))
  ∧ length (frozenNames (room_abc true true)) = length (frozenOrder (room_abc true true)).
Proof. apply roster_names_unique. apply reachable_run, reach_new. Defined.

(** X8. In a room the methods produced, only members of the frozen
    roster have a submission, every stored value passed the range test
    against the size of the frozen roster, and there are never more
    submissions than frozen members. *)
Theorem submissions_within_round (r : Room) :
  reachable r →
  (∀ k, is_Some (submissions r !! k) → k ∈ frozenNames r)
  ∧ (∀ k v, submissions r !! k = Some v →
       passes_range_check v (length (frozenOrder r)))
  ∧ (size (submissions r) ≤ length (frozenOrder r))%nat.
Proof.
  intros Hr. pose proof (reachable_inv _ Hr) as Hinv.
  split_and!.
  - apply Hinv.
  - apply (rinv_range _ (reachable_round_inv _ Hr)).
  - rewrite <- (names_of_length _ _ (inv_frozen_wf _ Hinv)).
    fold (frozenNames r).
    rewrite <- (size_list_to_set (C := gset string) (frozenNames r))
      by apply Hinv.
    rewrite <- size_dom. apply subseteq_size.
    intros k Hk%elem_of_dom. apply elem_of_list_to_set. by apply Hinv.
Qed.

Lemma submissions_within_round_witness :
  (∀ k, is_Some (submissions room2_fraction !! k) → k ∈ frozenNames room2_fraction)
  ∧ (∀ k v, submissions room2_fraction !! k = Some v →
       passes_range_check v (length (frozenOrder room2_fraction)))
  ∧ (size (submissions room2_fraction) ≤ length (frozenOrder room2_fraction))%nat.
Proof. apply submissions_within_round, room2_fraction_reachable. Defined.

(** X9. In a room the methods produced, the phase is [lobby] exactly
    when the frozen roster is empty; a lobby has no submissions, result
    or winner; and a round started from it and sent back with
    [backToLobby] gives the room back unchanged. *)
Theorem lobby_is_clean (r : Room) :
  reachable r →
  (phase r = lobby ↔ frozenOrder r = [])
  ∧ (phase r = lobby →
       submissions r = ∅ ∧ result r = None ∧ winner r = None
       ∧ (backToLobby (startRound r).1).1 = r).
Proof.
  intros Hr. pose proof (reachable_inv _ Hr) as Hinv.
  pose proof (reachable_round_inv _ Hr) as Hrinv.
  split.
  - split; [by apply (rinv_lobby _ Hrinv)|].
    intros Hnil. destruct (decide (phase r = lobby)) as [|Hne]; [done|].
    pose proof (inv_frozen_size _ Hinv Hne) as H2. rewrite Hnil in H2.
    cbn in H2. lia.
  - intros Hph. destruct (rinv_lobby _ Hrinv Hph) as (Hfo & Hsub & Hkeys).
    destruct (inv_result _ Hinv) as [Hres Hw]; [by rewrite Hph|].
    split_and!; try done.
    unfold startRound, backToLobby. destruct (_ || _); cbn.
    + destruct r; cbn in *. by subst.
    + destruct r; cbn in *. by subst.
Qed.

Lemma lobby_is_clean_witness :
  (phase lobby2 = lobby ↔ frozenOrder lobby2 = [])
  ∧ (backToLobby (startRound lobby2).1).1 = lobby2.
Proof.
  assert (reachable lobby2) as Hr by apply reachable_run, reach_new.
  destruct (lobby_is_clean lobby2 Hr) as (Hiff & Hrest).
  split; [exact Hiff|]. by apply Hrest.
Defined.

(** X10. In a room the methods produced, [result] and [winner] are set
    exactly in phase [revealed].  There, unless a member is named
    [__proto__], every frozen member whose name is not a property of
    [Object.prototype] has a submission; the result records the
    submissions, the size of the frozen roster, the total the summing
    loop gives on the stored values, the remainder of that total and the
    winner index computed from the remainder; the index designates a
    member of [frozenOrder] and the winner is that member's name. *)
Theorem revealed_round (r : Room) :
  reachable r →
  (phase r = revealed ↔ is_Some (result r))
  ∧ (phase r = revealed ↔ is_Some (winner r))
  ∧ (phase r = revealed →
       ("__proto__"%string ∉ frozenNames r →
        ∀ u, u ∈ frozenNames r → u ∉ Object_prototype →
          is_Some (submissions r !! u))
       ∧ ∃ res w i p,
           result r = Some res ∧ winner r = Some w
           ∧ res_submissions res = submissions r
           ∧ participantCount res = length (frozenOrder r)
           ∧ total res = sum_values (Object_values r)
           ∧ index res = js_rem (ToNumber (total res))
                                (num_of_nat (length (frozenOrder r)))
           ∧ actualWinnerIndex res
             = winnerIndex_of (index res) (length (frozenOrder r))
           ∧ js_index (frozenOrder r) (actualWinnerIndex res) = Some i
           ∧ heap r !! i = Some p
           ∧ w = name p
           ∧ w ∈ frozenNames r).
Proof.
  intros Hr. pose proof (reachable_inv _ Hr) as Hinv.
  pose proof (reachable_round_inv _ Hr) as Hrinv.
  assert (phase r ≠ revealed → result r = None ∧ winner r = None) as Hnot
    by apply Hinv.
  split_and!.
  - split.
    + intros Hph. destruct (rinv_revealed _ Hrinv Hph) as (_ & res & w & -> & _).
      eauto.
    + intros [res Hres]. destruct (decide (phase r = revealed)) as [|Hne]; [done|].
      destruct (Hnot Hne) as [E _]. congruence.
  - split.
    + intros Hph. destruct (rinv_revealed _ Hrinv Hph) as (_ & res & w & _ & -> & _).
      eauto.
    + intros [w Hw]. destruct (decide (phase r = revealed)) as [|Hne]; [done|].
      destruct (Hnot Hne) as [_ E]. congruence.
  - intros Hph.
    destruct (rinv_revealed _ Hrinv Hph) as (Hall & res & w & Hr1 & Hw1 & Hin & Hs1
      & Hc & Ht & Hi & Ha & i & p & Hidx & Hp & Hname).
    split.
    + intros _ u Hu Hplain.
      by destruct (proj1 (has_property_spec r u) (Hall u Hu)).
    + exists res, w, i, p. split_and!; done.
Qed.

Lemma revealed_round_witness :
  (total <$> result (final (reveal false room2_strings)) = Some (VStr "012")
   ∧ winner (final (reveal false room2_strings)) = Some "B"%string)
  ∧ (total <$> result (final (reveal true room_toString))
     = Some (VNum (num_of_nat 1))
     ∧ winner (final (reveal true room_toString)) = Some "toString"%string
     ∧ submissions (final (reveal true room_toString)) !! "toString"%string
       = None).
Proof.
  assert (∀ f r, reachable r → phase (final (reveal f r)) = revealed →
            total <$> result (final (reveal f r))
            = Some (sum_values (Object_values (final (reveal f r))))) as Htotal.
  { intros f r Hr Hph.
    destruct (revealed_round _ (reach_step (OpReveal f) r Hr)) as (_ & _ & Hrev).
    destruct (Hrev Hph) as (_ & res & w & i & p & Hres & _ & _ & _ & Htot & _).
    cbn [exec] in Hres. rewrite Hres. cbn. by rewrite Htot. }
  split.
  - split; [|vm_compute; reflexivity].
    rewrite Htotal; [vm_compute; reflexivity| |vm_compute; reflexivity].
    apply reachable_run, reachable_run, reach_new.
  - split; [|split; vm_compute; reflexivity].
    rewrite Htotal; [vm_compute; reflexivity| |vm_compute; reflexivity].
    apply reachable_run, reach_new.
Defined.


End RoundData.

(** * How the round calls compose *)

Section RoundCalls.
Local Open Scope Q_scope.

Lemma assign_frozenNames (u : string) (x : jsval) (r : Room) :
  frozenNames (assign u x r) = frozenNames r.
Proof.
  unfold frozenNames. by destruct (assign_frame u x r) as (_ & -> & _ & _ & -> & _).
Qed.

(** Whether a submission is accepted does not depend on what has been
    submitted before. *)
Lemma accept_after_submit (u v : string) (x y : jsval) (r : Room) :
  (submitNumber u y (submitNumber v x r).1).2 = (submitNumber u y r).2.
Proof.
  destruct (submitNumber_spec v x r) as (_ & Hok & Hfail).
  destruct (submitNumber v x r).2; [|by rewrite Hfail].
  rewrite Hok by done.
  destruct (submitNumber_spec u y r) as (H1 & _ & _).
  destruct (submitNumber_spec u y (assign v x r)) as (H2 & _ & _).
  apply eq_true_iff_eq. rewrite H1, H2, assign_frozenNames.
  by destruct (assign_frame v x r) as (_ & _ & _ & -> & -> & _).
Qed.

(** A second assignment under the same key replaces the first and keeps
    the key's place. *)
Lemma assign_assign (u : string) (x y : jsval) (r : Room) :
  assign u y (assign u x r) = assign u y r.
Proof.
  unfold assign. destruct (String.eqb u "__proto__") eqn:E; rewrite ?E; [done|].
  cbn. rewrite lookup_insert_eq, insert_insert_eq.
  rewrite (bool_decide_eq_true_2 (is_Some (Some x))) by eauto. done.
Qed.

(** X12. Submitting twice under one name: the second call is accepted
    exactly when it would have been accepted alone; if it is, the room is
    the one the second call alone would give (the earlier value is
    overwritten); if it is rejected, the earlier call's room stays. *)
Theorem resubmission_overwrites (u : string) (x y : jsnum) (r : Room) :
  (submitNumber u y (submitNumber u x r).1).2 = (submitNumber u y r).2
  ∧ (if (submitNumber u y r).2
     then (submitNumber u y (submitNumber u x r).1).1 = (submitNumber u y r).1
     else (submitNumber u y (submitNumber u x r).1).1 = (submitNumber u x r).1).
Proof.
  split; [apply accept_after_submit|].
  pose proof (accept_after_submit u u x y r) as Hacc.
  destruct (submitNumber_spec u y (submitNumber u x r).1) as (_ & Hok2 & Hfail2).
  destruct (submitNumber_spec u y r) as (_ & Hok & Hfail).
  destruct (submitNumber u y r).2.
  - rewrite Hok2, Hok by done.
    destruct (submitNumber_spec u x r) as (_ & Hok1 & Hfail1).
    destruct (submitNumber u x r).2; [|by rewrite Hfail1].
    rewrite Hok1 by done. apply assign_assign.
  - by apply Hfail2.
Qed.





(** X14. [startRound], [submitNumber], [reveal] (returning or throwing)
    and [backToLobby] never touch the roster, the participant objects or
    the room's name. *)
Theorem round_calls_keep_roster (r : Room) :
  let same r' :=
    heap r' = heap r ∧ participants r' = participants r
    ∧ roomName r' = roomName r in
  same (startRound r).1
  ∧ (∀ u x, same (submitNumber u x r).1)
  ∧ (∀ f, same (final (reveal f r)))
  ∧ same (backToLobby r).1.
Proof.
  cbv zeta. split_and!; try done.
  - unfold startRound. by destruct (_ || _).
  - unfold startRound. by destruct (_ || _).
  - unfold startRound. by destruct (_ || _).
  - intros u x. apply submit_roster.
  - intros f. apply reveal_roster.
Qed.











(** X26. A reveal that returns true on a round whose submissions, taken
    in the order of [Object.values], are the integers [zs], none
    negative and of a sum [t] below [2^53], where every partial sum is
    exact: the total recorded is [t], the remainder [t mod n], the
    winner the member at position [n - 1] of the frozen roster when the
    remainder is 0 and at position [remainder - 1] otherwise; [result]
    holds the total, [n], the remainder, that position and the
    submissions, and the phase is [revealed].  For [n = 4] a total of 9
    selects position 0, 8 position 3 and 10 position 1. *)
Theorem reveal_on_integers (force : bool) (r r' : Room) (zs : list Z) :
  reveal force r = Return true r' →
  Forall2 is_integer (Object_values (revealed_submissions force r)) zs →
  Forall (λ z, (0 ≤ z)%Z) zs →
  (Zsum zs < 2 ^ 53)%Z →
  let n := length (frozenOrder r) in
  let t := Zsum zs in
  let rem := (t mod Z.of_nat n)%Z in
  ∃ (res : Result) (w i : nat) (p : Participant),
    Z.of_nat w = (if (rem =? 0)%Z then Z.of_nat n - 1 else rem - 1)%Z
    ∧ frozenOrder r !! w = Some i
    ∧ heap r !! i = Some p
    ∧ winner r' = Some (name p)
    ∧ phase r' = revealed
    ∧ result r' = Some res
    ∧ total res = VNum (num_of_Z t)
    ∧ participantCount res = n
    ∧ is_integer (VNum (index res)) rem
    ∧ is_integer (VNum (actualWinnerIndex res)) (Z.of_nat w)
    ∧ res_submissions res = submissions r'
    ∧ submissions r' = submissions (revealed_submissions force r)
    ∧ (n = 4%nat →
         (t = 9%Z → w = 0%nat) ∧ (t = 8%Z → w = 3%nat) ∧ (t = 10%Z → w = 1%nat)).
Proof.
  intros Hrev Hints Hpos _ n t rem.
  assert (0 ≤ Zsum zs)%Z as Ht.
  { clear -Hpos. induction Hpos as [|z zs Hz _ IH]; [done|].
    unfold Zsum in *. cbn. lia. }
  destruct (reveal_success_result force r r' Hrev)
    as (wq & w & i & p & Hwi & Hwq & Hw & Hi & Hp & Hr' & _).
  pose proof (sum_values_integers _ _ Hints) as Hsum. fold t in Hsum.
  destruct (js_rem_int (inject_Z t) t n) as (rm & Hrem & Hrm); [done|done|lia|].
  assert (js_rem (ToNumber (sum_values
                    (Object_values (revealed_submissions force r))))
                 (num_of_nat (length (frozenOrder r))) = Num rm) as Htot
    by (rewrite Hsum; exact Hrem).
  rewrite Htot in Hwi, Hr'. rewrite Hsum in Hr'. fold n in Hwi, Hr'.
  rewrite (winnerIndex_of_int rm rem n Hrm) in Hwi.
  injection Hwi as Hwi. rewrite <- Hwi in Hwq.
  apply (proj1 (inject_Z_injective _ _)) in Hwq. symmetry in Hwq. subst r'.
  eexists _, w, i, p.
  cbn [winner phase result total participantCount index actualWinnerIndex
       res_submissions submissions].
  split_and!; try done.
  - unfold is_integer. cbn. by eexists.
  - unfold is_integer. cbn. eexists. split; [done|]. by rewrite <- Hwi, <- Hwq.
  - intros Hn. subst rem. rewrite Hn in Hwq.
    split_and!; intros Ht'; rewrite Ht' in Hwq.
    + assert (Z.of_nat w = 0)%Z by (rewrite Hwq; reflexivity). lia.
    + assert (Z.of_nat w = 3)%Z by (rewrite Hwq; reflexivity). lia.
    + assert (Z.of_nat w = 1)%Z by (rewrite Hwq; reflexivity). lia.
Qed.

Lemma reveal_on_integers_witness :
  winner (final (reveal false (room4_with 3 3 2 1))) = Some "A"%string
  ∧ total <$> result (final (reveal false (room4_with 3 3 2 1)))
    = Some (VNum (num_of_Z 9)).
Proof.
  assert (reveal false (room4_with 3 3 2 1)
          = Return true (final (reveal false (room4_with 3 3 2 1)))) as H
    by (vm_compute; reflexivity).
  assert (Forall2 is_integer
            (Object_values (revealed_submissions false (room4_with 3 3 2 1)))
            [3; 3; 2; 1]%Z) as Hints.
  { assert (Object_values (revealed_submissions false (room4_with 3 3 2 1))
            = [VNum (num_of_Z 3); VNum (num_of_Z 3); VNum (num_of_Z 2);
               VNum (num_of_Z 1)]) as -> by (vm_compute; reflexivity).
    repeat constructor; eexists; (split; [reflexivity|reflexivity]). }
  destruct (reveal_on_integers false _ _ [3; 3; 2; 1]%Z H Hints)
    as (res & w & i & p & _ & Hi & Hp & Hwin & _ & Hres & Htot & _ & _ & _ & _ & _
        & Hfour); [repeat constructor; lia|reflexivity|].
  destruct (Hfour eq_refl) as (Hnine & _ & _).
  rewrite (Hnine eq_refl) in Hi. vm_compute in Hi. injection Hi as <-.
  vm_compute in Hp. injection Hp as <-.
  split; [exact Hwin|]. rewrite Hres. cbn. by rewrite Htot.
Defined.

(** X27. A forced reveal passes over a silent member whose name is a
    property that [submissions] inherits: in the round of toString and B
    where nobody has submitted, [reveal(true)] gives the value 1 to B
    only, the total is 1, the remainder 1, and the winner is toString,
    at position 0. *)
Theorem forced_reveal_skips_inherited_name :
  reachable room_toString
  ∧ phase room_toString = input
  ∧ frozenNames room_toString = ["toString"; "B"]%string
  ∧ submissions room_toString = ∅
  ∧ has_property room_toString "toString" = true
  ∧ ∃ r' res,
      reveal true room_toString = Return true r'
      ∧ phase r' = revealed
      ∧ submissions r' !! "toString"%string = None
      ∧ submissions r' !! "B"%string = Some (VNum (num_of_nat 1))
      ∧ Object_values r' = [VNum (num_of_nat 1)]
      ∧ result r' = Some res
      ∧ total res = VNum (num_of_nat 1)
      ∧ participantCount res = 2%nat
      ∧ index res = num_of_nat 1
      ∧ actualWinnerIndex res = num_of_nat 0
      ∧ winner r' = Some "toString"%string.
Proof.
  split; [apply reachable_run, reach_new|].
  split; [vm_compute; reflexivity|].
  split; [vm_compute; reflexivity|].
  split; [vm_compute; reflexivity|].
  split; [vm_compute; reflexivity|].
  exists (final (reveal true room_toString)).
  eexists. split; [vm_compute; reflexivity|].
  split; [vm_compute; reflexivity|].
  split; [vm_compute; reflexivity|].
  split; [vm_compute; reflexivity|].
  split; [vm_compute; reflexivity|].
  split; [vm_compute; reflexivity|].
  split_and!; vm_compute; reflexivity.
Qed.

(** [submitNumber] without a number: [undefined] is neither below 1
    nor above [n], so in phase [input] the call of a frozen member
    returns true and stores [undefined] under the name. *)
Lemma submitNumber_accepts_undefined (u : string) (r : Room) :
  phase r = input → u ∈ frozenNames r →
  (submitNumber u VUndefined r).2 = true
  ∧ (submitNumber u VUndefined r).1 = assign u VUndefined r
  ∧ (u ≠ "__proto__"%string →
       submissions (submitNumber u VUndefined r).1 !! u = Some VUndefined).
Proof.
  intros Hph Hu.
  destruct (submitNumber_spec u VUndefined r) as (Hacc & Hok & _).
  assert ((submitNumber u VUndefined r).2 = true) as Htrue.
  { apply Hacc. split_and!; [done|done|]. by split. }
  split_and!; [done|by apply Hok|].
  intros Hne. rewrite (Hok Htrue), (assign_plain u VUndefined r Hne). cbn.
  apply lookup_insert_eq.
Qed.

(** X28. The winner depends on the order in which the numbers come in
    when they come as strings: with ['1'] from A and ['2'] from B the
    stored submissions are the same in both orders, but A before B gives
    the total ['012'] and the winner B, B before A the total ['021'] and
    the winner A. *)
Theorem winner_depends_on_submission_order :
  reachable room2_strings ∧ reachable room2_strings_swapped
  ∧ submissions room2_strings = submissions room2_strings_swapped
  ∧ frozenOrder room2_strings = frozenOrder room2_strings_swapped
  ∧ Object_values room2_strings = [VStr "1"; VStr "2"]
  ∧ Object_values room2_strings_swapped = [VStr "2"; VStr "1"]
  ∧ ∃ r1 r2 res1 res2,
      reveal false room2_strings = Return true r1
      ∧ result r1 = Some res1
      ∧ total res1 = VStr "012"
      ∧ winner r1 = Some "B"%string
      ∧ reveal false room2_strings_swapped = Return true r2
      ∧ result r2 = Some res2
      ∧ total res2 = VStr "021"
      ∧ winner r2 = Some "A"%string.
Proof.
  split; [apply reachable_run, reachable_run, reach_new|].
  split; [apply reachable_run, reachable_run, reach_new|].
  split; [vm_compute; reflexivity|].
  split; [vm_compute; reflexivity|].
  split; [vm_compute; reflexivity|].
  split; [vm_compute; reflexivity|].
  exists (final (reveal false room2_strings)),
         (final (reveal false room2_strings_swapped)).
  eexists. eexists.
  split; [vm_compute; reflexivity|].
  split; [vm_compute; reflexivity|].
  split; [vm_compute; reflexivity|].
  split; [vm_compute; reflexivity|].
  split; [vm_compute; reflexivity|].
  split; [vm_compute; reflexivity|].
  split; vm_compute; reflexivity.
Qed.

(** X29. Keys that are array indices are summed first, in ascending
    order, whatever the order of the submissions: the players are named
    10 and 9, 10 sends ['1'] and then 9 sends ['2'];
    [Object.values] gives ['2'] before ['1'], the total is ['021'] and
    the winner is the player named 10. *)
Theorem numeric_names_are_summed_first :
  reachable room_numeric_names
  ∧ frozenNames room_numeric_names = ["10"; "9"]%string
  ∧ submissionKeys room_numeric_names = ["10"; "9"]%string
  ∧ Object_keys room_numeric_names = ["9"; "10"]%string
  ∧ Object_values room_numeric_names = [VStr "2"; VStr "1"]
  ∧ ∃ r' res,
      reveal false room_numeric_names = Return true r'
      ∧ result r' = Some res
      ∧ total res = VStr "021"
      ∧ index res = num_of_Z 1
      ∧ actualWinnerIndex res = num_of_Z 0
      ∧ winner r' = Some "10"%string.
Proof.
  split; [apply reachable_run, reach_new|].
  split; [vm_compute; reflexivity|].
  split; [vm_compute; reflexivity|].
  split; [vm_compute; reflexivity|].
  split; [vm_compute; reflexivity|].
  exists (final (reveal false room_numeric_names)). eexists.
  split; [vm_compute; reflexivity|].
  split; [vm_compute; reflexivity|].
  split; [vm_compute; reflexivity|].
  split; [vm_compute; reflexivity|].
  split; vm_compute; reflexivity.
Qed.

(** X30. With numbers that are not integers the total depends on the
    order of the additions, each of which rounds: A and B have sent
    [1 + 2^-52] and C has sent 1.  Summed as A, B, C the total is
    [3 + 2^-51], the remainder [2^-51], the winner index
    [2^-51 - 1], and [reveal] throws; summed as A, C, B the total is 3
    and C wins.  The stored submissions are the same. *)
Theorem total_depends_on_order_of_additions :
  reachable (room3_doubles false) ∧ reachable (room3_doubles true)
  ∧ submissions (room3_doubles false) = submissions (room3_doubles true)
  ∧ Object_keys (room3_doubles false) = ["A"; "B"; "C"]%string
  ∧ Object_keys (room3_doubles true) = ["A"; "C"; "B"]%string
  ∧ canReveal (room3_doubles false) = true
  ∧ canReveal (room3_doubles true) = true
  ∧ (∃ t rm wi : Q,
       sum_values (Object_values (room3_doubles false)) = VNum (Num t)
       ∧ t == 6755399441055745 # 2251799813685248
       ∧ js_rem (Num t) (num_of_nat 3) = Num rm
       ∧ rm == 1 # 2251799813685248
       ∧ winnerIndex_of (Num rm) 3 = Num wi
       ∧ wi == - (2251799813685247 # 2251799813685248))
  ∧ reveal false (room3_doubles false) = Throw (room3_doubles false)
  ∧ ∃ r' res,
      reveal false (room3_doubles true) = Return true r'
      ∧ result r' = Some res
      ∧ total res = VNum (num_of_Z 3)
      ∧ winner r' = Some "C"%string.
Proof.
  split; [apply reachable_run, reachable_run, reach_new|].
  split; [apply reachable_run, reachable_run, reach_new|].
  split; [vm_compute; reflexivity|].
  split; [vm_compute; reflexivity|].
  split; [vm_compute; reflexivity|].
  split; [vm_compute; reflexivity|].
  split; [vm_compute; reflexivity|].
  split.
  { exists (6755399441055745 # 2251799813685248),
           (1 # 2251799813685248),
           (- (2251799813685247 # 2251799813685248)).
    split_and!; (vm_compute; reflexivity). }
  split; [vm_compute; reflexivity|].
  exists (final (reveal false (room3_doubles true))). eexists.
  split; [vm_compute; reflexivity|].
  split; [vm_compute; reflexivity|].
  split; vm_compute; reflexivity.
Qed.
End RoundCalls.

(** * The registry and the handlers *)

Section Handlers.

Lemma resolve_session s sid cr cu room :
  resolve s sid = Some (cr, cu, room) →
  currentRoom (session_of s sid) = Some cr
  ∧ currentUser (session_of s sid) = Some cu
  ∧ rooms s !! cr = Some room.
Proof.
  unfold resolve.
  destruct (currentRoom _) as [cr'|]; [|done].
  destruct (currentUser _) as [cu'|]; [|done].
  destruct (_ && _); [|done].
  destruct (rooms s !! cr') eqn:E; [|done]. cbn. by intros [= <- <- <-].
Qed.

Lemma put_room_same s cr room :
  rooms s !! cr = Some room → put_room cr room s = s.
Proof.
  intros H. unfold put_room. rewrite insert_id by done. by destruct s.
Qed.

Lemma exec_roomName (o : op) (r : Room) : roomName (exec o r) = roomName r.
Proof.
  destruct o as [u s t|s|u| | |u x|f| ]; cbn [exec].
  - apply add_same_round.
  - apply remove_same_round.
  - apply kick_same_round.
  - apply check_same_round.
  - unfold startRound. by destruct (_ || _).
  - apply submit_roster.
  - apply reveal_roster.
  - done.
Qed.

Lemma handleDisconnect_rooms (sid : string) (s : Server) (k : string) (room' : Room) :
  rooms (handleDisconnect sid s) !! k = Some room' →
  rooms s !! k = Some room'
  ∨ ∃ o room, room' = exec o room
              ∧ (rooms s !! k = Some room
                 ∨ rooms s !! k = None ∧ room = newRoom k).
Proof.
  unfold handleDisconnect.
  destruct (resolve s sid) as [[[cr cu] room]|] eqn:Hres; [|by left].
  apply resolve_Some in Hres. cbn.
  destruct (isEmpty (removeParticipant sid room)).
  - intros [_ Hk]%lookup_delete_Some. by left.
  - destruct (decide (cr = k)) as [<-|Hne].
    + rewrite lookup_insert_eq. intros [= <-]. right.
      exists (OpRemove sid), room. split; [done | by left].
    + rewrite lookup_insert_ne by done. by left.
Qed.

(** Every handler leaves each room either as it was or as one call on it
    (or on a new room) left it. *)
Lemma handle_rooms (e : event) (s : Server) (k : string) (room' : Room) :
  rooms (handle e s) !! k = Some room' →
  rooms s !! k = Some room'
  ∨ ∃ o room, room' = exec o room
              ∧ (rooms s !! k = Some room
                 ∨ rooms s !! k = None ∧ room = newRoom k).
Proof.
  assert (∀ sid (f : Room → Room) (g : string → Room → bool) (o : op),
            (∀ r, f r = exec o r) →
            rooms match resolve s sid with
                  | Some (cr, cu, room) =>
                      if g cu room then put_room cr (f room) s else s
                  | None => s
                  end !! k = Some room' →
            rooms s !! k = Some room'
            ∨ ∃ o room, room' = exec o room
                        ∧ (rooms s !! k = Some room
                           ∨ rooms s !! k = None ∧ room = newRoom k)) as Hput.
  { intros sid f g o Hf.
    destruct (resolve s sid) as [[[cr cu] room]|] eqn:Hres; [|by left].
    destruct (g cu room); [|by left]. apply resolve_Some in Hres. cbn.
    destruct (decide (cr = k)) as [<-|Hne].
    - rewrite lookup_insert_eq. intros [= <-]. right. exists o, room.
      split; [apply Hf | by left].
    - rewrite lookup_insert_ne by done. by left. }
  assert (∀ sid (f : bool),
            rooms match resolve s sid with
                  | Some (cr, cu, room) =>
                      if callerIsHost room cu
                      then after_reveal cr (reveal f room) s else s
                  | None => s
                  end !! k = Some room' →
            rooms s !! k = Some room'
            ∨ ∃ o room, room' = exec o room
                        ∧ (rooms s !! k = Some room
                           ∨ rooms s !! k = None ∧ room = newRoom k)) as Hrev.
  { intros sid f.
    destruct (resolve s sid) as [[[cr cu] room]|] eqn:Hres; [|by left].
    destruct (callerIsHost room cu); [|by left]. apply resolve_Some in Hres.
    destruct (reveal f room) as [b room1|room1] eqn:Hr; cbn.
    - destruct (decide (cr = k)) as [<-|Hne].
      + rewrite lookup_insert_eq. intros [= <-]. right. exists (OpReveal f), room.
        split; [by cbn; rewrite Hr | by left].
      + rewrite lookup_insert_ne by done. by left.
    - by rewrite lookup_empty. }
  unfold handle. destruct (running s); cbn [negb]; [|by left].
  destruct e as [sid rn un now|sid|sid x|sid|sid|sid|sid un|sid|sid].
  - unfold on_joinRoom. destruct (_ || _); [by left|]. cbv zeta.
    destruct (rooms s !! rn) as [room|] eqn:Hroom.
    + rewrite Hroom. destruct (_ && _); [by left|]. cbn.
      destruct (decide (rn = k)) as [<-|Hne].
      * rewrite lookup_insert_eq. intros [= <-]. right.
        exists (OpAdd un sid now), room. split; [done | by left].
      * rewrite lookup_insert_ne by done. by left.
    + case_bool_decide as Hin.
      { rewrite Hroom. cbn. by rewrite lookup_empty. }
      assert (<[rn := newRoom rn]> (rooms s) !! rn = Some (newRoom rn)) as ->
        by apply lookup_insert_eq.
      cbn. rewrite bool_decide_eq_true_2 by done. cbn.
      rewrite insert_insert_eq.
      destruct (decide (rn = k)) as [<-|Hne].
      * rewrite lookup_insert_eq. intros [= <-]. right.
        exists (OpAdd un sid now), (newRoom rn). split; [done | by right].
      * rewrite lookup_insert_ne by done. by left.
  - apply (Hput sid (λ r, (startRound r).1) (λ cu room, callerIsHost room cu) OpStart).
    done.
  - unfold on_submitNumber.
    destruct (resolve s sid) as [[[cr cu] room]|] eqn:Hres; [|by left].
    apply resolve_Some in Hres. cbn.
    destruct (decide (cr = k)) as [<-|Hne].
    + rewrite lookup_insert_eq. intros [= <-]. right.
      exists (OpSubmit cu x), room. split; [done | by left].
    + rewrite lookup_insert_ne by done. by left.
  - apply Hrev.
  - apply Hrev.
  - apply (Hput sid (λ r, (backToLobby r).1) (λ cu room, callerIsHost room cu) OpBack).
    done.
  - unfold on_kickUser.
    destruct (resolve s sid) as [[[cr cu] room]|] eqn:Hres; [|by left].
    destruct (callerIsHost room cu); [|by left].
    destruct (negb _); [by left|]. apply resolve_Some in Hres. cbn.
    destruct (decide (cr = k)) as [<-|Hne].
    + rewrite lookup_insert_eq. intros [= <-]. right.
      exists (OpKick un), room. split; [done | by left].
    + rewrite lookup_insert_ne by done. by left.
  - apply handleDisconnect_rooms.
  - apply handleDisconnect_rooms.
Qed.

(** The handlers never register a room, nor set the current room of a
    connection, under a name inherited from [Object.prototype]. *)
Lemma plain_server_handle (e : event) (s : Server) :
  plain_server s → plain_server (handle e s).
Proof.
  intros [Hrooms Hsess].
  assert (∀ cr room, is_Some (rooms s !! cr) → plain_server (put_room cr room s))
    as Hput.
  { intros cr room Hcr. split; [|done]. intros k. cbn.
    destruct (decide (cr = k)) as [<-|Hne]; [by intros _; apply Hrooms|].
    rewrite lookup_insert_ne by done. apply Hrooms. }
  assert (plain_server crashed) as Hcrash.
  { split; [intros k [? Hk] | intros sid ses k Hk]; cbn in Hk;
      by rewrite lookup_empty in Hk. }
  assert (∀ sid, plain_server (handleDisconnect sid s)) as Hdis.
  { intros sid. unfold handleDisconnect.
    destruct (resolve s sid) as [[[cr cu] room]|] eqn:Hres; [|done].
    apply resolve_Some in Hres. split; cbn.
    - intros k. destruct (isEmpty _).
      + destruct (decide (cr = k)) as [<-|Hne];
          [by rewrite lookup_delete_eq; intros [? ?]|].
        rewrite lookup_delete_ne by done. apply Hrooms.
      + destruct (decide (cr = k)) as [<-|Hne];
          [intros _; apply Hrooms; by rewrite Hres|].
        rewrite lookup_insert_ne by done. apply Hrooms.
    - intros sid' ses k. destruct (decide (sid = sid')) as [<-|Hne].
      + rewrite lookup_insert_eq. by intros [= <-].
      + rewrite lookup_insert_ne by done. apply Hsess. }
  assert (∀ sid (f : Room → Room) (g : string → Room → bool),
            plain_server match resolve s sid with
                         | Some (cr, cu, room) =>
                             if g cu room then put_room cr (f room) s else s
                         | None => s
                         end) as Hstep.
  { intros sid f g.
    destruct (resolve s sid) as [[[cr cu] room]|] eqn:Hres; [|done].
    destruct (g cu room); [|done]. apply Hput.
    apply resolve_Some in Hres. by rewrite Hres. }
  assert (∀ sid (f : bool),
            plain_server match resolve s sid with
                         | Some (cr, cu, room) =>
                             if callerIsHost room cu
                             then after_reveal cr (reveal f room) s else s
                         | None => s
                         end) as Hrev.
  { intros sid f.
    destruct (resolve s sid) as [[[cr cu] room]|] eqn:Hres; [|done].
    destruct (callerIsHost room cu); [|done].
    destruct (reveal f room); cbn [after_reveal]; [|done]. apply Hput.
    apply resolve_Some in Hres. by rewrite Hres. }
  unfold handle. destruct (running s); cbn [negb]; [|done].
  destruct e as [sid rn un now|sid|sid x|sid|sid|sid|sid un|sid|sid].
  - unfold on_joinRoom. destruct (_ || _); [done|]. cbv zeta.
    assert (∀ rooms1 room1,
              (∀ k, is_Some (rooms1 !! k) → k ∉ Object_prototype) →
              is_Some (rooms1 !! rn) →
              plain_server
                (mkServer (<[rn := room1]> rooms1)
                   (<[sid := mkSession (Some rn) (Some un)]> (sessions s))
                   (running s))) as Hjoin.
    { intros rooms1 room1 Hplain Hrn. split; cbn.
      - intros k. destruct (decide (rn = k)) as [<-|Hne]; [by intros _; apply Hplain|].
        rewrite lookup_insert_ne by done. apply Hplain.
      - intros sid' ses k. destruct (decide (sid = sid')) as [<-|Hne].
        + rewrite lookup_insert_eq. intros [= <-]. cbn. intros [= <-].
          by apply Hplain.
        + rewrite lookup_insert_ne by done. apply Hsess. }
    destruct (rooms s !! rn) as [room|] eqn:Hroom.
    + rewrite Hroom. destruct (_ && _); [done|].
      apply Hjoin; [done | by rewrite Hroom].
    + case_bool_decide as Hin; [by rewrite Hroom|].
      assert (∀ k, is_Some (<[rn := newRoom rn]> (rooms s) !! k) →
                   k ∉ Object_prototype) as Hplain1.
      { intros k. destruct (decide (rn = k)) as [<-|Hne]; [done|].
        rewrite lookup_insert_ne by done. apply Hrooms. }
      rewrite lookup_insert_eq. destruct (_ && _); [done|].
      apply Hjoin; [done | by rewrite lookup_insert_eq].
  - apply (Hstep sid (λ r, (startRound r).1) (λ cu room, callerIsHost room cu)).
  - unfold on_submitNumber.
    destruct (resolve s sid) as [[[cr cu] room]|] eqn:Hres; [|done].
    apply Hput. apply resolve_Some in Hres. by rewrite Hres.
  - apply Hrev.
  - apply Hrev.
  - apply (Hstep sid (λ r, (backToLobby r).1) (λ cu room, callerIsHost room cu)).
  - unfold on_kickUser.
    destruct (resolve s sid) as [[[cr cu] room]|] eqn:Hres; [|done].
    destruct (callerIsHost room cu); [|done].
    destruct (negb _); [done|]. apply Hput.
    apply resolve_Some in Hres. by rewrite Hres.
  - apply Hdis.
  - apply Hdis.
Qed.

Lemma server_reachable_plain (s : Server) :
  server_reachable s → plain_server s.
Proof.
  induction 1 as [|e s _ IH]; [|by apply plain_server_handle].
  split; [intros k [? Hk] | intros sid ses k Hk]; cbn in Hk;
    by rewrite lookup_empty in Hk.
Qed.

(** X17. Every room of a registry the handlers produced was produced by
    the methods of [Room] from a new room, and it is registered under its
    own name. *)
Theorem registry_rooms_are_reachable (s : Server) :
  server_reachable s →
  ∀ k room, rooms s !! k = Some room → reachable room ∧ roomName room = k.
Proof.
  induction 1 as [|e s Hs IH]; intros k room' Hk.
  { cbn in Hk. by rewrite lookup_empty in Hk. }
  apply handle_rooms in Hk as [Hk|(o & room & -> & [Hk|[_ ->]])].
  - by apply IH.
  - destruct (IH _ _ Hk) as [Hr Hn]. split; [by constructor|].
    by rewrite exec_roomName.
  - split; [constructor; constructor|]. by rewrite exec_roomName.
Qed.

Lemma server_ab_reachable : server_reachable server_ab.
Proof. unfold server_ab. cbn [serve foldl]. do 2 constructor. constructor. Qed.

Lemma registry_rooms_are_reachable_witness :
  ∃ room, rooms server_ab !! "R"%string = Some room
          ∧ reachable room ∧ roomName room = "R"%string.
Proof.
  eexists. split; [vm_compute; reflexivity|].
  apply (registry_rooms_are_reachable server_ab server_ab_reachable).
  vm_compute. reflexivity.
Defined.

(** What an event does to a running server: at the events listed in
    [crashes] the handler throws; at any other the server keeps running
    and only the room the event is about and the sender's variables can
    have changed. *)
Lemma handle_cases (e : event) (s : Server) :
  running s = true →
  (crashes e s → handle e s = crashed)
  ∧ (¬ crashes e s →
       running (handle e s) = true
       ∧ (∀ k, target_room e s ≠ Some k → rooms (handle e s) !! k = rooms s !! k)
       ∧ (∀ sid, sid ≠ sender e →
            sessions (handle e s) !! sid = sessions s !! sid)).
Proof.
  intros Hrun.
  assert (∀ sid (f : Room → Room) (g : string → Room → bool),
            let s' := match resolve s sid with
                      | Some (cr, cu, room) =>
                          if g cu room then put_room cr (f room) s else s
                      | None => s
                      end in
            running s' = true
            ∧ (∀ k, currentRoom (session_of s sid) ≠ Some k →
                 rooms s' !! k = rooms s !! k)
            ∧ (∀ sid', sid' ≠ sid → sessions s' !! sid' = sessions s !! sid')) as Hput.
  { intros sid f g. cbv zeta.
    destruct (resolve s sid) as [[[cr cu] room]|] eqn:Hres; [|done].
    destruct (g cu room); [|done].
    apply resolve_session in Hres as (Hcr & _ & _).
    split_and!; [done| |done]. intros k Hk. cbn. rewrite lookup_insert_ne; [done|].
    congruence. }
  assert (∀ sid,
            running (handleDisconnect sid s) = true
            ∧ (∀ k, currentRoom (session_of s sid) ≠ Some k →
               rooms (handleDisconnect sid s) !! k = rooms s !! k)
            ∧ (∀ sid', sid' ≠ sid →
                 sessions (handleDisconnect sid s) !! sid' = sessions s !! sid')) as Hdis.
  { intros sid. unfold handleDisconnect.
    destruct (resolve s sid) as [[[cr cu] room]|] eqn:Hres; [|done].
    apply resolve_session in Hres as (Hcr & _ & _). split_and!; [done| |].
    - intros k Hk. cbn. assert (cr ≠ k) by congruence.
      destruct (isEmpty _);
        [by rewrite lookup_delete_ne | by rewrite lookup_insert_ne].
    - intros sid' Hne. cbn. by rewrite lookup_insert_ne. }
  assert (∀ sid (f : bool),
            let s' := match resolve s sid with
                      | Some (cr, cu, room) =>
                          if callerIsHost room cu
                          then after_reveal cr (reveal f room) s else s
                      | None => s
                      end in
            let throws := ∃ cr cu room r', resolve s sid = Some (cr, cu, room)
                                           ∧ callerIsHost room cu = true
                                           ∧ reveal f room = Throw r' in
            (throws → s' = crashed)
            ∧ (¬ throws →
                 running s' = true
                 ∧ (∀ k, currentRoom (session_of s sid) ≠ Some k →
                      rooms s' !! k = rooms s !! k)
                 ∧ (∀ sid', sid' ≠ sid →
                      sessions s' !! sid' = sessions s !! sid'))) as Hrev.
  { intros sid f. cbv zeta.
    destruct (resolve s sid) as [[[cr cu] room]|] eqn:Hres.
    2:{ split; [by intros (?&?&?&?&?&_)|done]. }
    destruct (callerIsHost room cu) eqn:Hhost.
    2:{ split; [|done]. intros (?&?&?&?&[= <- <- <-]&?&_). congruence. }
    destruct (reveal f room) as [b room1|room1] eqn:Hr; cbn [after_reveal].
    - split; [intros (?&?&?&?&[= <- <- <-]&_&?); congruence|]. intros _.
      apply resolve_session in Hres as (Hcr & _ & _).
      split_and!; [done| |done]. intros k Hk. cbn.
      rewrite lookup_insert_ne; [done|congruence].
    - split; [done|]. intros Hno. exfalso. apply Hno. by exists cr, cu, room, room1. }
  unfold handle. rewrite Hrun. cbn [negb].
  destruct e as [sid rn un now|sid|sid x|sid|sid|sid|sid un|sid|sid];
    cbn [crashes target_room sender].
  - unfold on_joinRoom, inherited_room.
    destruct (String.eqb_spec rn "") as [->|Hrn]; cbn [orb].
    { split; [by intros [? _]|done]. }
    destruct (String.eqb_spec un "") as [->|Hun]; cbn [orb].
    { split; [by intros (_ & ? & _)|done]. }
    cbv zeta. destruct (rooms s !! rn) as [room|] eqn:Hroom.
    + rewrite Hroom. split; [by intros (_ & _ & ? & _)|]. intros _.
      destruct (_ && _); [done|]. cbn. split_and!; [done| |].
      * intros k Hk. rewrite lookup_insert_ne; [done|congruence].
      * intros sid' Hne. by rewrite lookup_insert_ne.
    + case_bool_decide as Hin.
      { rewrite Hroom. split; [done|]. intros Hno. by destruct Hno. }
      split; [by intros (_ & _ & _ & ?)|]. intros _.
      assert (<[rn := newRoom rn]> (rooms s) !! rn = Some (newRoom rn)) as ->
        by apply lookup_insert_eq.
      cbn. rewrite bool_decide_eq_true_2 by done. cbn. split_and!; [done| |].
      * intros k Hk. rewrite !lookup_insert_ne; [done|congruence|congruence].
      * intros sid' Hne. by rewrite lookup_insert_ne.
  - split; [done|]. intros _.
    apply (Hput sid (λ r, (startRound r).1) (λ cu room, callerIsHost room cu)).
  - split; [done|]. intros _. unfold on_submitNumber.
    destruct (resolve s sid) as [[[cr cu] room]|] eqn:Hres; [|done].
    apply resolve_session in Hres as (Hcr & _ & _).
    split_and!; [done| |done].
    intros k Hk. cbn. rewrite lookup_insert_ne; [done|congruence].
  - apply (Hrev sid false).
  - apply (Hrev sid true).
  - split; [done|]. intros _.
    apply (Hput sid (λ r, (backToLobby r).1) (λ cu room, callerIsHost room cu)).
  - split; [done|]. intros _.
    destruct (Hput sid (λ r, (kickParticipant un r).1)
                (λ cu room, callerIsHost room cu && bool_decide (phase room = lobby)))
      as (H0 & H1 & H2).
    assert (on_kickUser sid un s
            = match resolve s sid with
              | Some (cr, cu, room) =>
                  if callerIsHost room cu && bool_decide (phase room = lobby)
                  then put_room cr (kickParticipant un room).1 s else s
              | None => s
              end) as ->.
    { unfold on_kickUser. destruct (resolve s sid) as [[[cr cu] room]|]; [|done].
      destruct (callerIsHost room cu); [|done]. cbn.
      by destruct (bool_decide (phase room = lobby)). }
    done.
  - split; [done|]. intros _. apply Hdis.
  - split; [done|]. intros _. apply Hdis.
Qed.

(** X18. On a running server, a join that reads an inherited value for
    a room, and a reveal by the host in which [reveal] throws, end the
    process, with every room and connection.  An event after which the
    server still runs has changed no room but the one it is about (the
    room named in a join, otherwise the sender's current room) and no
    connection's variables but the sender's. *)
Theorem handlers_are_local (e : event) (s : Server) :
  running s = true →
  (crashes e s → handle e s = crashed)
  ∧ (running (handle e s) = true →
       (∀ k, target_room e s ≠ Some k → rooms (handle e s) !! k = rooms s !! k)
       ∧ (∀ sid, sid ≠ sender e →
            sessions (handle e s) !! sid = sessions s !! sid)).
Proof.
  intros Hrun. destruct (handle_cases e s Hrun) as [Hcrash Hlocal].
  split; [done|]. intros Hstill. apply Hlocal.
  intros Hc. rewrite (Hcrash Hc) in Hstill. discriminate.
Qed.

Lemma handlers_are_local_witness :
  handle (EvJoin "s3" "constructor" "C" 3) server_ab = crashed
  ∧ rooms (handle (EvJoin "s3" "Q" "C" 3) server_ab) !! "R"%string
    = rooms server_ab !! "R"%string
  ∧ sessions (handle (EvJoin "s3" "Q" "C" 3) server_ab) !! "s1"%string
    = sessions server_ab !! "s1"%string.
Proof.
  assert (running server_ab = true) as Hrun by reflexivity.
  split.
  - apply (proj1 (handlers_are_local (EvJoin "s3" "constructor" "C" 3)
                    server_ab Hrun)).
    split; [done|]. split; [done|]. split; [vm_compute; reflexivity|].
    apply inherited_name. vm_compute. reflexivity.
  - destruct (proj2 (handlers_are_local (EvJoin "s3" "Q" "C" 3) server_ab Hrun))
      as (Hrooms & Hsess); [vm_compute; reflexivity|].
    split; [by apply Hrooms|by apply Hsess].
Defined.

(** X19. A host-only event ([startRound], [revealResult], [forceReveal],
    [backToLobby], [kickUser]) from a connection that is not the host of
    a registered room it is in changes nothing at all. *)
Theorem unauthorized_event_changes_nothing (e : event) (s : Server) :
  host_only e →
  (∀ cr cu room, resolve s (sender e) = Some (cr, cu, room) →
     callerIsHost room cu = false) →
  handle e s = s.
Proof.
  intros He Hno. unfold handle. destruct (running s); cbn [negb]; [|done].
  destruct e as [sid rn un now|sid|sid x|sid|sid|sid|sid un|sid|sid];
    cbn [host_only] in He; try done; cbn [sender] in *.
  - unfold on_startRound.
    destruct (resolve s sid) as [[[cr cu] room]|]; [|done].
    by rewrite (Hno cr cu room).
  - unfold on_revealResult.
    destruct (resolve s sid) as [[[cr cu] room]|]; [|done].
    by rewrite (Hno cr cu room).
  - unfold on_forceReveal.
    destruct (resolve s sid) as [[[cr cu] room]|]; [|done].
    by rewrite (Hno cr cu room).
  - unfold on_backToLobby.
    destruct (resolve s sid) as [[[cr cu] room]|]; [|done].
    by rewrite (Hno cr cu room).
  - unfold on_kickUser.
    destruct (resolve s sid) as [[[cr cu] room]|]; [|done].
    by rewrite (Hno cr cu room).
Qed.

Lemma unauthorized_event_changes_nothing_witness :
  handle (EvStart "s2") server_ab = server_ab
  ∧ handle (EvKick "s2" "A") server_ab = server_ab.
Proof.
  split.
  - apply (unauthorized_event_changes_nothing (EvStart "s2")); [exact I|].
    intros cr cu room. cbn [sender]. vm_compute. by intros [= <- <- <-].
  - apply (unauthorized_event_changes_nothing (EvKick "s2" "A")); [exact I|].
    intros cr cu room. cbn [sender]. vm_compute. by intros [= <- <- <-].
Defined.

Lemma startRound_false (r : Room) :
  (startRound r).2 = false → (startRound r).1 = r.
Proof. unfold startRound. by destruct (_ || _). Qed.

(** X20. A request the room refuses leaves the whole server as it was: a
    [startRound] that returns false, a rejected [submitNumber], a
    [revealResult] that returns false, a [kickUser] of an unknown name,
    and any [kickUser] outside phase [lobby]. *)
Theorem refused_request_changes_nothing (s : Server) (sid cr cu : string) (room : Room) :
  resolve s sid = Some (cr, cu, room) →
  ((startRound room).2 = false → on_startRound sid s = s)
  ∧ (∀ x, (submitNumber cu x room).2 = false → on_submitNumber sid x s = s)
  ∧ (reveal false room = Return false room → on_revealResult sid s = s)
  ∧ (∀ u, (kickParticipant u room).2 = None → on_kickUser sid u s = s)
  ∧ (∀ u, phase room ≠ lobby → on_kickUser sid u s = s).
Proof.
  intros Hres. pose proof (resolve_Some _ _ _ _ _ Hres) as Hroom.
  split_and!.
  - intros Hfail. unfold on_startRound. rewrite Hres.
    destruct (callerIsHost room cu); [|done].
    rewrite startRound_false by done. by apply put_room_same.
  - intros x Hfail. unfold on_submitNumber. rewrite Hres.
    destruct (submitNumber_spec cu x room) as (_ & _ & Hsame).
    rewrite Hsame by done. by apply put_room_same.
  - intros Hfail. unfold on_revealResult. rewrite Hres.
    destruct (callerIsHost room cu); [|done].
    rewrite Hfail. cbn [after_reveal]. by apply put_room_same.
  - intros u Hnone. unfold on_kickUser. rewrite Hres.
    destruct (callerIsHost room cu); [|done].
    destruct (negb _); [done|].
    revert Hnone. unfold kickParticipant.
    destruct (findIndex _ _ _) as [k|] eqn:Hf; cbn [fst snd].
    + destruct (findIndex_Some _ _ _ _ Hf) as (i & Hk & Hi).
      rewrite Hk. cbn. unfold holds in Hi.
      destruct (heap room !! i); [done|done].
    + intros _. by apply put_room_same.
  - intros u Hph. unfold on_kickUser. rewrite Hres.
    destruct (callerIsHost room cu); [|done].
    by rewrite bool_decide_eq_false_2.
Qed.

Lemma refused_request_changes_nothing_witness :
  on_submitNumber "s1" (num_of_Z 1) server_ab = server_ab
  ∧ on_kickUser "s1" "Z" server_ab = server_ab.
Proof.
  assert (resolve server_ab "s1"
          = Some ("R", "A", default (newRoom "R") (rooms server_ab !! "R")))%string
    as Hres by (vm_compute; reflexivity).
  destruct (refused_request_changes_nothing _ _ _ _ _ Hres)
    as (_ & Hsub & _ & Hkick & _).
  split; [apply Hsub | apply Hkick]; vm_compute; reflexivity.
Defined.


(** X22. Whoever joins a room that is not registered yet, with non-empty
    names and under a room name that is not a property of
    [Object.prototype], creates it and is alone in it, online and host,
    in phase [lobby]. *)
Theorem room_creator_is_host (sid rn un : string) (now : Z) (s : Server) :
  rooms s !! rn = None → rn ∉ Object_prototype →
  rn ≠ ""%string → un ≠ ""%string →
  ∃ room, rooms (on_joinRoom sid rn un now s) !! rn = Some room
          ∧ sessions (on_joinRoom sid rn un now s) !! sid
            = Some (mkSession (Some rn) (Some un))
          ∧ rosterNames room = [un]
          ∧ callerIsHost room un = true
          ∧ isEmpty room = false
          ∧ phase room = lobby
          ∧ roomName room = rn.
Proof.
  intros Hnone Hplain Hrn Hun. unfold on_joinRoom.
  rewrite (proj2 (String.eqb_neq rn "")), (proj2 (String.eqb_neq un "")) by done.
  cbn [orb]. cbv zeta. rewrite Hnone, bool_decide_eq_false_2 by done.
  assert (<[rn := newRoom rn]> (rooms s) !! rn = Some (newRoom rn)) as ->
    by apply lookup_insert_eq.
  cbn. rewrite bool_decide_eq_true_2 by done. cbn.
  rewrite !lookup_insert_eq. eexists. split; [reflexivity|]. split; [done|].
  unfold callerIsHost, find_ref, holds. cbn. rewrite String.eqb_refl. done.
Qed.

Lemma room_creator_is_host_witness :
  ∃ room, rooms (on_joinRoom "s1" "R" "A" 1 initServer) !! "R"%string = Some room
          ∧ sessions (on_joinRoom "s1" "R" "A" 1 initServer) !! "s1"%string
            = Some (mkSession (Some "R") (Some "A"))%string
          ∧ rosterNames room = ["A"%string]
          ∧ callerIsHost room "A" = true
          ∧ isEmpty room = false
          ∧ phase room = lobby
          ∧ roomName room = "R"%string.
Proof.
  apply room_creator_is_host; [done| |done|done].
  apply plain_name. vm_compute. reflexivity.
Defined.


Lemma isEmpty_iff (r : Room) : isEmpty r = true ↔ nobody_online r.
Proof.
  unfold isEmpty, nobody_online. rewrite Nat.eqb_eq. split.
  - intros Hlen j Hj. destruct (holds (heap r) online j) eqn:Hon; [|done].
    assert (In j (List.filter (holds (heap r) online) (participants r))) as Hin.
    { apply filter_In. split; [by apply list_elem_of_In | done]. }
    apply nil_length_inv in Hlen. by rewrite Hlen in Hin.
  - intros Hoff. by rewrite List_filter_nil.
Qed.

(** X23. [handleDisconnect] from a connection that is in a registered
    room clears the connection's variables, and removes the room from the
    registry exactly when every online member of the roster is the member
    it marks offline (the first one with the connection's socket id);
    otherwise the room stays, as [removeParticipant] left it. *)
Theorem disconnect_spec (s : Server) (sid cr cu : string) (room : Room) :
  resolve s sid = Some (cr, cu, room) →
  sessions (handleDisconnect sid s) !! sid = Some (mkSession None None)
  ∧ (rooms (handleDisconnect sid s) !! cr = None ↔
       ∀ j, j ∈ participants room → holds (heap room) online j = true →
         find_ref (heap room) (λ p, String.eqb (socketId p) sid) (participants room)
         = Some j)
  ∧ (rooms (handleDisconnect sid s) !! cr = None
     ∨ rooms (handleDisconnect sid s) !! cr = Some (removeParticipant sid room)).
Proof.
  intros Hres. unfold handleDisconnect. rewrite Hres. cbn.
  split; [by rewrite lookup_insert_eq|].
  assert (isEmpty (removeParticipant sid room) = true ↔
            ∀ j, j ∈ participants room → holds (heap room) online j = true →
              find_ref (heap room) (λ p, String.eqb (socketId p) sid) (participants room)
              = Some j) as Hcrit.
  { unfold removeParticipant.
    destruct (find_ref _ _ _) as [i|] eqn:Hf.
    - rewrite check_isEmpty, isEmpty_iff. unfold nobody_online. cbn. split.
      + intros Hoff j Hj Hon. destruct (decide (i = j)) as [->|Hne]; [done|].
        specialize (Hoff j Hj). unfold holds in Hoff, Hon.
        rewrite list_lookup_alter_ne in Hoff by done. congruence.
      + intros Hall j Hj. unfold holds.
        destruct (decide (i = j)) as [->|Hne].
        * rewrite list_lookup_alter_eq. by destruct (heap room !! j).
        * rewrite list_lookup_alter_ne by done.
          destruct (heap room !! j) as [p|] eqn:Hp; [|done].
          destruct (online p) eqn:Hon; [|done].
          specialize (Hall j Hj). unfold holds in Hall. rewrite Hp in Hall.
          specialize (Hall Hon). congruence.
    - rewrite isEmpty_iff. unfold nobody_online. split.
      + intros Hoff j Hj Hon. rewrite Hoff in Hon; done.
      + intros Hall j Hj. destruct (holds (heap room) online j) eqn:Hon; [|done].
        by specialize (Hall j Hj Hon). }
  destruct (isEmpty (removeParticipant sid room)) eqn:Hem.
  - rewrite lookup_delete_eq. split; [|by left].
    split; [intros _; by apply Hcrit | done].
  - rewrite lookup_insert_eq. split; [|by right].
    split; [done|]. intros Hall. apply Hcrit in Hall. done.
Qed.

Lemma disconnect_spec_witness :
  rooms (handleDisconnect "s1" (on_joinRoom "s1" "R" "A" 1 initServer)) !! "R"%string
  = None
  ∧ is_Some (rooms (handleDisconnect "s1" server_ab) !! "R"%string).
Proof.
  split; [|vm_compute; eauto].
  assert (resolve (on_joinRoom "s1" "R" "A" 1 initServer) "s1"
          = Some ("R", "A",
                  default (newRoom "R")
                    (rooms (on_joinRoom "s1" "R" "A" 1 initServer) !! "R")))%string
    as Hres by (vm_compute; reflexivity).
  destruct (disconnect_spec _ _ _ _ _ Hres) as (_ & Hdel & _).
  apply Hdel. intros j Hj Hon.
  change (participants _) with [0] in Hj.
  apply list_elem_of_singleton in Hj as ->. vm_compute. reflexivity.
Defined.

(** X24. As long as no [kickUser] event is handled, no room without an
    online participant is ever registered. *)
Theorem no_empty_room_without_kick (es : list event) :
  Forall not_a_kick es → no_empty_room (serve es initServer).
Proof.
  assert (∀ s, no_empty_room s → Forall not_a_kick es → no_empty_room (serve es s))
    as Hgen.
  { induction es as [|e es IH]; intros s Hs Hes; [done|].
    apply Forall_cons in Hes as [He Hes]. cbn.
    apply IH; [|done]. by apply no_empty_room_preserved. }
  apply Hgen. intros k room. cbn. by rewrite lookup_empty.
Qed.

Lemma no_empty_room_without_kick_witness :
  ∃ room, rooms (serve [EvJoin "s1" "R" "A" 1; EvJoin "s2" "R" "B" 2;
                        EvDisconnect "s1"] initServer) !! "R"%string = Some room
          ∧ isEmpty room = false.
Proof.
  eexists. split; [vm_compute; reflexivity|].
  eapply (no_empty_room_without_kick
            [EvJoin "s1" "R" "A" 1; EvJoin "s2" "R" "B" 2; EvDisconnect "s1"]
            ltac:(repeat constructor) "R"%string).
  vm_compute. reflexivity.
Defined.
End Handlers.

(** * The snapshot of the roster *)

Section SnapshotRoster.

Lemma omap_deref_lookup {B} (g : Participant → B) (h : list Participant)
    (ps : list nat) (k : nat) :
  wf_refs h ps →
  omap (λ i, g <$> h !! i) ps !! k = ps !! k ≫= λ i, g <$> h !! i.
Proof.
  revert k. induction ps as [|i ps IH]; intros k Hwf; [done|].
  assert (wf_refs h ps) as Hwf'.
  { intros j Hj. by apply Hwf, list_elem_of_further. }
  destruct (lookup_lt_is_Some_2 h i) as [p Hp]; [apply Hwf, list_elem_of_here|].
  cbn. rewrite Hp. cbn. destruct k as [|k]; cbn.
  - by rewrite Hp.
  - by apply IH.
Qed.

(** X25. The snapshot of a room the methods produced lists the roster in
    its order, one entry per member, each with the member's name, host
    flag and online flag, under the room's name and phase; outside phase
    [input] its [submissions] field is null. *)
Theorem getState_roster (r : Room) :
  reachable r →
  s_name (getState r) = roomName r
  ∧ s_phase (getState r) = phase r
  ∧ v_name <$> s_participants (getState r) = rosterNames r
  ∧ length (s_participants (getState r)) = length (participants r)
  ∧ (∀ k i p, participants r !! k = Some i → heap r !! i = Some p →
       s_participants (getState r) !! k
       = Some (mkView (name p) (isHost p) (online p)))
  ∧ (phase r ≠ input → s_submissions (getState r) = None).
Proof.
  intros Hr. pose proof (inv_roster_wf _ (reachable_inv _ Hr)) as Hwf.
  split_and!; try done.
  - cbn. unfold rosterNames, names_of. clear Hr Hwf.
    induction (participants r) as [|i ps IH]; [done|]. cbn.
    destruct (heap r !! i); cbn; [by f_equal | exact IH].
  - cbn. clear Hr. revert Hwf.
    induction (participants r) as [|i ps IH]; intros Hwf; [done|].
    destruct (lookup_lt_is_Some_2 (heap r) i) as [p Hp]; [apply Hwf, list_elem_of_here|].
    cbn. rewrite Hp. cbn. rewrite IH; [done|].
    intros j Hj. by apply Hwf, list_elem_of_further.
  - intros k i p Hk Hp. cbn. rewrite omap_deref_lookup by done.
    rewrite Hk. cbn. by rewrite Hp.
  - intros Hph. cbn. by rewrite bool_decide_eq_false_2.
Qed.

Lemma getState_roster_witness :
  v_name <$> s_participants (getState room2) = ["A"; "B"]%string
  ∧ length (s_participants (getState room2)) = 2.
Proof.
  assert (reachable room2) as Hr by apply reachable_run, reach_new.
  destruct (getState_roster room2 Hr) as (_ & _ & Hn & Hl & _).
  split; [rewrite Hn | rewrite Hl]; reflexivity.
Defined.
End SnapshotRoster.

